(** * The agent examples of lesson module 5: tool registry, action parser,
      control loop and the calculator tool

    A shallow embedding of
    - [tools/calculator.py]: the whitelisting evaluator [_eval_node] and
      [safe_calculator];
    - [examples/react_agent.py] and [examples/research_agent.py]: [Tool],
      [ToolKit], the inline [safe_calculator], [_parse_action],
      [_extract_answer] and the loops [ReActAgent.run] and
      [ResearchAgent.research].

    Python text ([str]) is a list of code points, so that slicing, stripping
    and the regular expressions count characters as Python does.  Exceptions
    are values of an error monad; only subclasses of [Exception] are modelled
    (an interrupt that is not an [Exception] is outside the embedding).
    The model call and the tools act on an abstract world that is passed
    along, together with a trace of the calls made. *)

From Stdlib Require Import List ZArith NArith Bool Lia String Ascii.
From Stdlib Require Import Floats.SpecFloat.
From Stdlib Require Import Sorting.Sorted.
Import ListNotations.

Set Implicit Arguments.

(* ===================================================================== *)
(** * Python text and the host's string operations                        *)
(* ===================================================================== *)

Module Py.

(** A character is a Unicode code point. *)
Definition char := N.
Definition str := list char.

(** Source literals are written as UTF-8 text and decoded. *)
Fixpoint utf8_decode (bs : list N) : str :=
  match bs with
  | [] => []
  | b0 :: r0 =>
    if (b0 <? 128)%N then b0 :: utf8_decode r0
    else match r0 with
    | [] => [b0]
    | b1 :: r1 =>
      if (b0 <? 224)%N
      then ((b0 - 192) * 64 + (b1 - 128))%N :: utf8_decode r1
      else match r1 with
      | [] => [b0; b1]
      | b2 :: r2 =>
        if (b0 <? 240)%N
        then ((b0 - 224) * 4096 + (b1 - 128) * 64 + (b2 - 128))%N
               :: utf8_decode r2
        else match r2 with
        | [] => [b0; b1; b2]
        | b3 :: r3 =>
          ((b0 - 240) * 262144 + (b1 - 128) * 4096
             + (b2 - 128) * 64 + (b3 - 128))%N :: utf8_decode r3
        end
      end
    end
  end.

Definition u (s : string) : str :=
  utf8_decode (map Byte.to_N (list_byte_of_string s)).

Definition dquote : char := 34%N.
Definition squote : char := 39%N.
Definition newline : char := 10%N.
Definition lparen : char := 40%N.
Definition rparen : char := 41%N.

Definition str_eqb (a b : str) : bool :=
  if list_eq_dec N.eq_dec a b then true else false.

(** [str.isspace] on one character, which is also the class [\s] of a
    [str] pattern. *)
Definition isspace (c : char) : bool :=
  ((9 <=? c) && (c <=? 13) || (28 <=? c) && (c <=? 32)
   || (c =? 133) || (c =? 160) || (c =? 5760)
   || (8192 <=? c) && (c <=? 8202)
   || (c =? 8232) || (c =? 8233) || (c =? 8239) || (c =? 8287)
   || (c =? 12288))%N.

Definition mem_char (c : char) (cs : str) : bool := existsb (N.eqb c) cs.

(** [s.lstrip(chars)], [s.rstrip(chars)], [s.strip(chars)] for a set of
    characters given by its test. *)
Fixpoint lstrip_if (p : char -> bool) (s : str) : str :=
  match s with
  | c :: t => if p c then lstrip_if p t else s
  | [] => []
  end.

Definition rstrip_if (p : char -> bool) (s : str) : str :=
  rev (lstrip_if p (rev s)).

Definition strip_if (p : char -> bool) (s : str) : str :=
  rstrip_if p (lstrip_if p s).

(** [s.strip()] *)
Definition strip (s : str) : str := strip_if isspace s.

(** [s.strip(chars)] *)
Definition strip_chars (chars : str) (s : str) : str :=
  strip_if (fun c => mem_char c chars) s.

(** [s.startswith(p)], returning what follows the prefix. *)
Fixpoint drop_prefix (p s : str) : option str :=
  match p, s with
  | [], _ => Some s
  | a :: p', b :: s' => if (a =? b)%N then drop_prefix p' s' else None
  | _ :: _, [] => None
  end.

(** [sep in s] *)
Fixpoint contains (sep s : str) : bool :=
  match drop_prefix sep s with
  | Some _ => true
  | None => match s with [] => false | _ :: t => contains sep t end
  end.

(** [s.split(sep)] for a non-empty separator: the text is scanned from the
    left; [skip] counts the characters of a separator just found that are
    still to be passed over, [cur] is the piece being read, reversed. *)
Fixpoint split_scan (sep : str) (skip : nat) (cur : str) (s : str)
  : list str :=
  match s with
  | [] => [rev cur]
  | c :: t =>
    match skip with
    | S k => split_scan sep k cur t
    | O =>
      match drop_prefix sep s with
      | Some _ => rev cur :: split_scan sep (List.length sep - 1) [] t
      | None => split_scan sep 0 (c :: cur) t
      end
    end
  end.

Definition split (sep s : str) : list str := split_scan sep 0 [] s.

(** [sep.join(parts)] *)
Fixpoint join (sep : str) (parts : list str) : str :=
  match parts with
  | [] => []
  | [p] => p
  | p :: rest => p ++ sep ++ join sep rest
  end.

(** [s[:n]] for [n >= 0] *)
Definition slice_to (n : nat) (s : str) : str := firstn n s.

(** ** Exceptions and results *)

Inductive exc_class :=
| ValueError | ZeroDivisionError | KeyError | TypeError | AttributeError
| IndexError | OverflowError | SyntaxError
| Exception_ (name : str).

(** An exception: its class and [str(e)]. *)
Record exc := Exc { exc_type : exc_class; exc_str : str }.

Inductive result (A : Type) :=
| Ok (a : A)
| Raise (e : exc).
Arguments Ok {A} a.
Arguments Raise {A} e.

Definition bind_result {A B} (r : result A) (f : A -> result B)
  : result B :=
  match r with
  | Ok a => f a
  | Raise e => Raise e
  end.

(** [[f(x) for x in xs]]: elements are evaluated from the left and the
    first exception ends the evaluation. *)
Section MapResult.

Variables A B : Type.
Variable f : A -> result B.

Fixpoint map_result (xs : list A) : result (list B) :=
  match xs with
  | [] => Ok []
  | x :: t =>
    bind_result (f x)
      (fun v => bind_result (map_result t) (fun vs => Ok (v :: vs)))
  end.

End MapResult.

(** A dictionary keeps its keys in insertion order; assigning to a key
    that is present keeps the key's place. *)
Fixpoint dict_get {V} (k : str) (d : list (str * V)) : option V :=
  match d with
  | [] => None
  | (k', v) :: t => if str_eqb k k' then Some v else dict_get k t
  end.

Fixpoint dict_set {V} (k : str) (v : V) (d : list (str * V))
  : list (str * V) :=
  match d with
  | [] => [(k, v)]
  | (k', v') :: t =>
    if str_eqb k k' then (k, v) :: t else (k', v') :: dict_set k v t
  end.

Definition dict_keys {V} (d : list (str * V)) : list str := map fst d.
Definition dict_values {V} (d : list (str * V)) : list V := map snd d.

(** [k in d] *)
Definition dict_mem {V} (k : str) (d : list (str * V)) : bool :=
  match dict_get k d with Some _ => true | None => false end.

(** [range(lo, hi)] *)
Definition range (lo hi : Z) : list Z :=
  map (fun k => (lo + Z.of_nat k)%Z) (seq 0 (Z.to_nat (hi - lo))).

End Py.

Export Py.

Declare Scope result_scope.
Delimit Scope result_scope with result.
Notation "x <- c ;; k" := (bind_result c (fun x => k))
  (at level 61, c at next level, right associativity) : result_scope.

(* ===================================================================== *)
(** * The host's regular expressions ([re.search])                        *)
(* ===================================================================== *)

(** The fragment of the pattern language that the agents' two patterns use:
    literal text, a one-character class under a greedy or lazy counted
    repetition, and capturing groups.  Matching is by backtracking in the
    order of the host's engine: a greedy repetition tries the longer match
    first, a lazy one the shorter, and the first success is the match. *)

Module Re.

Section WithUnicode.

(** [str.isalnum] beyond ASCII is a table of the host's Unicode database. *)
Variable unicode_isalnum : char -> bool.

Inductive cls :=
| c_space                (* \s *)
| c_word                 (* \w *)
| c_dot                  (* .  *)
| c_in (cs : str)        (* [...] *)
| c_not_in (cs : str).   (* [^...] *)

Inductive re :=
| re_lit (s : str)
| re_rep (c : cls) (lo : nat) (hi : option nat) (greedy : bool)
| re_group (body : re)
| re_seq (a b : re).

(** A pattern written item by item. *)
Definition re_cat (items : list re) : re :=
  fold_right re_seq (re_lit []) items.

Definition isword (c : char) : bool :=
  if (c <? 128)%N
  then ((48 <=? c) && (c <=? 57) || (65 <=? c) && (c <=? 90)
        || (97 <=? c) && (c <=? 122) || (c =? 95))%N
  else unicode_isalnum c.

Definition in_cls (k : cls) (c : char) : bool :=
  match k with
  | c_space => isspace c
  | c_word => isword c
  | c_dot => negb (c =? newline)%N
  | c_in cs => mem_char c cs
  | c_not_in cs => negb (mem_char c cs)
  end.

Definition hi_open (hi : option nat) : bool :=
  match hi with Some O => false | _ => true end.

Definition hi_pred (hi : option nat) : option nat :=
  match hi with Some n => Some (pred n) | None => None end.

(** A repetition of class [k], between [lo] and [hi] characters, followed
    by the continuation [cont]. *)
Fixpoint rep_match {R} (k : cls) (greedy : bool) (lo : nat)
    (hi : option nat) (s : str) (cont : str -> option R) {struct s}
  : option R :=
  match s with
  | c :: t =>
    if in_cls k c && hi_open hi then
      if greedy then
        match rep_match k greedy (pred lo) (hi_pred hi) t cont with
        | Some r => Some r
        | None => match lo with O => cont s | S _ => None end
        end
      else
        match (match lo with O => cont s | S _ => None end) with
        | Some r => Some r
        | None => rep_match k greedy (pred lo) (hi_pred hi) t cont
        end
    else match lo with O => cont s | S _ => None end
  | [] => match lo with O => cont s | S _ => None end
  end.

(** The pattern [r] at the front of [s], then the continuation [cont] on
    what is left; [caps] are the groups closed so far, in order. *)
Fixpoint re_run {R} (r : re) (s : str) (caps : list str)
    (cont : str -> list str -> option R) {struct r} : option R :=
  match r with
  | re_lit l =>
    match drop_prefix l s with
    | Some s' => cont s' caps
    | None => None
    end
  | re_rep k lo hi greedy =>
    rep_match k greedy lo hi s (fun s' => cont s' caps)
  | re_group body =>
    re_run body s caps
      (fun s' caps' =>
         cont s' (caps' ++ [firstn (List.length s - List.length s') s]))
  | re_seq a b =>
    re_run a s caps (fun s1 caps1 => re_run b s1 caps1 cont)
  end.

(** [re.match(pattern, s)]: the groups of a match at the front of [s]. *)
Definition re_match (pattern : re) (s : str) : option (list str) :=
  re_run pattern s [] (fun _ caps => Some caps).

(** [re.search(pattern, s)]: the match at the leftmost position that has
    one. *)
Fixpoint re_search (pattern : re) (s : str) : option (list str) :=
  match re_match pattern s with
  | Some caps => Some caps
  | None =>
    match s with
    | [] => None
    | _ :: t => re_search pattern t
    end
  end.

(** [match.group(i)] for [i >= 1] *)
Definition group (m : list str) (i : nat) : str := nth (i - 1) m [].

End WithUnicode.

End Re.

(* ===================================================================== *)
(** * Syntax trees ([ast]) and the host's arithmetic                      *)
(* ===================================================================== *)

Module Ast.

(** [type(node.op)] of a [BinOp] and of a [UnaryOp]. *)
Inductive operator :=
| Add | Sub | Mult | MatMult | Div | Mod | Pow
| LShift | RShift | BitOr | BitXor | BitAnd | FloorDiv.

Inductive unaryop := Invert | Not | UAdd | USub.

#[local] Unset Elimination Schemes.

(** The expression nodes the evaluators tell apart.  A numeric literal is
    a [Constant] (the older [ast.Num] is the same node); every node type
    the evaluators do not name is [Other] with its class name.  Keyword
    arguments of a call are not read by either evaluator and are left out. *)
Inductive expr (V : Type) :=
| Constant (value : V)
| Name (id : str)
| BinOp (left : expr V) (op : operator) (right : expr V)
| UnaryOp (op : unaryop) (operand : expr V)
| Call (func : expr V) (args : list (expr V))
| Other (type_name : str).

#[local] Set Elimination Schemes.

Arguments Name {V} id.
Arguments Other {V} type_name.

Definition operator_name (op : operator) : str :=
  match op with
  | Add => u "Add" | Sub => u "Sub" | Mult => u "Mult"
  | MatMult => u "MatMult" | Div => u "Div" | Mod => u "Mod"
  | Pow => u "Pow" | LShift => u "LShift" | RShift => u "RShift"
  | BitOr => u "BitOr" | BitXor => u "BitXor" | BitAnd => u "BitAnd"
  | FloorDiv => u "FloorDiv"
  end.

Definition unaryop_name (op : unaryop) : str :=
  match op with
  | Invert => u "Invert" | Not => u "Not"
  | UAdd => u "UAdd" | USub => u "USub"
  end.

(** [type(node).__name__] *)
Definition type_name_of {V} (node : expr V) : str :=
  match node with
  | Constant _ => u "Constant"
  | Name _ => u "Name"
  | BinOp _ _ _ => u "BinOp"
  | UnaryOp _ _ => u "UnaryOp"
  | Call _ _ => u "Call"
  | Other n => n
  end.

(** The key of the [OPERATORS] dictionaries: an operator class. *)
Definition opclass := (operator + unaryop)%type.

Definition operator_eq_dec (a b : operator) : {a = b} + {a <> b}.
Proof. decide equality. Defined.

Definition unaryop_eq_dec (a b : unaryop) : {a = b} + {a <> b}.
Proof. decide equality. Defined.

Definition opclass_eqb (a b : opclass) : bool :=
  match a, b with
  | inl x, inl y => if operator_eq_dec x y then true else false
  | inr x, inr y => if unaryop_eq_dec x y then true else false
  | _, _ => false
  end.

Fixpoint opclass_get {F} (k : opclass) (d : list (opclass * F))
  : option F :=
  match d with
  | [] => None
  | (k', f) :: t => if opclass_eqb k k' then Some f else opclass_get k t
  end.

(** The callables of the host that the tables of the evaluators hold:
    functions of the [operator] and [math] modules and two builtins. *)
Inductive host_fn :=
| operator_add | operator_sub | operator_mul | operator_truediv
| operator_floordiv | operator_mod | operator_pow
| operator_neg | operator_pos
| math_sqrt | math_sin | math_cos | math_tan
| math_asin | math_acos | math_atan
| math_log | math_log10 | math_log2 | math_exp
| builtin_abs | builtin_round
| math_floor | math_ceil | math_factorial | math_gcd.

Inductive host_const := math_pi | math_e | math_tau | math_inf.

(** The host: the objects that evaluation yields and what the host's
    library does to them.  A call takes its positional arguments as a
    list; a wrong number of them is the callable's own [TypeError]. *)
Record Host := {
  value : Type;
  call : host_fn -> list value -> result value;
  const : host_const -> value;
  int_ : Z -> value;                      (* an [int] object *)
  float_ : value -> result value;         (* [float(x)] *)
  str_ : value -> str;                    (* [str(x)] *)
  ast_parse : str -> result (expr value)  (* [ast.parse(s, mode='eval').body] *)
}.

End Ast.

Export Ast.

(* ===================================================================== *)
(** * tools/calculator.py                                                 *)
(* ===================================================================== *)

Module calculator.

Definition OPERATORS : list (opclass * host_fn) :=
  [ (inl Add, operator_add);
    (inl Sub, operator_sub);
    (inl Mult, operator_mul);
    (inl Div, operator_truediv);
    (inl FloorDiv, operator_floordiv);
    (inl Mod, operator_mod);
    (inl Pow, operator_pow);
    (inr USub, operator_neg);
    (inr UAdd, operator_pos) ].

Definition FUNCTIONS : list (str * host_fn) :=
  [ (u "sqrt", math_sqrt);
    (u "sin", math_sin);
    (u "cos", math_cos);
    (u "tan", math_tan);
    (u "asin", math_asin);
    (u "acos", math_acos);
    (u "atan", math_atan);
    (u "log", math_log);
    (u "log10", math_log10);
    (u "log2", math_log2);
    (u "exp", math_exp);
    (u "abs", builtin_abs);
    (u "round", builtin_round);
    (u "floor", math_floor);
    (u "ceil", math_ceil);
    (u "factorial", math_factorial);
    (u "gcd", math_gcd) ].

Definition CONSTANTS : list (str * host_const) :=
  [ (u "pi", math_pi);
    (u "e", math_e);
    (u "tau", math_tau);
    (u "inf", math_inf) ].

Section WithHost.

Variable h : Host.

Local Open Scope result_scope.

Fixpoint _eval_node (node : expr (value h)) : result (value h) :=
  match node with
  | Constant v => Ok v
  | Name id =>
    match dict_get id CONSTANTS with
    | Some c => Ok (const h c)
    | None => Raise (Exc ValueError (u "Неизвестная константа: " ++ id))
    end
  | BinOp l o r =>
    left <- _eval_node l ;;
    right <- _eval_node r ;;
    match opclass_get (inl o) OPERATORS with
    | None =>
      Raise (Exc ValueError
               (u "Неподдерживаемый оператор: " ++ operator_name o))
    | Some op => call h op [left; right]
    end
  | UnaryOp o e =>
    operand <- _eval_node e ;;
    match opclass_get (inr o) OPERATORS with
    | None =>
      Raise (Exc ValueError
               (u "Неподдерживаемый оператор: " ++ unaryop_name o))
    | Some op => call h op [operand]
    end
  | Call func args =>
    match func with
    | Name func_name =>
      match dict_get func_name FUNCTIONS with
      | None =>
        let available := join (u ", ") (dict_keys FUNCTIONS) in
        Raise (Exc ValueError
                 (u "Неизвестная функция: " ++ func_name
                    ++ u ". Доступны: " ++ available))
      | Some f =>
        args' <- map_result _eval_node args ;;
        call h f args'
      end
    | _ =>
      Raise (Exc ValueError (u "Поддерживаются только простые вызовы функций"))
    end
  | Other tn =>
    Raise (Exc ValueError (u "Неподдерживаемый тип узла: " ++ tn))
  end.

Definition safe_calculator (expression : str) : result (value h) :=
  match expression with
  | [] => Raise (Exc ValueError (u "Выражение не может быть пустым"))
  | _ :: _ =>
    match strip expression with
    | [] => Raise (Exc ValueError (u "Выражение не может быть пустым"))
    | _ :: _ =>
      let expression := strip expression in
      match (tree <- ast_parse h expression ;;
             result <- _eval_node tree ;;
             float_ h result) with
      | Ok r => Ok r
      | Raise e =>
        match exc_type e with
        | SyntaxError =>
          Raise (Exc ValueError
                   (u "Синтаксическая ошибка в выражении '" ++ expression
                      ++ u "': " ++ exc_str e))
        | ZeroDivisionError =>
          Raise (Exc ValueError (u "Деление на ноль"))
        | _ =>
          Raise (Exc ValueError
                   (u "Ошибка вычисления '" ++ expression
                      ++ u "': " ++ exc_str e))
        end
      end
    end
  end.

End WithHost.

(** An expression refers to an unknown identifier when a name outside
    [CONSTANTS] stands where a value is evaluated, or a name outside
    [FUNCTIONS] is called. *)
Inductive refers_unknown {V : Type} : expr V -> Prop :=
| ru_name (id : str) :
    dict_get id CONSTANTS = None -> refers_unknown (Name id)
| ru_left (l : expr V) (o : operator) (r : expr V) :
    refers_unknown l -> refers_unknown (BinOp l o r)
| ru_right (l : expr V) (o : operator) (r : expr V) :
    refers_unknown r -> refers_unknown (BinOp l o r)
| ru_operand (o : unaryop) (e : expr V) :
    refers_unknown e -> refers_unknown (UnaryOp o e)
| ru_function (f : str) (args : list (expr V)) :
    dict_get f FUNCTIONS = None -> refers_unknown (Call (Name f) args)
| ru_argument (func : expr V) (args : list (expr V)) (a : expr V) :
    In a args -> refers_unknown a -> refers_unknown (Call func args).

End calculator.

(* ===================================================================== *)
(** * Effects: the world outside, exceptions and the trace of calls       *)
(* ===================================================================== *)

Module Eff.

(** [{"role": ..., "content": ...}] *)
Record message := Message { role : str; content : str }.

(** What a run does to the outside: a request to the model with the
    transcript sent, and a dispatch through the tool registry. *)
Inductive event :=
| ev_model (sent : list message)
| ev_dispatch (name arg : str).

Section WithWorld.

Variable World : Type.

Record store := Store { world : World; trace : list event }.

(** A computation reads and changes the store and returns or raises. *)
Definition M (A : Type) : Type := store -> result A * store.

Definition ret {A} (a : A) : M A := fun s => (Ok a, s).

Definition raise {A} (e : exc) : M A := fun s => (Raise e, s).

Definition bind {A B} (c : M A) (f : A -> M B) : M B :=
  fun s =>
    match c s with
    | (Ok a, s') => f a s'
    | (Raise e, s') => (Raise e, s')
    end.

Definition tell (ev : event) : M unit :=
  fun s => (Ok tt, Store (world s) (trace s ++ [ev])).

(** An action of the outside world, such as a network request. *)
Definition perform {A} (f : World -> result A * World) : M A :=
  fun s => let (r, w) := f (world s) in (r, Store w (trace s)).

(** [try: c  except Exception as e: handler(e)] *)
Definition catch {A} (c : M A) (handler : exc -> M A) : M A :=
  fun s =>
    match c s with
    | (Ok a, s') => (Ok a, s')
    | (Raise e, s') => handler e s'
    end.

End WithWorld.

Arguments ret {World A} a.
Arguments raise {World A} e.
Arguments tell {World} ev.

End Eff.

Export Eff.

Declare Scope eff_scope.
Delimit Scope eff_scope with eff.
Notation "x <- c ;; k" := (bind c (fun x => k))
  (at level 61, c at next level, right associativity) : eff_scope.
Notation "c ;; k" := (bind c (fun _ => k))
  (at level 61, right associativity) : eff_scope.

(* ===================================================================== *)
(** * examples/react_agent.py and examples/research_agent.py:
      the text the two files share                                        *)
(* ===================================================================== *)

(** [Tool], [ToolKit.register], [ToolKit.describe], the inline
    [safe_calculator], [_parse_action] and [_extract_answer] read the same
    in both files and are embedded once. *)

Module examples.

Section Shared.

Variable World : Type.
Variable unicode_isalnum : char -> bool.
Variable h : Host.

(** ** [class Tool] *)

(** [func] is the tool's callable together with the conversion [str(...)]
    that [Tool.execute] applies to what it returns; it receives the
    keyword arguments of the call.  [parameters] maps a parameter name to
    its schema. *)
Record Tool := {
  name : str;
  description : str;
  func : list (str * str) -> World -> result str * World;
  parameters : list (str * list (str * str))
}.

Local Open Scope eff_scope.

(** [Tool.execute], called with keyword arguments only.  A keyword
    called [self] names the parameter that the call has given by
    position: Python raises [TypeError] before the method starts, so
    outside its [try] block. *)
Definition Tool_execute (self : Tool) (kwargs : list (str * str))
  : M World str :=
  match find (fun kv => str_eqb (fst kv) (u "self")) kwargs with
  | Some _ =>
    raise (Exc TypeError
             (u "Tool.execute() got multiple values for argument 'self'"))
  | None =>
    catch (perform (func self kwargs))
          (fun e => ret (u "Ошибка: " ++ exc_str e))
  end.

(** ** [class ToolKit] *)

Definition ToolKit := list (str * Tool).

Definition ToolKit_init : ToolKit := [].

Definition register (self : ToolKit) (tool : Tool) : ToolKit :=
  dict_set (name tool) tool self.

Definition describe (self : ToolKit) : str :=
  let lines :=
    map (fun t =>
           let params :=
             join (u ", ")
                  (map (fun k => [dquote] ++ k ++ [dquote])
                       (dict_keys (parameters t))) in
           u "• " ++ name t ++ u "(" ++ params ++ u "): "
             ++ description t)
        (dict_values self) in
  join [newline] lines.

(** ** The inline [safe_calculator] *)

Definition OPERATORS : list (opclass * host_fn) :=
  [ (inl Add, operator_add); (inl Sub, operator_sub);
    (inl Mult, operator_mul); (inl Div, operator_truediv);
    (inl Pow, operator_pow); (inr USub, operator_neg) ].

Definition FUNCTIONS : list (str * host_fn) :=
  [ (u "sqrt", math_sqrt); (u "abs", builtin_abs);
    (u "round", builtin_round) ].

Definition CONSTANTS : list (str * host_const) :=
  [ (u "pi", math_pi); (u "e", math_e) ].

(** [repr] of a node class, as [type(node)] prints and as the [KeyError]
    of a missing operator class carries. *)
Definition class_repr (n : str) : str := u "<class 'ast." ++ n ++ u "'>".

Local Open Scope result_scope.

(** In [OPERATORS[...](...)] and [FUNCTIONS[...](...)] the callable is
    looked up before the arguments are evaluated. *)
Fixpoint _eval (node : expr (value h)) : result (value h) :=
  match node with
  | Constant v => Ok v
  | Name id =>
    match dict_get id CONSTANTS with
    | Some c => Ok (const h c)
    | None => Ok (int_ h 0)
    end
  | BinOp l o r =>
    match opclass_get (inl o) OPERATORS with
    | None => Raise (Exc KeyError (class_repr (operator_name o)))
    | Some op =>
      left <- _eval l ;;
      right <- _eval r ;;
      call h op [left; right]
    end
  | UnaryOp o e =>
    match opclass_get (inr o) OPERATORS with
    | None => Raise (Exc KeyError (class_repr (unaryop_name o)))
    | Some op =>
      operand <- _eval e ;;
      call h op [operand]
    end
  | Call func args =>
    match func with
    | Name id =>
      match dict_get id FUNCTIONS with
      | None => Raise (Exc KeyError (u "'" ++ id ++ u "'"))
      | Some f =>
        args' <- map_result _eval args ;;
        call h f args'
      end
    | _ =>
      Raise (Exc AttributeError
               (u "'" ++ type_name_of func
                  ++ u "' object has no attribute 'id'"))
    end
  | Other tn => Raise (Exc ValueError (u "Unsupported: " ++ class_repr tn))
  end.

Definition safe_calculator (expression : str) : result (value h) :=
  tree <- ast_parse h expression ;;
  r <- _eval tree ;;
  float_ h r.

(** ** [_parse_action] and [_extract_answer] *)

Import Re.

Definition quotes : str := [dquote; squote].

Definition star (c : cls) : re := re_rep c 0 None true.
Definition plus (c : cls) : re := re_rep c 1 None true.
Definition lazy_plus (c : cls) : re := re_rep c 1 None false.
Definition one (c : cls) : re := re_rep c 1 (Some 1) true.
Definition opt (c : cls) : re := re_rep c 0 (Some 1) true.

(** The first pattern, for a quoted argument.  Its items in order:
    [ACTION:], [\s*], the group [(\w+)], [\s*], [\(], [\s*], one quote
    character (double or single), the group of any number of characters
    that are not quotes, an optional quote character, [\s*], [\)]. *)
Definition pattern_quoted : re :=
  re_cat [ re_lit (u "ACTION:"); star c_space;
           re_group (plus c_word); star c_space;
           re_lit (u "("); star c_space;
           one (c_in quotes); re_group (star (c_not_in quotes));
           opt (c_in quotes); star c_space; re_lit (u ")") ].

(** The second pattern, [r'ACTION:\s*(\w+)\s*\(\s*(.+?)\s*\)']. *)
Definition pattern_bare : re :=
  re_cat [ re_lit (u "ACTION:"); star c_space;
           re_group (plus c_word); star c_space;
           re_lit (u "("); star c_space;
           re_group (lazy_plus c_dot);
           star c_space; re_lit (u ")") ].

Definition patterns : list re := [pattern_quoted; pattern_bare].

(** [{"tool": ..., "arg": ...}] *)
Record Action := { tool : str; arg : str }.

Fixpoint first_match (ps : list re) (response : str) : option Action :=
  match ps with
  | [] => None
  | pattern :: rest =>
    match re_search unicode_isalnum pattern response with
    | Some m =>
      Some {| tool := group m 1;
              arg := strip_chars quotes (group m 2) |}
    | None => first_match rest response
    end
  end.

Definition _parse_action (response : str) : option Action :=
  first_match patterns response.

Definition ANSWER_MARK : str := u "ANSWER:".

Definition _extract_answer (response : str) : option str :=
  if contains ANSWER_MARK response
  then Some (strip (last (split ANSWER_MARK response) []))
  else None.

(** [if answer:] holds for a string that is present and not empty. *)
Definition truthy (answer : option str) : bool :=
  match answer with
  | Some (_ :: _) => true
  | _ => false
  end.

End Shared.

End examples.

(* ===================================================================== *)
(** * examples/react_agent.py                                             *)
(* ===================================================================== *)

Module react_agent.

Import examples.

Section Agent.

Variable World : Type.
Variable unicode_isalnum : char -> bool.

(** The request to the model of [_call_llm]: what the service answers to a
    transcript, or the exception of a failed request. *)
Variable llm : list message -> World -> result str * World.

Local Open Scope eff_scope.

#[local] Abbreviation Tool := (Tool World).
#[local] Abbreviation ToolKit := (ToolKit World).

(** [ToolKit.execute]; the call is recorded in the trace. *)
Definition execute (self : ToolKit) (name arg : str) : M World str :=
  tell (ev_dispatch name arg) ;;
  match dict_get name self with
  | None =>
    let available := join (u ", ") (dict_keys self) in
    ret (u "Инструмент '" ++ name ++ u "' не найден. Доступны: "
           ++ available)
  | Some tool =>
    match dict_keys (parameters tool) with
    | [] => raise (Exc IndexError (u "list index out of range"))
    | first_param :: _ => Tool_execute tool [(first_param, arg)]
    end
  end.

(** The text of [SYSTEM_PROMPT] before and after its [{tools}] field. *)
Definition SYSTEM_PROMPT_head : str :=
  join [newline]
    [ u "Ты — агент, решающий задачи через рассуждение и действия.";
      [];
      u "## Формат ответа";
      [];
      u "Следуй СТРОГО этому формату:";
      [];
      u "THOUGHT: (твои рассуждения о следующем шаге)";
      u "ACTION: tool_name(" ++ [dquote] ++ u "argument" ++ [dquote] ++ u ")";
      [];
      u "Жди OBSERVATION от системы, затем продолжай.";
      [];
      u "Когда готов дать финальный ответ:";
      u "THOUGHT: (финальные рассуждения)";
      u "ANSWER: (полный ответ на вопрос)";
      [];
      u "## Доступные инструменты";
      [];
      [] ].

Definition SYSTEM_PROMPT_tail : str :=
  join [newline]
    [ [];
      [];
      u "## Правила";
      [];
      u "1. ВСЕГДА начинай с THOUGHT";
      u "2. После THOUGHT пиши ACTION";
      u "3. НЕ выдумывай OBSERVATION";
      u "4. Используй инструменты для проверки фактов";
      u "5. Отвечай на русском";
      [];
      u "## Пример";
      [];
      u "User: Сколько будет 15% от 200?";
      [];
      u "THOUGHT: Нужно вычислить 15% от 200. Это 200 * 0.15.";
      u "ACTION: calculator(" ++ [dquote] ++ u "200 * 0.15" ++ [dquote]
        ++ u ")";
      [];
      u "OBSERVATION: 30.0";
      [];
      u "THOUGHT: Результат получен.";
      u "ANSWER: 15% от 200 равно 30.";
      [] ].

(** The fields of a [ReActAgent] that [run] reads. *)
Record ReActAgent := {
  toolkit : ToolKit;
  max_iterations : Z;
  system_prompt : str
}.

(** [__init__]: [api_key] is the value of the environment variable, when
    it is set and not empty. *)
Definition __init__ (api_key : option str) (toolkit : ToolKit)
    (max_iterations : Z) : result ReActAgent :=
  match api_key with
  | Some (_ :: _) =>
    Ok {| toolkit := toolkit;
          max_iterations := max_iterations;
          system_prompt :=
            SYSTEM_PROMPT_head ++ describe toolkit ++ SYSTEM_PROMPT_tail |}
  | _ => Raise (Exc ValueError (u "Не найден OPENROUTER_API_KEY"))
  end.

(** [_call_llm]; the call is recorded in the trace. *)
Definition _call_llm (messages : list message) : M World str :=
  tell (ev_model messages) ;;
  perform (llm messages).

(** An entry of [actions_log]. *)
Record ActionRecord := {
  ar_iteration : Z;
  ar_tool : str;
  ar_arg : str;
  ar_result : str
}.

(** The dictionary that [run] returns. *)
Record RunResult := {
  answer : str;
  iterations : Z;
  actions : list ActionRecord;
  success : bool
}.

(** The local variables of [run] that live across iterations. *)
Record LoopState := {
  messages : list message;
  actions_log : list ActionRecord
}.

(** How one pass through the body of the [for] loop ends: with [return]
    or at the end of the body. *)
Inductive Step :=
| Return (r : RunResult)
| Continue (st : LoopState).

Definition user (text : str) : message := Message (u "user") text.
Definition assistant (text : str) : message := Message (u "assistant") text.
Definition system (text : str) : message := Message (u "system") text.

Definition NUDGE : str :=
  u "Укажи ACTION с инструментом или ANSWER с финальным ответом.".

Definition FAILURE : str := u "Не удалось найти ответ".

(** The actions log agrees with a transcript when each record holds the
    first 500 characters of an observation that the transcript holds
    whole, the transcript having grown by the pairs of messages that the
    loop appends. *)
Inductive log_agrees : list message -> list ActionRecord -> Prop :=
| la_start (ms : list message) : log_agrees ms []
| la_dispatch (ms : list message) (log : list ActionRecord)
    (response obs : str) (rec : ActionRecord) :
    log_agrees ms log ->
    ar_result rec = slice_to 500 obs ->
    log_agrees
      (ms ++ [assistant response; user (u "OBSERVATION: " ++ obs)])
      (log ++ [rec])
| la_nudge (ms : list message) (log : list ActionRecord) (response : str) :
    log_agrees ms log ->
    log_agrees (ms ++ [assistant response; user NUDGE]) log.

(** The body of the loop after the [if answer:] block. *)
Definition act_or_nudge (self : ReActAgent) (iteration : Z)
    (response : str) (st : LoopState) : M World Step :=
  match _parse_action unicode_isalnum response with
  | Some action =>
    let tool_name := tool action in
    let tool_arg := arg action in
    observation <- execute (toolkit self) tool_name tool_arg ;;
    ret (Continue
           {| messages :=
                messages st
                  ++ [ assistant response;
                       user (u "OBSERVATION: " ++ observation) ];
              actions_log :=
                actions_log st
                  ++ [ {| ar_iteration := iteration;
                          ar_tool := tool_name;
                          ar_arg := tool_arg;
                          ar_result := slice_to 500 observation |} ] |})
  | None =>
    ret (Continue
           {| messages := messages st ++ [assistant response; user NUDGE];
              actions_log := actions_log st |})
  end.

(** The body of the loop once the model has answered. *)
Definition classify (self : ReActAgent) (iteration : Z) (response : str)
    (st : LoopState) : M World Step :=
  let answer := _extract_answer response in
  if truthy answer then
    ret (Return {| answer := match answer with Some a => a | None => [] end;
                   iterations := iteration;
                   actions := actions_log st;
                   success := true |})
  else act_or_nudge self iteration response st.

(** The body of the [for] loop. *)
Definition iteration_body (self : ReActAgent) (iteration : Z)
    (st : LoopState) : M World Step :=
  response <- _call_llm (messages st) ;;
  classify self iteration response st.

(** [for iteration in ...: body] *)
Fixpoint for_loop (self : ReActAgent) (its : list Z) (st : LoopState)
  : M World Step :=
  match its with
  | [] => ret (Continue st)
  | iteration :: rest =>
    r <- iteration_body self iteration st ;;
    match r with
    | Return res => ret (Return res)
    | Continue st' => for_loop self rest st'
    end
  end.

Definition initial_state (self : ReActAgent) (task : str) : LoopState :=
  {| messages := [system (system_prompt self); user task];
     actions_log := [] |}.

Definition run (self : ReActAgent) (task : str) : M World RunResult :=
  r <- for_loop self (range 1 (max_iterations self + 1))
                (initial_state self task) ;;
  match r with
  | Return res => ret res
  | Continue st =>
    ret {| answer := FAILURE;
           iterations := max_iterations self;
           actions := actions_log st;
           success := false |}
  end.

End Agent.

End react_agent.

(* ===================================================================== *)
(** * examples/research_agent.py                                          *)
(* ===================================================================== *)

Module research_agent.

Import examples.

Section Agent.

Variable World : Type.
Variable unicode_isalnum : char -> bool.
Variable llm : list message -> World -> result str * World.

Local Open Scope eff_scope.

#[local] Abbreviation Tool := (Tool World).
#[local] Abbreviation ToolKit := (ToolKit World).

(** [ToolKit.execute]; the call is recorded in the trace. *)
Definition execute (self : ToolKit) (name arg : str) : M World str :=
  tell (ev_dispatch name arg) ;;
  match dict_get name self with
  | None => ret (u "Инструмент '" ++ name ++ u "' не найден")
  | Some tool =>
    match dict_keys (parameters tool) with
    | [] => raise (Exc IndexError (u "list index out of range"))
    | first_param :: _ => Tool_execute tool [(first_param, arg)]
    end
  end.

Definition SYSTEM_PROMPT_head : str :=
  join [newline]
    [ u "Ты — Research Agent, специализирующийся на исследованиях.";
      [];
      u "## Твоя задача";
      [];
      u "Проводить исследования: собирать информацию из разных источников,";
      u "анализировать и формировать структурированный ответ.";
      [];
      u "## Формат работы";
      [];
      u "THOUGHT: (что нужно исследовать дальше)";
      u "ACTION: tool_name(" ++ [dquote] ++ u "query" ++ [dquote] ++ u ")";
      [];
      u "Повторяй, пока не соберёшь достаточно информации.";
      [];
      u "THOUGHT: (анализ собранных данных)";
      u "ANSWER:";
      u "## Результаты исследования";
      [];
      u "### Краткий ответ";
      u "(1-2 предложения)";
      [];
      u "### Детали";
      u "(подробная информация по пунктам)";
      [];
      u "### Источники";
      u "(какие запросы были использованы)";
      [];
      u "## Доступные инструменты";
      [];
      [] ].

Definition SYSTEM_PROMPT_tail : str :=
  join [newline]
    [ [];
      [];
      u "## Правила исследования";
      [];
      u "1. Собирай информацию из нескольких источников";
      u "2. Проверяй факты перед включением в ответ";
      u "3. Если информация противоречива — укажи это";
      u "4. Структурируй ответ";
      u "5. Указывай источники";
      [] ].

(** [self.research_log] *)
Record ResearchLog := {
  queries : list str;
  findings : list str;
  sources : list str
}.

Definition empty_log : ResearchLog :=
  {| queries := []; findings := []; sources := [] |}.

Record ResearchAgent := {
  toolkit : ToolKit;
  max_iterations : Z;
  system_prompt : str
}.

Definition __init__ (api_key : option str) (toolkit : ToolKit)
    (max_iterations : Z) : result ResearchAgent :=
  match api_key with
  | Some (_ :: _) =>
    Ok {| toolkit := toolkit;
          max_iterations := max_iterations;
          system_prompt :=
            SYSTEM_PROMPT_head ++ describe toolkit ++ SYSTEM_PROMPT_tail |}
  | _ => Raise (Exc ValueError (u "Не найден OPENROUTER_API_KEY"))
  end.

Definition _call_llm (messages : list message) : M World str :=
  tell (ev_model messages) ;;
  perform (llm messages).

Record ActionRecord := {
  ar_iteration : Z;
  ar_tool : str;
  ar_query : str;
  ar_result : str
}.

Record RunResult := {
  topic : str;
  answer : str;
  iterations : Z;
  actions : list ActionRecord;
  research_log : ResearchLog;
  success : bool
}.

(** The local variables of [research] that live across iterations, and
    the log kept on the agent. *)
Record LoopState := {
  messages : list message;
  actions_log : list ActionRecord;
  self_research_log : ResearchLog
}.

Inductive Step :=
| Return (r : RunResult)
| Continue (st : LoopState).

Definition user (text : str) : message := Message (u "user") text.
Definition assistant (text : str) : message := Message (u "assistant") text.
Definition system (text : str) : message := Message (u "system") text.

Definition NUDGE : str := u "Продолжай исследование (ACTION) или дай ANSWER.".

Definition FAILURE : str := u "Исследование не завершено".

Definition act_or_nudge (self : ResearchAgent) (iteration : Z)
    (response : str) (st : LoopState) : M World Step :=
  match _parse_action unicode_isalnum response with
  | Some action =>
    let tool_name := tool action in
    let tool_arg := arg action in
    observation <- execute (toolkit self) tool_name tool_arg ;;
    let log := self_research_log st in
    ret (Continue
           {| messages :=
                messages st
                  ++ [ assistant response;
                       user (u "OBSERVATION: " ++ observation) ];
              actions_log :=
                actions_log st
                  ++ [ {| ar_iteration := iteration;
                          ar_tool := tool_name;
                          ar_query := tool_arg;
                          ar_result := slice_to 500 observation |} ];
              self_research_log :=
                {| queries := queries log ++ [tool_arg];
                   findings := findings log ++ [slice_to 500 observation];
                   sources :=
                     sources log
                       ++ [tool_name ++ u "(" ++ tool_arg ++ u ")"] |} |})
  | None =>
    ret (Continue
           {| messages := messages st ++ [assistant response; user NUDGE];
              actions_log := actions_log st;
              self_research_log := self_research_log st |})
  end.

Definition classify (self : ResearchAgent) (topic : str) (iteration : Z)
    (response : str) (st : LoopState) : M World Step :=
  let answer := _extract_answer response in
  if truthy answer then
    ret (Return {| topic := topic;
                   answer := match answer with Some a => a | None => [] end;
                   iterations := iteration;
                   actions := actions_log st;
                   research_log := self_research_log st;
                   success := true |})
  else act_or_nudge self iteration response st.

Definition iteration_body (self : ResearchAgent) (topic : str)
    (iteration : Z) (st : LoopState) : M World Step :=
  response <- _call_llm (messages st) ;;
  classify self topic iteration response st.

Fixpoint for_loop (self : ResearchAgent) (topic : str) (its : list Z)
    (st : LoopState) : M World Step :=
  match its with
  | [] => ret (Continue st)
  | iteration :: rest =>
    r <- iteration_body self topic iteration st ;;
    match r with
    | Return res => ret (Return res)
    | Continue st' => for_loop self topic rest st'
    end
  end.

Definition initial_state (self : ResearchAgent) (topic : str)
  : LoopState :=
  {| messages := [ system (system_prompt self);
                   user (u "Проведи исследование: " ++ topic) ];
     actions_log := [];
     self_research_log := empty_log |}.

Definition research (self : ResearchAgent) (topic : str)
  : M World RunResult :=
  r <- for_loop self topic (range 1 (max_iterations self + 1))
                (initial_state self topic) ;;
  match r with
  | Return res => ret res
  | Continue st =>
    ret {| topic := topic;
           answer := FAILURE;
           iterations := max_iterations self;
           actions := actions_log st;
           research_log := self_research_log st;
           success := false |}
  end.

(** [compare] *)
Definition compare (self : ResearchAgent) (items : list str)
    (criteria : str) : M World RunResult :=
  let topic := u "Сравни: " ++ join (u ", ") items in
  let topic :=
    match criteria with
    | [] => topic
    | _ :: _ => topic ++ u ". Критерии: " ++ criteria
    end in
  research self topic.

End Agent.

End research_agent.

(* ===================================================================== *)
(** * A host to run the evaluators on: CPython 3.11 on [int] and [float]  *)
(* ===================================================================== *)

(** The objects are Python integers and binary64 floats.  The operators
    and the functions that have an exact description are given here, with
    the host's exceptions and their texts; the rest of the host (the
    transcendental functions, [float] powers and remainders, the shortest
    decimal form of a [float], and the parser) is a parameter [Extern]. *)

Module CPython.

Inductive pyval :=
| PyInt (z : Z)
| PyFloat (f : spec_float).

Record Extern := {
  ext_call : host_fn -> list pyval -> result pyval;
  ext_str : spec_float -> str;
  ext_parse : str -> result (expr pyval)
}.

Local Open Scope Z_scope.
Local Open Scope result_scope.

Definition prec : Z := 53.
Definition emax : Z := 1024.

(** [float(z)] for an integer: rounded to nearest, ties to even. *)
Definition float_of_int (z : Z) : result spec_float :=
  match binary_normalize prec emax z 0 false with
  | S754_infinity _ =>
    Raise (Exc OverflowError (u "int too large to convert to float"))
  | f => Ok f
  end.

Definition as_float (v : pyval) : result spec_float :=
  match v with
  | PyInt z => float_of_int z
  | PyFloat f => Ok f
  end.

(** The quotient [a / b] of two integers, [b <> 0], rounded once. *)
Definition div_round (a b : Z) : spec_float :=
  let neg := xorb (a <? 0) (b <? 0) in
  let n := Z.abs a in
  let d := Z.abs b in
  if n =? 0 then S754_zero neg
  else
    let k := Z.max 0 (Z.log2 d + 60 - Z.log2 n) in
    let q := (n * 2 ^ k) / d in
    let sticky := if (n * 2 ^ k) mod d =? 0 then 0 else 1 in
    let m := 2 * q + sticky in
    binary_normalize prec emax (if neg then - m else m) (- k - 1) false.

Definition is_zero (f : spec_float) : bool :=
  match f with S754_zero _ => true | _ => false end.

(** An arithmetic operator on two operands: on integers [fi], otherwise
    on floats [ff]. *)
Definition arith (fi : Z -> Z -> Z)
    (ff : spec_float -> spec_float -> spec_float) (a b : pyval)
  : result pyval :=
  match a, b with
  | PyInt x, PyInt y => Ok (PyInt (fi x y))
  | _, _ =>
    x <- as_float a ;;
    y <- as_float b ;;
    Ok (PyFloat (ff x y))
  end.

Definition truediv (a b : pyval) : result pyval :=
  match a, b with
  | PyInt x, PyInt y =>
    if y =? 0 then Raise (Exc ZeroDivisionError (u "division by zero"))
    else
      match div_round x y with
      | S754_infinity _ =>
        Raise (Exc OverflowError
                 (u "integer division result too large for a float"))
      | f => Ok (PyFloat f)
      end
  | _, _ =>
    x <- as_float a ;;
    y <- as_float b ;;
    if is_zero y
    then Raise (Exc ZeroDivisionError (u "float division by zero"))
    else Ok (PyFloat (SFdiv prec emax x y))
  end.

(** The integer below a finite float, and whether the float is above it
    by less than, exactly, or more than one half. *)
Definition floor_and_half (s : bool) (m : positive) (e : Z)
  : Z * comparison :=
  let sm := if s then Z.neg m else Z.pos m in
  if 0 <=? e then (sm * 2 ^ e, Lt)
  else
    let d := 2 ^ (- e) in
    (sm / d, if sm mod d =? 0 then Lt else (2 * (sm mod d) ?= d)).

Definition to_integer (what : spec_float -> result Z) (v : pyval)
  : result pyval :=
  match v with
  | PyInt z => Ok (PyInt z)
  | PyFloat f => z <- what f ;; Ok (PyInt z)
  end.

Definition not_finite (f : spec_float) : result Z :=
  match f with
  | S754_nan =>
    Raise (Exc ValueError (u "cannot convert float NaN to integer"))
  | _ =>
    Raise (Exc OverflowError (u "cannot convert float infinity to integer"))
  end.

Definition floor_float (f : spec_float) : result Z :=
  match f with
  | S754_zero _ => Ok 0
  | S754_finite s m e => Ok (fst (floor_and_half s m e))
  | _ => not_finite f
  end.

Definition ceil_float (f : spec_float) : result Z :=
  match f with
  | S754_zero _ => Ok 0
  | S754_finite s m e => Ok (- fst (floor_and_half (negb s) m e))
  | _ => not_finite f
  end.

(** [round(x)]: to the nearest integer, a tie to the even one. *)
Definition round_float (f : spec_float) : result Z :=
  match f with
  | S754_zero _ => Ok 0
  | S754_finite s m e =>
    let (n, half) := floor_and_half s m e in
    Ok (match half with
        | Lt => n
        | Gt => n + 1
        | Eq => if Z.even n then n else n + 1
        end)
  | _ => not_finite f
  end.

Fixpoint fact (n : nat) : Z :=
  match n with
  | O => 1
  | S k => Z.of_nat n * fact k
  end.

Fixpoint all_ints (vs : list pyval) : option (list Z) :=
  match vs with
  | [] => Some []
  | PyInt z :: t =>
    match all_ints t with Some zs => Some (z :: zs) | None => None end
  | PyFloat _ :: _ => None
  end.

Definition not_an_integer : exc :=
  Exc TypeError (u "'float' object cannot be interpreted as an integer").

Section WithExtern.

Variable ext : Extern.

Definition py_call (f : host_fn) (args : list pyval) : result pyval :=
  match f, args with
  | operator_add, [a; b] => arith Z.add (SFadd prec emax) a b
  | operator_sub, [a; b] => arith Z.sub (SFsub prec emax) a b
  | operator_mul, [a; b] => arith Z.mul (SFmul prec emax) a b
  | operator_truediv, [a; b] => truediv a b
  | operator_floordiv, [PyInt x; PyInt y] =>
    if y =? 0
    then Raise (Exc ZeroDivisionError
                  (u "integer division or modulo by zero"))
    else Ok (PyInt (x / y))
  | operator_mod, [PyInt x; PyInt y] =>
    if y =? 0
    then Raise (Exc ZeroDivisionError (u "integer modulo by zero"))
    else Ok (PyInt (x mod y))
  | operator_pow, [PyInt x; PyInt y] =>
    if 0 <=? y then Ok (PyInt (x ^ y)) else ext_call ext f args
  | operator_neg, [PyInt x] => Ok (PyInt (- x))
  | operator_neg, [PyFloat x] => Ok (PyFloat (SFopp x))
  | operator_pos, [v] => Ok v
  | builtin_abs, [PyInt x] => Ok (PyInt (Z.abs x))
  | builtin_abs, [PyFloat x] => Ok (PyFloat (SFabs x))
  | builtin_round, [v] => to_integer round_float v
  | math_floor, [v] => to_integer floor_float v
  | math_ceil, [v] => to_integer ceil_float v
  | math_sqrt, [v] =>
    x <- as_float v ;;
    match x with
    | S754_finite true _ _ | S754_infinity true =>
      Raise (Exc ValueError (u "math domain error"))
    | _ => Ok (PyFloat (SFsqrt prec emax x))
    end
  | math_factorial, [PyInt x] =>
    if x <? 0
    then Raise (Exc ValueError
                  (u "factorial() not defined for negative values"))
    else if 2 ^ 63 <=? x
    then Raise (Exc OverflowError
                  (u "factorial() argument should not exceed 9223372036854775807"))
    else Ok (PyInt (fact (Z.to_nat x)))
  | math_factorial, [PyFloat _] => Raise not_an_integer
  | math_gcd, _ =>
    match all_ints args with
    | Some zs => Ok (PyInt (fold_right Z.gcd 0 zs))
    | None => Raise not_an_integer
    end
  | _, _ => ext_call ext f args
  end.

(** Binary64 values of [math.pi], [math.e], [math.tau], [math.inf]. *)
Definition py_const (c : host_const) : pyval :=
  match c with
  | math_pi => PyFloat (S754_finite false 7074237752028440 (-51))
  | math_e => PyFloat (S754_finite false 6121026514868073 (-51))
  | math_tau => PyFloat (S754_finite false 7074237752028440 (-50))
  | math_inf => PyFloat (S754_infinity false)
  end.

Definition py_float (v : pyval) : result pyval :=
  f <- as_float v ;; Ok (PyFloat f).

(** Decimal digits of a natural number. *)
Fixpoint digits_fuel (fuel : nat) (n : N) (acc : str) : str :=
  match fuel with
  | O => acc
  | S k =>
    let acc' := (48 + n mod 10)%N :: acc in
    if (n <? 10)%N then acc' else digits_fuel k (n / 10)%N acc'
  end.

Definition digits (n : N) : str :=
  digits_fuel (S (N.to_nat (N.log2 n))) n [].

Definition str_of_int (z : Z) : str :=
  if z <? 0 then u "-" ++ digits (Z.to_N (- z)) else digits (Z.to_N z).

(** [str(x)].  An integral float below [1e16] in size prints as its
    integer followed by [.0]. *)
Definition py_str (v : pyval) : str :=
  match v with
  | PyInt z => str_of_int z
  | PyFloat f =>
    match f with
    | S754_zero s => if s then u "-0.0" else u "0.0"
    | S754_infinity s => if s then u "-inf" else u "inf"
    | S754_nan => u "nan"
    | S754_finite s m e =>
      let sm := if s then Z.neg m else Z.pos m in
      let integral :=
        if 0 <=? e then Some (sm * 2 ^ e)
        else if sm mod 2 ^ (- e) =? 0 then Some (sm / 2 ^ (- e))
        else None in
      match integral with
      | Some z =>
        if Z.abs z <? 10 ^ 16 then str_of_int z ++ u ".0" else ext_str ext f
      | None => ext_str ext f
      end
    end
  end.

Definition host : Host :=
  {| value := pyval;
     call := py_call;
     const := py_const;
     int_ := PyInt;
     float_ := py_float;
     str_ := py_str;
     ast_parse := ext_parse ext |}.

End WithExtern.

End CPython.

(* ===================================================================== *)
(** * A parser for the arithmetic sublanguage                             *)
(* ===================================================================== *)

(** Decimal numbers, ASCII names, the operators [+ - * / // % **], calls
    and parentheses.  On a text of this sublanguage it yields the tree of
    the host parser; any other text is refused here as a syntax error,
    also where the host parser would accept more of Python. *)

Module ArithParser.

Import CPython.

Inductive token :=
| T_num (v : pyval)
| T_name (s : str)
| T_plus | T_minus | T_star | T_slash | T_dslash | T_percent | T_dstar
| T_lpar | T_rpar | T_comma.

(** What the lexer is in the middle of. *)
Inductive lstate :=
| L_start
| L_int (ds : str)              (* digits read, last first *)
| L_frac (ds fs : str)          (* digits before and after the point *)
| L_name (cs : str)
| L_star
| L_slash
| L_done (t : token).

Definition isdigit (c : char) : bool := ((48 <=? c) && (c <=? 57))%N.

Definition isalpha_ (c : char) : bool :=
  ((65 <=? c) && (c <=? 90) || (97 <=? c) && (c <=? 122) || (c =? 95))%N.

Definition number_of (ds : str) : Z :=
  fold_right (fun d acc => (Z.of_N d - 48 + 10 * acc)%Z) 0%Z ds.

Definition keywords : list str :=
  map u [ "False"; "None"; "True"; "and"; "as"; "assert"; "async";
          "await"; "break"; "class"; "continue"; "def"; "del"; "elif";
          "else"; "except"; "finally"; "for"; "from"; "global"; "if";
          "import"; "in"; "is"; "lambda"; "nonlocal"; "not"; "or"; "pass";
          "raise"; "return"; "try"; "while"; "with"; "yield" ]%string.

Inductive extend := Extend (st : lstate) | Stop | Bad.

(** Whether [c] goes on with the token being read. *)
Definition continue (st : lstate) (c : char) : extend :=
  match st with
  | L_start => Stop
  | L_int ds =>
    if isdigit c then Extend (L_int (c :: ds))
    else if (c =? 46)%N then Extend (L_frac ds [])
    else if isalpha_ c then Bad else Stop
  | L_frac ds fs =>
    if isdigit c then Extend (L_frac ds (c :: fs))
    else if isalpha_ c || (c =? 46)%N then Bad else Stop
  | L_name cs =>
    if isalpha_ c || isdigit c then Extend (L_name (c :: cs)) else Stop
  | L_star => if (c =? 42)%N then Extend (L_done T_dstar) else Stop
  | L_slash => if (c =? 47)%N then Extend (L_done T_dslash) else Stop
  | L_done _ => Stop
  end.

(** The tokens of a finished state. *)
Definition finish (st : lstate) : option (list token) :=
  match st with
  | L_start => Some []
  | L_int ds =>
    let z := number_of ds in
    match rev ds with
    | 48%N :: _ :: _ => if (z =? 0)%Z then Some [T_num (PyInt z)] else None
    | _ => Some [T_num (PyInt z)]
    end
  | L_frac ds fs =>
    match ds, fs with
    | [], [] => None
    | _, _ =>
      let scale := (10 ^ Z.of_nat (List.length fs))%Z in
      Some [T_num (PyFloat (div_round (number_of (fs ++ ds)) scale))]
    end
  | L_name cs =>
    let s := rev cs in
    if existsb (str_eqb s) keywords then None else Some [T_name s]
  | L_star => Some [T_star]
  | L_slash => Some [T_slash]
  | L_done t => Some [t]
  end.

(** A character that starts a token, or blank space between tokens. *)
Definition begin (c : char) : option lstate :=
  if isdigit c then Some (L_int [c])
  else if isalpha_ c then Some (L_name [c])
  else if (c =? 46)%N then Some (L_frac [] [])
  else if (c =? 32)%N || (c =? 9)%N then Some L_start
  else if (c =? 43)%N then Some (L_done T_plus)
  else if (c =? 45)%N then Some (L_done T_minus)
  else if (c =? 42)%N then Some L_star
  else if (c =? 47)%N then Some L_slash
  else if (c =? 37)%N then Some (L_done T_percent)
  else if (c =? 40)%N then Some (L_done T_lpar)
  else if (c =? 41)%N then Some (L_done T_rpar)
  else if (c =? 44)%N then Some (L_done T_comma)
  else None.

Fixpoint lex (st : lstate) (s : str) : option (list token) :=
  match s with
  | [] => finish st
  | c :: t =>
    match continue st c with
    | Extend st' => lex st' t
    | Bad => None
    | Stop =>
      match finish st, begin c with
      | Some ts, Some st' =>
        match lex st' t with
        | Some rest => Some (ts ++ rest)
        | None => None
        end
      | _, _ => None
      end
    end
  end.

(** What the parser is to read next. *)
Inductive goal :=
| G_sum
| G_sum_rest (l : expr pyval)
| G_term
| G_term_rest (l : expr pyval)
| G_factor
| G_power
| G_calls (f : expr pyval)
| G_args (f : expr pyval) (acc : list (expr pyval))
| G_atom.

Definition and_then {A B} (r : option A) (k : A -> option B) : option B :=
  match r with Some a => k a | None => None end.

Fixpoint parse (fuel : nat) (g : goal) (ts : list token)
  : option (expr pyval * list token) :=
  match fuel with
  | O => None
  | S n =>
    let binary l op g_operand g_rest ts1 :=
      and_then (parse n g_operand ts1)
        (fun '(r, ts2) => parse n (g_rest (BinOp l op r)) ts2) in
    match g with
    | G_sum =>
      and_then (parse n G_term ts)
        (fun '(l, ts1) => parse n (G_sum_rest l) ts1)
    | G_sum_rest l =>
      match ts with
      | T_plus :: ts1 => binary l Add G_term G_sum_rest ts1
      | T_minus :: ts1 => binary l Sub G_term G_sum_rest ts1
      | _ => Some (l, ts)
      end
    | G_term =>
      and_then (parse n G_factor ts)
        (fun '(l, ts1) => parse n (G_term_rest l) ts1)
    | G_term_rest l =>
      match ts with
      | T_star :: ts1 => binary l Mult G_factor G_term_rest ts1
      | T_slash :: ts1 => binary l Div G_factor G_term_rest ts1
      | T_dslash :: ts1 => binary l FloorDiv G_factor G_term_rest ts1
      | T_percent :: ts1 => binary l Mod G_factor G_term_rest ts1
      | _ => Some (l, ts)
      end
    | G_factor =>
      match ts with
      | T_plus :: ts1 =>
        and_then (parse n G_factor ts1)
          (fun '(e, ts2) => Some (UnaryOp UAdd e, ts2))
      | T_minus :: ts1 =>
        and_then (parse n G_factor ts1)
          (fun '(e, ts2) => Some (UnaryOp USub e, ts2))
      | _ => parse n G_power ts
      end
    | G_power =>
      and_then (parse n G_atom ts)
        (fun '(a, ts1) =>
           and_then (parse n (G_calls a) ts1)
             (fun '(b, ts2) =>
                match ts2 with
                | T_dstar :: ts3 =>
                  and_then (parse n G_factor ts3)
                    (fun '(e, ts4) => Some (BinOp b Pow e, ts4))
                | _ => Some (b, ts2)
                end))
    | G_calls f =>
      match ts with
      | T_lpar :: ts1 =>
        and_then (parse n (G_args f []) ts1)
          (fun '(c, ts2) => parse n (G_calls c) ts2)
      | _ => Some (f, ts)
      end
    | G_args f acc =>
      match ts with
      | T_rpar :: ts1 => Some (Call f (rev acc), ts1)
      | _ =>
        and_then (parse n G_sum ts)
          (fun '(a, ts1) =>
             match ts1 with
             | T_comma :: ts2 => parse n (G_args f (a :: acc)) ts2
             | T_rpar :: ts2 => Some (Call f (rev (a :: acc)), ts2)
             | _ => None
             end)
      end
    | G_atom =>
      match ts with
      | T_num v :: ts1 => Some (Constant v, ts1)
      | T_name s :: ts1 => Some (Name s, ts1)
      | T_lpar :: ts1 =>
        and_then (parse n G_sum ts1)
          (fun '(e, ts2) =>
             match ts2 with
             | T_rpar :: ts3 => Some (e, ts3)
             | _ => None
             end)
      | _ => None
      end
    end
  end.

Definition syntax_error : exc :=
  Exc SyntaxError (u "invalid syntax (<unknown>, line 1)").

Definition arith_parse (s : str) : result (expr pyval) :=
  match s with
  | 32%N :: _ | 9%N :: _ => Raise syntax_error
  | _ =>
    match lex L_start s with
    | None => Raise syntax_error
    | Some ts =>
      match parse (10 * S (List.length ts)) G_sum ts with
      | Some (e, []) => Ok e
      | _ => Raise syntax_error
      end
    end
  end.

(** The rest of the host where it is not needed: a call that is not
    described in [CPython] reports that it is not available here. *)
Definition arith_only : Extern :=
  {| ext_call := fun _ _ =>
       Raise (Exc (Exception_ (u "NotImplementedError"))
                  (u "outside the arithmetic host"));
     ext_str := fun _ => u "<float>";
     ext_parse := arith_parse |}.

Definition py : Host := CPython.host arith_only.

End ArithParser.

(* ===================================================================== *)
(** * Concrete registries, models and inputs                              *)
(* ===================================================================== *)

Module Demo.

Import examples CPython ArithParser.

(** A world with nothing in it: the tools below are pure and the model is
    a script. *)
Definition World : Type := unit.

(** ASCII text only: no character beyond ASCII counts as a word
    character. *)
Definition ascii_only : char -> bool := fun _ => false.

(** A Python function [def fname(param)] called with keyword arguments. *)
Definition def1 (fname param : str) (body : str -> result str)
  : list (str * str) -> World -> result str * World :=
  fun kwargs w =>
    match filter (fun kv => negb (str_eqb (fst kv) param)) kwargs with
    | (k, _) :: _ =>
      (Raise (Exc TypeError
                (fname ++ u "() got an unexpected keyword argument '"
                   ++ k ++ u "'")), w)
    | [] =>
      match dict_get param kwargs with
      | Some v => (body v, w)
      | None =>
        (Raise (Exc TypeError
                  (fname ++ u "() missing 1 required positional argument: '"
                     ++ param ++ u "'")), w)
      end
    end.

(** The calculator tool as [main] of react_agent.py registers it. *)
Definition calculator_tool : Tool World :=
  {| name := u "calculator";
     description := u "Вычисляет математические выражения";
     func :=
       def1 (u "safe_calculator") (u "expression")
            (fun e =>
               bind_result (safe_calculator py e)
                           (fun v => Ok (str_ py v)));
     parameters := [(u "expression", [(u "type", u "string")])] |}.

(** A tool built from a name, a description and a callable only: the
    [parameters] field is left at its default, the empty dictionary. *)
Definition ping_tool : Tool World :=
  {| name := u "ping";
     description := u "Проверка связи";
     func := fun _ w => (Ok (u "pong"), w);
     parameters := [] |}.

Definition calc_kit : ToolKit World :=
  register (ToolKit_init World) calculator_tool.

Definition ping_kit : ToolKit World :=
  register calc_kit ping_tool.

(** A model that answers from a script: the reply to the [k]-th request of
    a run, told by the length of the transcript, and [default] after the
    script's end. *)
Definition scripted (replies : list str) (default : str)
  : list message -> World -> result str * World :=
  fun messages w =>
    (Ok (nth ((List.length messages - 2) / 2) replies default), w).

Definition start : store World := Store tt [].

Definition q (s : str) : str := [dquote] ++ s ++ [dquote].

(** Model replies used below. *)
Definition reply_thinking : str := u "THOUGHT: надо подумать".

Definition reply_calc : str :=
  u "THOUGHT: считаю" ++ [newline]
    ++ u "ACTION: calculator(" ++ q (u "23*17+156") ++ u ")".

Definition reply_answer : str :=
  u "THOUGHT: готово" ++ [newline] ++ u "ANSWER: 547".

Definition reply_action_then_empty_answer : str :=
  u "ACTION: calculator(" ++ q (u "2+2") ++ u ")" ++ [newline]
    ++ u "ANSWER:".

Definition reply_answer_and_action : str :=
  u "ACTION: calculator(" ++ q (u "2+2") ++ u ")" ++ [newline]
    ++ u "ANSWER: 4".

Definition reply_ping : str := u "ACTION: ping(x)".

Definition react (kit : ToolKit World) (n : Z)
  : react_agent.ReActAgent World :=
  {| react_agent.toolkit := kit;
     react_agent.max_iterations := n;
     react_agent.system_prompt :=
       react_agent.SYSTEM_PROMPT_head ++ describe kit
         ++ react_agent.SYSTEM_PROMPT_tail |}.

End Demo.

(* ===================================================================== *)
(** * What is read off a trace, and the renderings the specification
      words                                                               *)
(* ===================================================================== *)

Module Observe.

(** The number of requests to the model in a trace: one per iteration of
    a control loop. *)
Fixpoint model_calls (tr : list event) : nat :=
  match tr with
  | [] => 0
  | ev_model _ :: t => S (model_calls t)
  | ev_dispatch _ _ :: t => model_calls t
  end.

(** The dispatches of a trace, in order. *)
Fixpoint dispatches (tr : list event) : list (str * str) :=
  match tr with
  | [] => []
  | ev_model _ :: t => dispatches t
  | ev_dispatch n a :: t => (n, a) :: dispatches t
  end.

(** The characters of [ANSWER:]. *)
Definition MARK : str := [65; 78; 83; 87; 69; 82; 58]%N.

(** The action that [_parse_action] builds from a match. *)
Definition built (m : list str) : examples.Action :=
  {| examples.tool := Re.group m 1;
     examples.arg := strip_chars examples.quotes (Re.group m 2) |}.

(** A text without a quote character, double or single. *)
Definition quote_free (s : str) : bool :=
  forallb (fun c => negb (mem_char c examples.quotes)) s.

(** A character that an argument of the bare form is read through: not a
    closing parenthesis and not a line break. *)
Definition plain (c : char) : bool :=
  negb (c =? rparen)%N && negb (c =? newline)%N.

Section Renderings.

Variable World : Type.

(** The store once the registry has been asked for [name] with [arg],
    the world being left as [w]. *)
Definition dispatched (s : store World) (name arg : str) (w : World)
  : store World :=
  Store w (trace s ++ [ev_dispatch name arg]).

(** The store once the model has been sent [sent], the world being left
    as [w]. *)
Definition asked (sent : list message) (s : store World) (w : World)
  : store World :=
  Store w (trace s ++ [ev_model sent]).

Definition quoted_params (t : examples.Tool World) : str :=
  join (u ", ")
       (map (fun k => [dquote] ++ k ++ [dquote])
            (dict_keys (examples.parameters t))).

(** A line of [describe] as the source's format string writes it. *)
Definition tool_line (t : examples.Tool World) : str :=
  u "• " ++ examples.name t ++ u "(" ++ quoted_params t ++ u "): "
    ++ examples.description t.

(** A line as the specification words it, [name(params): description]. *)
Definition tool_line_as_specified (t : examples.Tool World) : str :=
  examples.name t ++ u "(" ++ quoted_params t ++ u "): "
    ++ examples.description t.

Definition describe_as_specified (tk : examples.ToolKit World) : str :=
  join [newline] (map tool_line_as_specified (dict_values tk)).

(** The registry after registering [ts] from the left. *)
Definition registered (ts : list (examples.Tool World))
  : examples.ToolKit World :=
  fold_left (@examples.register World) ts (examples.ToolKit_init World).

End Renderings.

End Observe.

Export Observe.


(* ===================================================================== *)
(** * examples/simple_agent.py                                            *)
(* ===================================================================== *)

(** The agent of this file talks to the model through function calling:
    the tools go to the service as schemas and the reply names the tools
    to call.  The registry differs from the one of the other two examples:
    [ToolKit.execute] takes keyword arguments, [ToolKit.describe] leaves
    the parameters out, and [Tool] has [to_schema].  What the file prints
    is left out. *)

Module Json.

#[local] Unset Elimination Schemes.

(** The values that the host's [json] module reads and writes. *)
Inductive json :=
| JNull
| JBool (b : bool)
| JInt (z : Z)
| JFloat (f : spec_float)
| JStr (s : str)
| JList (items : list json)
| JDict (items : list (str * json)).

#[local] Set Elimination Schemes.

(** [type(v).__name__] *)
Definition type_name (v : json) : str :=
  match v with
  | JNull => u "NoneType"
  | JBool _ => u "bool"
  | JInt _ => u "int"
  | JFloat _ => u "float"
  | JStr _ => u "str"
  | JList _ => u "list"
  | JDict _ => u "dict"
  end.

End Json.

Export Json.

Module simple_agent.

Section Agent.

Variable World : Type.

(** ** [class Tool] *)

(** [func] receives the keyword arguments of the call, whose values are
    what [json.loads] gave, and is taken together with the conversion
    [str(...)] of what it returns. *)
Record Tool := {
  name : str;
  description : str;
  func : list (str * json) -> World -> result str * World;
  parameters : list (str * json)
}.

Definition to_schema (self : Tool) : json :=
  JDict
    [ (u "type", JStr (u "function"));
      (u "function",
       JDict
         [ (u "name", JStr (name self));
           (u "description", JStr (description self));
           (u "parameters",
            JDict
              [ (u "type", JStr (u "object"));
                (u "properties", JDict (parameters self));
                (u "required",
                 JList (map JStr (dict_keys (parameters self)))) ]) ]) ].

(** ** The reply of the service and the transcript *)

(** An element of [message["tool_calls"]]: [tool_call["id"]],
    [tool_call["function"]["name"]] and
    [tool_call["function"]["arguments"]]. *)
Record ToolCall := {
  tc_id : str;
  tc_name : str;
  tc_arguments : str
}.

(** [response["choices"][0]["message"]] in the format of the service:
    [content] is the value under that key when the key is there, and
    [tool_calls] is the list under that key, empty when the key is
    missing or its value is empty. *)
Record Reply := {
  content : option json;
  tool_calls : list ToolCall
}.

(** An element of [messages]. *)
Inductive Msg :=
| Plain (role text : str)          (* [{"role": ..., "content": ...}] *)
| FromModel (reply : Reply)        (* the message of a reply, as it came *)
| ToolResult (tool_call_id : str) (text : str).
                                   (* [{"role": "tool", ...}] *)

(** ** Effects *)

(** What a run does to the outside: a request to the service with the
    transcript and the schemas, and a call through the registry. *)
Inductive call :=
| api_call (messages : list Msg) (tools : list json)
| tool_call (tool_name : str) (kwargs : list (str * json)).

Record state := State { outside : World; calls : list call }.

Definition M (A : Type) : Type := state -> result A * state.

Definition ret {A} (a : A) : M A := fun s => (Ok a, s).

Definition raise {A} (e : exc) : M A := fun s => (Raise e, s).

Definition bind {A B} (c : M A) (f : A -> M B) : M B :=
  fun s =>
    match c s with
    | (Ok a, s') => f a s'
    | (Raise e, s') => (Raise e, s')
    end.

(** A computation of the host that does not touch the outside. *)
Definition lift {A} (r : result A) : M A := fun s => (r, s).

Definition record (c : call) : M unit :=
  fun s => (Ok tt, State (outside s) (calls s ++ [c])).

Definition perform {A} (f : World -> result A * World) : M A :=
  fun s => let (r, w) := f (outside s) in (r, State w (calls s)).

(** [try: c  except Exception as e: handler(e)] *)
Definition catch {A} (c : M A) (handler : exc -> M A) : M A :=
  fun s =>
    match c s with
    | (Ok a, s') => (Ok a, s')
    | (Raise e, s') => handler e s'
    end.

#[local] Notation "x <- c ;; k" := (bind c (fun x => k))
  (at level 61, c at next level, right associativity).
#[local] Notation "c ;; k" := (bind c (fun _ => k))
  (at level 61, right associativity).

(** A call [method(..., **kwargs)] fails before the method starts when
    a keyword names a parameter that the call has given by position:
    Python raises [TypeError] for the first such keyword.  [given] lists
    the parameters given by position. *)
Definition bind_keywords (method : str) (given : list str)
    (kwargs : list (str * json)) : result unit :=
  match find (fun kv => existsb (str_eqb (fst kv)) given) kwargs with
  | Some (k, _) =>
    Raise (Exc TypeError
             (method ++ u "() got multiple values for argument '" ++ k
                ++ u "'"))
  | None => Ok tt
  end.

(** [Tool.execute], called with keyword arguments only. *)
Definition Tool_execute (self : Tool) (kwargs : list (str * json))
  : M str :=
  lift (bind_keywords (u "Tool.execute") [u "self"] kwargs) ;;
  catch (perform (func self kwargs))
        (fun e => ret (u "Ошибка: " ++ exc_str e)).

(** ** [class ToolKit] *)

Definition ToolKit := list (str * Tool).

Definition ToolKit_init : ToolKit := [].

Definition register (self : ToolKit) (tool : Tool) : ToolKit :=
  dict_set (name tool) tool self.

Definition get_schemas (self : ToolKit) : list json :=
  map to_schema (dict_values self).

(** [ToolKit.execute(name, **kwargs)]; a call that starts is recorded. *)
Definition execute (self : ToolKit) (tool_name : str)
    (kwargs : list (str * json)) : M str :=
  lift (bind_keywords (u "ToolKit.execute") [u "self"; u "name"] kwargs) ;;
  record (tool_call tool_name kwargs) ;;
  match dict_get tool_name self with
  | None => ret (u "Инструмент '" ++ tool_name ++ u "' не найден")
  | Some tool => Tool_execute tool kwargs
  end.

Definition describe (self : ToolKit) : str :=
  join [newline]
       (map (fun t => u "• " ++ name t ++ u ": " ++ description t)
            (dict_values self)).

(** ** [class SimpleAgent] *)

(** The request of [_call_api] and the reading of the message of the
    first choice: what the service answers to a transcript and the
    schemas, or the exception of a failed request or of a reply without
    a first choice. *)
Variable api : list Msg -> list json -> World -> result Reply * World.

(** [json.loads] *)
Variable json_loads : str -> result json.

(** [repr] of a [str], the text of a [KeyError] for a missing key. *)
Variable repr : str -> str.

Record SimpleAgent := {
  toolkit : ToolKit;
  system_prompt : str
}.

Definition PROMPT_head : str :=
  join [newline]
    [ u "Ты — полезный ассистент с инструментами.";
      [];
      u "Доступные инструменты:";
      [] ].

Definition PROMPT_tail : str :=
  join [newline]
    [ [];
      [];
      u "Используй инструменты для точных вычислений и поиска информации.";
      u "Отвечай на русском языке.";
      [] ].

Definition __init__ (api_key : option str) (toolkit : ToolKit)
  : result SimpleAgent :=
  match api_key with
  | Some (_ :: _) =>
    Ok {| toolkit := toolkit;
          system_prompt := PROMPT_head ++ describe toolkit ++ PROMPT_tail |}
  | _ => Raise (Exc ValueError (u "Не найден OPENROUTER_API_KEY"))
  end.

(** [_call_api]; the request is recorded. *)
Definition _call_api (messages : list Msg) (tools : list json) : M Reply :=
  record (api_call messages tools) ;;
  perform (api messages tools).

Definition LIMIT : str := u "Превышено количество вызовов инструментов".

(** The first of [func_args.values()], or the empty text when
    [func_args] is empty. *)
Definition first_value (func_args : list (str * json)) : json :=
  match func_args with
  | [] => JStr []
  | (_, v) :: _ => v
  end.

(** The body of the loop over the tool calls of a reply: the message
    that it appends. *)
Definition answer_tool_call (self : SimpleAgent) (tc : ToolCall) : M Msg :=
  let func_name := tc_name tc in
  func_args <- lift (json_loads (tc_arguments tc)) ;;
  match dict_get func_name (toolkit self) with
  | None => raise (Exc KeyError (repr func_name))
  | Some tool =>
    match dict_keys (parameters tool) with
    | [] => raise (Exc IndexError (u "list index out of range"))
    | first_param :: _ =>
      match func_args with
      | JDict d =>
        let arg_value :=
          match dict_get first_param d with
          | Some v => v
          | None => first_value d
          end in
        result <- execute (toolkit self) func_name
                    [(first_param, arg_value)] ;;
        ret (ToolResult (tc_id tc) result)
      | other =>
        raise (Exc AttributeError
                 (u "'" ++ type_name other
                    ++ u "' object has no attribute 'get'"))
      end
    end
  end.

(** [for tool_call in message["tool_calls"]: ...] *)
Fixpoint answer_tool_calls (self : SimpleAgent) (tcs : list ToolCall)
    (messages : list Msg) : M (list Msg) :=
  match tcs with
  | [] => ret messages
  | tc :: rest =>
    m <- answer_tool_call self tc ;;
    answer_tool_calls self rest (messages ++ [m])
  end.

(** [while tool_calls_count < max_tool_calls: ...], with [remaining] the
    number of passes that the counter still allows: a pass returns or
    adds one to the counter. *)
Fixpoint while_loop (self : SimpleAgent) (remaining : nat)
    (messages : list Msg) : M json :=
  match remaining with
  | O => ret (JStr LIMIT)
  | S remaining' =>
    message <- _call_api messages (get_schemas (toolkit self)) ;;
    match tool_calls message with
    | [] =>
      ret (match content message with
           | Some answer => answer
           | None => JStr []
           end)
    | tcs =>
      messages' <- answer_tool_calls self tcs
                     (messages ++ [FromModel message]) ;;
      while_loop self remaining' messages'
    end
  end.

Definition initial_messages (self : SimpleAgent) (user_message : str)
  : list Msg :=
  [Plain (u "system") (system_prompt self); Plain (u "user") user_message].

Definition run (self : SimpleAgent) (user_message : str)
    (max_tool_calls : Z) : M json :=
  while_loop self (Z.to_nat max_tool_calls)
             (initial_messages self user_message).

End Agent.

Arguments ret {World A} a.
Arguments raise {World A} e.
Arguments record {World} c.

(** The number of requests to the service in a list of calls. *)
Fixpoint api_calls (cs : list call) : nat :=
  match cs with
  | [] => 0
  | api_call _ _ :: t => S (api_calls t)
  | tool_call _ _ :: t => api_calls t
  end.

End simple_agent.

(* ===================================================================== *)
(** * tools/search.py: [wikipedia_search]                                 *)
(* ===================================================================== *)

(** The request goes to the outside; what comes back is read as the
    source reads it.  [wikipedia_search] and [_wikipedia_search_fallback]
    call each other: [wikipedia_search] is given here with the fallback
    as a parameter. *)

Module search.

(** [bool(v)] *)
Definition truthy (v : json) : bool :=
  match v with
  | JNull => false
  | JBool b => b
  | JInt z => negb (z =? 0)%Z
  | JFloat f => negb (CPython.is_zero f)
  | JStr s => match s with [] => false | _ :: _ => true end
  | JList l => match l with [] => false | _ :: _ => true end
  | JDict d => match d with [] => false | _ :: _ => true end
  end.

Definition no_attribute (v : json) (attribute : str) : exc :=
  Exc AttributeError
      (u "'" ++ type_name v ++ u "' object has no attribute '" ++ attribute
         ++ u "'").

(** [data.get(key, default)] *)
Definition get_method (data : json) (key : str) (default : json)
  : result json :=
  match data with
  | JDict d =>
    Ok match dict_get key d with Some v => v | None => default end
  | other => Raise (no_attribute other (u "get"))
  end.

(** [v.split(sep)] *)
Definition split_method (v : json) (sep : str) : result (list str) :=
  match v with
  | JStr s => Ok (split sep s)
  | other => Raise (no_attribute other (u "split"))
  end.

(** [s.endswith(suffix)] *)
Definition endswith (suffix s : str) : bool :=
  match drop_prefix (rev suffix) (rev s) with
  | Some _ => true
  | None => false
  end.

(** [s.replace(a, b)] for single characters [a] and [b]. *)
Definition replace_char (a b : char) (s : str) : str :=
  map (fun c => if (c =? a)%N then b else c) s.

Section Wikipedia.

Variable World : Type.

(** What [requests.get] returns: the status code, and what
    [response.json()] returns or raises. *)
Record Response := {
  status_code : Z;
  json_ : result json
}.

(** [requests.get(url, headers=headers, timeout=10)] *)
Variable get : str -> World -> result Response * World.

(** The names of the exception classes that are
    [requests.exceptions.Timeout], and [requests.exceptions.RequestException],
    or derive from them. *)
Variable Timeout_classes : str -> bool.
Variable RequestException_classes : str -> bool.

(** [str(v)] for a value that is not a [str]. *)
Variable str_other : json -> str.

(** [_wikipedia_search_fallback] *)
Variable fallback : str -> str -> Z -> World -> result str * World.

(** [isinstance(e, cls)] for a class of the [requests] library. *)
Definition is_a (classes : str -> bool) (e : exc) : bool :=
  match exc_type e with
  | Exception_ class_name => classes class_name
  | _ => false
  end.

(** [str(v)], as an f-string formats a value. *)
Definition text_of (v : json) : str :=
  match v with
  | JStr s => s
  | other => str_other other
  end.

Local Open Scope result_scope.

(** The statements of the [try] block after a reply with status 200. *)
Definition summary (query : str) (sentences : Z) (response : Response)
  : result str :=
  data <- json_ response ;;
  extract <- get_method data (u "extract") (JStr []) ;;
  if negb (truthy extract)
  then Ok (u "Статья '" ++ query ++ u "' не содержит описания.")
  else
    sentences_list <- split_method extract (u ". ") ;;
    let result :=
      join (u ". ") (firstn (Z.to_nat sentences) sentences_list) in
    let result :=
      if negb (endswith (u ".") result) then result ++ u "." else result in
    title <- get_method data (u "title") (JStr query) ;;
    Ok (u "[" ++ text_of title ++ u "] " ++ result).

(** The [try] block. *)
Definition request (query language : str) (sentences : Z)
  : World -> result str * World :=
  fun w =>
    let base_url :=
      u "https://" ++ language
        ++ u ".wikipedia.org/api/rest_v1/page/summary/" in
    let url := base_url ++ replace_char 32%N 95%N query in
    match get url w with
    | (Raise e, w') => (Raise e, w')
    | (Ok response, w') =>
      if (status_code response =? 404)%Z
      then fallback query language sentences w'
      else if negb (status_code response =? 200)%Z
      then (Ok (u "Ошибка Wikipedia API: "
                  ++ CPython.str_of_int (status_code response)), w')
      else (summary query sentences response, w')
    end.

Definition wikipedia_search (query language : str) (sentences : Z)
  : World -> str * World :=
  fun w =>
    let sentences := Z.max 1 (Z.min 10 sentences) in
    match request query language sentences w with
    | (Ok text, w') => (text, w')
    | (Raise e, w') =>
      (if is_a Timeout_classes e
       then u "Ошибка: превышено время ожидания Wikipedia"
       else if is_a RequestException_classes e
       then u "Ошибка сети: " ++ exc_str e
       else u "Ошибка поиска в Wikipedia: " ++ exc_str e,
       w')
    end.

End Wikipedia.

End search.
(* ===================================================================== *)
(** * What the further properties speak of                                *)
(* ===================================================================== *)

Module Shape.

(** The transcripts sent to the model in a trace, in order. *)
Fixpoint requests (tr : list event) : list (list message) :=
  match tr with
  | [] => []
  | ev_model sent :: t => sent :: requests t
  | ev_dispatch _ _ :: t => requests t
  end.

(** The dispatch that a record of the actions log stands for. *)
Definition asked_for (rec : react_agent.ActionRecord) : str * str :=
  (react_agent.ar_tool rec, react_agent.ar_arg rec).


(** The research log that the records of an actions log amount to: the
    queries, the findings and the sources of the records, in order. *)
Definition log_of (records : list research_agent.ActionRecord)
  : research_agent.ResearchLog :=
  {| research_agent.queries := map research_agent.ar_query records;
     research_agent.findings := map research_agent.ar_result records;
     research_agent.sources :=
       map (fun rec =>
              research_agent.ar_tool rec ++ u "("
                ++ research_agent.ar_query rec ++ u ")")
           records |}.

(** The dispatch that a record of the actions log of a research stands
    for. *)
Definition searched_for (rec : research_agent.ActionRecord) : str * str :=
  (research_agent.ar_tool rec, research_agent.ar_query rec).

(** [k in d] for a table keyed by operator classes. *)
Definition has_op (k : opclass) (d : list (opclass * host_fn)) : bool :=
  match opclass_get k d with Some _ => true | None => false end.

(** An expression of the whitelist of tools/calculator.py: literals, the
    names of [CONSTANTS], the operators of [OPERATORS], and calls of the
    names of [FUNCTIONS], and nothing else. *)
Fixpoint whitelisted {V} (node : expr V) : bool :=
  match node with
  | Constant _ => true
  | Name id => dict_mem id calculator.CONSTANTS
  | BinOp l o r =>
    whitelisted l && whitelisted r && has_op (inl o) calculator.OPERATORS
  | UnaryOp o e => whitelisted e && has_op (inr o) calculator.OPERATORS
  | Call (Name f) args =>
    dict_mem f calculator.FUNCTIONS && forallb whitelisted args
  | Call _ _ => false
  | Other _ => false
  end.

(** An expression that both evaluators know: literals and the names,
    operators and functions of the tables of the inline evaluator. *)
Fixpoint common {V} (node : expr V) : bool :=
  match node with
  | Constant _ => true
  | Name id => dict_mem id examples.CONSTANTS
  | BinOp l o r => common l && common r && has_op (inl o) examples.OPERATORS
  | UnaryOp o e => common e && has_op (inr o) examples.OPERATORS
  | Call (Name f) args =>
    dict_mem f examples.FUNCTIONS && forallb common args
  | Call _ _ => false
  | Other _ => false
  end.

(** The requests to the service in a list of calls of the simple agent,
    in order: the transcript and the schemas of each. *)
Fixpoint api_requests (cs : list simple_agent.call)
  : list (list simple_agent.Msg * list json) :=
  match cs with
  | [] => []
  | simple_agent.api_call sent tools :: t => (sent, tools) :: api_requests t
  | simple_agent.tool_call _ _ :: t => api_requests t
  end.

(** The [TypeError] of a call of [Tool.execute] with the keyword
    [self]. *)
Definition refused_self : exc :=
  Exc TypeError (u "Tool.execute() got multiple values for argument 'self'").

(** [ToolKit.execute] of react_agent.py and of research_agent.py ends
    with a call of [tool.execute] that passes [arg] under the keyword
    [first_param].  Python refuses that call with a [TypeError] when
    [first_param] is [self], the parameter that [Tool.execute] has taken
    by position.  The tools whose first parameter, if any, can be
    passed: *)
Definition keyword_binds {World : Type} (t : examples.Tool World) : bool :=
  match dict_keys (examples.parameters t) with
  | [] => true
  | k :: _ => negb (str_eqb k (u "self"))
  end.

(** The exceptions of a tool call of a reply in the simple agent, each
    raised before a tool is called. *)
Definition tool_call_raises {World : Type} (json_loads : str -> result json)
    (repr : str -> str) (self : simple_agent.SimpleAgent World)
    (tc : simple_agent.ToolCall) (e : exc) : Prop :=
  json_loads (simple_agent.tc_arguments tc) = Raise e
  \/ (dict_get (simple_agent.tc_name tc) (simple_agent.toolkit self) = None
      /\ e = Exc KeyError (repr (simple_agent.tc_name tc)))
  \/ (exists tool,
         dict_get (simple_agent.tc_name tc) (simple_agent.toolkit self)
         = Some tool
         /\ simple_agent.parameters tool = []
         /\ e = Exc IndexError (u "list index out of range"))
  \/ (exists other,
         json_loads (simple_agent.tc_arguments tc) = Ok other
         /\ (forall d, other <> JDict d)
         /\ e = Exc AttributeError
                  (u "'" ++ type_name other
                     ++ u "' object has no attribute 'get'"))
  \/ (exists tool k,
         dict_get (simple_agent.tc_name tc) (simple_agent.toolkit self)
         = Some tool
         /\ hd_error (dict_keys (simple_agent.parameters tool)) = Some k
         /\ (k = u "self" \/ k = u "name")
         /\ (exists d,
               json_loads (simple_agent.tc_arguments tc) = Ok (JDict d))
         /\ e = Exc TypeError
                  (u "ToolKit.execute() got multiple values for argument '"
                     ++ k ++ u "'")).

End Shape.

Export Shape.

Module Samples.

(** A research agent over the registry [kit] with the budget [n]. *)
Definition researcher (kit : examples.ToolKit Demo.World) (n : Z)
  : research_agent.ResearchAgent Demo.World :=
  {| research_agent.toolkit := kit;
     research_agent.max_iterations := n;
     research_agent.system_prompt :=
       research_agent.SYSTEM_PROMPT_head ++ examples.describe kit
         ++ research_agent.SYSTEM_PROMPT_tail |}.

(** The result of the research in which the model asks for the calculator
    and then answers. *)
Definition research_result : research_agent.RunResult :=
  {| research_agent.topic := u "23 * 17 + 156";
     research_agent.answer := u "547";
     research_agent.iterations := 2;
     research_agent.actions :=
       [ {| research_agent.ar_iteration := 1;
            research_agent.ar_tool := u "calculator";
            research_agent.ar_query := u "23*17+156";
            research_agent.ar_result := u "547.0" |} ];
     research_agent.research_log :=
       {| research_agent.queries := [u "23*17+156"];
          research_agent.findings := [u "547.0"];
          research_agent.sources := [u "calculator(23*17+156)"] |};
     research_agent.success := true |}.

(** A calculator tool for the simple agent: it evaluates the argument
    [expression] when that is a text; any other call raises. *)
Definition json_calculator : simple_agent.Tool Demo.World :=
  {| simple_agent.name := u "calculator";
     simple_agent.description := u "Выполняет математические вычисления";
     simple_agent.func :=
       fun kwargs w =>
         match kwargs with
         | [(k, JStr e)] =>
           if str_eqb k (u "expression")
           then (bind_result (examples.safe_calculator ArithParser.py e)
                             (fun v => Ok (str_ ArithParser.py v)), w)
           else (Raise (Exc TypeError (u "unexpected keyword argument")), w)
         | _ => (Raise (Exc TypeError (u "unexpected arguments")), w)
         end;
     simple_agent.parameters :=
       [ (u "expression",
          JDict [ (u "type", JStr (u "string"));
                  (u "description",
                   JStr (u "Выражение, например '2 + 2'")) ]) ] |}.

Definition json_kit : simple_agent.ToolKit Demo.World :=
  simple_agent.register (simple_agent.ToolKit_init Demo.World)
                        json_calculator.

Definition assistant_with_tools : simple_agent.SimpleAgent Demo.World :=
  {| simple_agent.toolkit := json_kit;
     simple_agent.system_prompt :=
       simple_agent.PROMPT_head ++ simple_agent.describe json_kit
         ++ simple_agent.PROMPT_tail |}.

(** The arguments of a tool call as the service sends them: the text of
    a JSON object with one member. *)
Definition one_member (key value : str) : str :=
  u "{" ++ Demo.q key ++ u ": " ++ Demo.q value ++ u "}".

(** A reader of such texts, for the two that the samples use. *)
Definition sample_loads (s : str) : result json :=
  if str_eqb s (one_member (u "expression") (u "6 * 7"))
  then Ok (JDict [(u "expression", JStr (u "6 * 7"))])
  else if str_eqb s (one_member (u "query") (u "6 * 7"))
  then Ok (JDict [(u "query", JStr (u "6 * 7"))])
  else Raise (Exc (Exception_ (u "JSONDecodeError"))
                  (u "Expecting value: line 1 column 1 (char 0)")).

Definition sample_repr (s : str) : str := u "'" ++ s ++ u "'".

Definition calls_tool (tool_name key : str) : simple_agent.Reply :=
  {| simple_agent.content := Some JNull;
     simple_agent.tool_calls :=
       [ {| simple_agent.tc_id := u "call_1";
            simple_agent.tc_name := tool_name;
            simple_agent.tc_arguments := one_member key (u "6 * 7") |} ] |}.

Definition says (text : str) : simple_agent.Reply :=
  {| simple_agent.content := Some (JStr text);
     simple_agent.tool_calls := [] |}.

(** A service that answers from a script: the reply to a transcript is
    told by the number of tool results that the transcript holds. *)
Definition scripted_service (replies : list simple_agent.Reply)
    (default : simple_agent.Reply)
  : list simple_agent.Msg -> list json -> Demo.World
    -> result simple_agent.Reply * Demo.World :=
  fun messages _ w =>
    (Ok (nth (List.length
                (filter (fun m => match m with
                                  | simple_agent.ToolResult _ _ => true
                                  | _ => false
                                  end) messages))
             replies default), w).

Definition simple_start : simple_agent.state Demo.World :=
  simple_agent.State tt [].

(** A reply of the summary service of Wikipedia: status 200 and an
    article with a title and an extract. *)
Definition article_reply : search.Response :=
  {| search.status_code := 200;
     search.json_ :=
       Ok (JDict
             [ (u "title", JStr (u "Python"));
               (u "extract",
                JStr (u "Python is a language. It is old. It is used")) ])
  |}.

Definition article_service
  : str -> Demo.World -> result search.Response * Demo.World :=
  fun _ w => (Ok article_reply, w).

(** A tool whose first parameter is called [self]. *)
Definition self_tool : examples.Tool Demo.World :=
  {| examples.name := u "me";
     examples.description := u "Возвращает текст";
     examples.func := fun _ w => (Ok (u "ran"), w);
     examples.parameters := [(u "self", [(u "type", u "string")])] |}.

Definition self_kit : examples.ToolKit Demo.World :=
  examples.register Demo.calc_kit self_tool.

Definition reply_me : str := u "ACTION: me(x)".

(** A response that asks for the tool without parameters and ends with
    an [ANSWER:] that nothing follows. *)
Definition reply_ping_then_empty_answer : str :=
  Demo.reply_ping ++ [newline] ++ u "ANSWER:".





End Samples.

Unset Implicit Arguments.

(* ===================================================================== *)
(** * Properties                                                          *)
(* ===================================================================== *)

(** ** Text *)

Module TextFacts.

Lemma str_eqb_refl (a : str) : str_eqb a a = true.
Proof. unfold str_eqb. destruct (list_eq_dec N.eq_dec a a); congruence. Qed.

Lemma str_eqb_eq (a b : str) : str_eqb a b = true <-> a = b.
Proof.
  unfold str_eqb. destruct (list_eq_dec N.eq_dec a b); split; congruence.
Qed.

Lemma str_eqb_neq (a b : str) : str_eqb a b = false <-> a <> b.
Proof.
  unfold str_eqb. destruct (list_eq_dec N.eq_dec a b); split; congruence.
Qed.

Lemma drop_prefix_app (p s : str) : drop_prefix p (p ++ s) = Some s.
Proof.
  induction p as [|a p IH]; simpl; [reflexivity|].
  now rewrite N.eqb_refl.
Qed.

Lemma drop_prefix_inv (p s r : str) : drop_prefix p s = Some r -> s = p ++ r.
Proof.
  revert s. induction p as [|a p IH]; intros [|b s]; simpl; intro H;
    try congruence.
  destruct (N.eqb_spec a b); [|discriminate].
  subst. f_equal. now apply IH.
Qed.

Lemma lstrip_if_all (p : char -> bool) (s : str) :
  forallb p s = true -> lstrip_if p s = [].
Proof.
  induction s as [|c s IH]; simpl; [reflexivity|].
  intro H. apply andb_true_iff in H as [Hc Hs]. rewrite Hc. auto.
Qed.

Lemma strip_if_all (p : char -> bool) (s : str) :
  forallb p s = true -> strip_if p s = [].
Proof.
  intro H. unfold strip_if, rstrip_if. rewrite (lstrip_if_all p s H).
  reflexivity.
Qed.

(** Stripping leaves alone a text whose first and last characters are
    kept. *)
Lemma lstrip_if_head (p : char -> bool) (c : char) (s : str) :
  p c = false -> lstrip_if p (c :: s) = c :: s.
Proof. intro H. simpl. now rewrite H. Qed.

Lemma strip_if_kept (p : char -> bool) (s : str) :
  (forall c t, s = c :: t -> p c = false) ->
  (forall c t, s = t ++ [c] -> p c = false) ->
  strip_if p s = s.
Proof.
  intros Hh Hl. unfold strip_if, rstrip_if.
  assert (E : lstrip_if p s = s).
  { destruct s as [|c t]; [reflexivity|]. apply lstrip_if_head. eauto. }
  rewrite E.
  destruct (rev s) as [|c t] eqn:R.
  - apply (f_equal (@rev _)) in R. rewrite rev_involutive in R. now subst.
  - rewrite lstrip_if_head.
    + rewrite <- R. apply rev_involutive.
    + apply (Hl c (rev t)).
      apply (f_equal (@rev _)) in R. rewrite rev_involutive in R.
      exact R.
Qed.

(** What [strip] leaves neither starts nor ends with a stripped
    character. *)
Lemma lstrip_if_head_kept (p : char -> bool) (s : str) (c : char) (t : str) :
  lstrip_if p s = c :: t -> p c = false.
Proof.
  induction s as [|a s IH]; simpl; [discriminate|].
  destruct (p a) eqn:Pa; [exact IH|].
  intro H. injection H as -> _. exact Pa.
Qed.

Lemma lstrip_if_suffix (p : char -> bool) (s : str) :
  exists pre, s = pre ++ lstrip_if p s.
Proof.
  induction s as [|a s [pre IH]]; simpl.
  - now exists [].
  - destruct (p a).
    + exists (a :: pre). simpl. now f_equal.
    + now exists [].
Qed.

Lemma strip_if_ends (p : char -> bool) (s : str) :
  (forall c t, strip_if p s = c :: t -> p c = false) /\
  (forall c t, strip_if p s = t ++ [c] -> p c = false).
Proof.
  unfold strip_if, rstrip_if. remember (lstrip_if p s) as m eqn:Em.
  split; intros c t H.
  - destruct (lstrip_if_suffix p (rev m)) as [pre E].
    apply (f_equal (@rev _)) in E. rewrite rev_involutive, rev_app_distr in E.
    rewrite H in E. simpl in E.
    eapply lstrip_if_head_kept. rewrite <- Em. exact E.
  - apply (f_equal (@rev _)) in H.
    rewrite rev_involutive, rev_app_distr in H. simpl in H.
    eapply lstrip_if_head_kept. exact H.
Qed.

Lemma dict_get_set_same {V} (k : str) (v : V) (d : list (str * V)) :
  dict_get k (dict_set k v d) = Some v.
Proof.
  induction d as [|[k' v'] d IH]; simpl.
  - now rewrite str_eqb_refl.
  - destruct (str_eqb k k') eqn:E; simpl.
    + now rewrite str_eqb_refl.
    + now rewrite E.
Qed.

Lemma dict_set_fresh {V} (k : str) (v : V) (d : list (str * V)) :
  ~ In k (dict_keys d) -> dict_set k v d = d ++ [(k, v)].
Proof.
  induction d as [|[k' v'] d IH]; simpl; intro H; [reflexivity|].
  destruct (str_eqb k k') eqn:E.
  - apply str_eqb_eq in E. subst. tauto.
  - f_equal. apply IH. tauto.
Qed.

Lemma dict_get_none {V} (k : str) (d : list (str * V)) :
  dict_get k d = None <-> ~ In k (dict_keys d).
Proof.
  induction d as [|[k' v'] d IH]; simpl; [tauto|].
  destruct (str_eqb k k') eqn:E.
  - apply str_eqb_eq in E. subst. split; [discriminate|tauto].
  - apply str_eqb_neq in E. rewrite IH. split; [|tauto].
    intros H [H1|H1]; [congruence|tauto].
Qed.

End TextFacts.

(** ** The tool registry *)

Module RegistryFacts.

Import TextFacts.

Ltac run_eff :=
  unfold Eff.bind, Eff.ret, Eff.raise, Eff.tell, Eff.perform, Eff.catch;
  simpl.

Section WithWorld.

Variable World : Type.

#[local] Abbreviation Tool := (examples.Tool World).
#[local] Abbreviation ToolKit := (examples.ToolKit World).

(** [Tool.execute] with one keyword that is not [self] returns a string
    whatever the callable does. *)
Lemma Tool_execute_returns (t : Tool) (k arg : str) (s : store World) :
  str_eqb k (u "self") = false ->
  exists r w,
    examples.Tool_execute t [(k, arg)] s = (Ok r, Store w (trace s)).
Proof.
  intro K. unfold examples.Tool_execute. cbn [find fst]. rewrite K.
  run_eff.
  destruct (examples.func t [(k, arg)] (world s)) as [[r|e] w]; eauto.
Qed.

(** The keyword [self] is refused before the callable is reached. *)
Lemma Tool_execute_self (t : Tool) (arg : str) (s : store World) :
  examples.Tool_execute t [(u "self", arg)] s
  = (Raise (Exc TypeError
              (u "Tool.execute() got multiple values for argument 'self'")),
     s).
Proof.
  unfold examples.Tool_execute. cbn [find fst].
  now rewrite str_eqb_refl.
Qed.

(** What [keyword_binds] says of the first parameter. *)
Lemma keyword_binds_first (t : Tool) (k : str) (ks : list str) :
  dict_keys (examples.parameters t) = k :: ks ->
  keyword_binds t = negb (str_eqb k (u "self")).
Proof. intro P. unfold keyword_binds. now rewrite P. Qed.

Lemma keyword_binds_false (t : Tool) :
  keyword_binds t = false ->
  exists ks, dict_keys (examples.parameters t) = u "self" :: ks.
Proof.
  unfold keyword_binds.
  destruct (dict_keys (examples.parameters t)) as [|k ks]; [discriminate|].
  intro H. apply negb_false_iff, str_eqb_eq in H. subst k. now exists ks.
Qed.

Lemma react_execute_not_found (tk : ToolKit) (name arg : str)
    (s : store World) :
  dict_get name tk = None ->
  react_agent.execute tk name arg s
  = (Ok (u "Инструмент '" ++ name ++ u "' не найден. Доступны: "
           ++ join (u ", ") (dict_keys tk)),
     dispatched s name arg (world s)).
Proof. intro H. unfold react_agent.execute. run_eff. now rewrite H. Qed.

Lemma research_execute_not_found (tk : ToolKit) (name arg : str)
    (s : store World) :
  dict_get name tk = None ->
  research_agent.execute tk name arg s
  = (Ok (u "Инструмент '" ++ name ++ u "' не найден"),
     dispatched s name arg (world s)).
Proof. intro H. unfold research_agent.execute. run_eff. now rewrite H. Qed.

Lemma react_execute_no_parameters (tk : ToolKit) (name arg : str)
    (t : Tool) (s : store World) :
  dict_get name tk = Some t ->
  examples.parameters t = [] ->
  react_agent.execute tk name arg s
  = (Raise (Exc IndexError (u "list index out of range")),
     dispatched s name arg (world s)).
Proof.
  intros H P. unfold react_agent.execute. run_eff. now rewrite H, P.
Qed.

Lemma research_execute_no_parameters (tk : ToolKit) (name arg : str)
    (t : Tool) (s : store World) :
  dict_get name tk = Some t ->
  examples.parameters t = [] ->
  research_agent.execute tk name arg s
  = (Raise (Exc IndexError (u "list index out of range")),
     dispatched s name arg (world s)).
Proof.
  intros H P. unfold research_agent.execute. run_eff. now rewrite H, P.
Qed.

Lemma react_execute_with_parameters (tk : ToolKit) (name arg : str)
    (t : Tool) (s : store World) :
  dict_get name tk = Some t ->
  examples.parameters t <> [] ->
  keyword_binds t = true ->
  exists r w,
    react_agent.execute tk name arg s = (Ok r, dispatched s name arg w).
Proof.
  intros H P B. unfold react_agent.execute.
  unfold Eff.bind at 1. unfold Eff.tell. rewrite H.
  destruct (dict_keys (examples.parameters t)) as [|k ks] eqn:K.
  { destruct (examples.parameters t); [congruence | discriminate K]. }
  rewrite (keyword_binds_first t k ks K) in B.
  apply negb_true_iff in B.
  destruct (Tool_execute_returns t k arg
              (Store (world s) (trace s ++ [ev_dispatch name arg])) B)
    as (r & w & E).
  rewrite E. now exists r, w.
Qed.

Lemma research_execute_with_parameters (tk : ToolKit) (name arg : str)
    (t : Tool) (s : store World) :
  dict_get name tk = Some t ->
  examples.parameters t <> [] ->
  keyword_binds t = true ->
  exists r w,
    research_agent.execute tk name arg s = (Ok r, dispatched s name arg w).
Proof.
  intros H P B. unfold research_agent.execute.
  unfold Eff.bind at 1. unfold Eff.tell. rewrite H.
  destruct (dict_keys (examples.parameters t)) as [|k ks] eqn:K.
  { destruct (examples.parameters t); [congruence | discriminate K]. }
  rewrite (keyword_binds_first t k ks K) in B.
  apply negb_true_iff in B.
  destruct (Tool_execute_returns t k arg
              (Store (world s) (trace s ++ [ev_dispatch name arg])) B)
    as (r & w & E).
  rewrite E. now exists r, w.
Qed.

Lemma react_execute_self (tk : ToolKit) (name arg : str)
    (t : Tool) (s : store World) :
  dict_get name tk = Some t ->
  keyword_binds t = false ->
  react_agent.execute tk name arg s
  = (Raise refused_self, dispatched s name arg (world s)).
Proof.
  intros H B. destruct (keyword_binds_false t B) as [ks K].
  unfold react_agent.execute.
  unfold Eff.bind at 1. unfold Eff.tell. rewrite H, K.
  now rewrite Tool_execute_self.
Qed.

Lemma research_execute_self (tk : ToolKit) (name arg : str)
    (t : Tool) (s : store World) :
  dict_get name tk = Some t ->
  keyword_binds t = false ->
  research_agent.execute tk name arg s
  = (Raise refused_self, dispatched s name arg (world s)).
Proof.
  intros H B. destruct (keyword_binds_false t B) as [ks K].
  unfold research_agent.execute.
  unfold Eff.bind at 1. unfold Eff.tell. rewrite H, K.
  now rewrite Tool_execute_self.
Qed.

(** Registration appends a tool with a new name. *)
Lemma fold_register_fresh (ts : list Tool) (acc : ToolKit) :
  NoDup (map (@examples.name World) ts) ->
  (forall t, In t ts -> ~ In (examples.name t) (dict_keys acc)) ->
  fold_left (@examples.register World) ts acc
  = acc ++ map (fun t => (examples.name t, t)) ts.
Proof.
  revert acc. induction ts as [|t ts IH]; intros acc ND Hfresh; simpl.
  - now rewrite app_nil_r.
  - inversion ND as [|? ? Hnotin ND']; subst.
    unfold examples.register at 2.
    rewrite dict_set_fresh by (apply Hfresh; now left).
    rewrite IH; [now rewrite <- app_assoc | exact ND' |].
    intros t' Ht' Hin. unfold dict_keys in Hin.
    rewrite map_app in Hin. apply in_app_or in Hin as [Hin|Hin].
    + apply (Hfresh t'); [now right | exact Hin].
    + simpl in Hin. destruct Hin as [E|[]].
      apply Hnotin. rewrite E. now apply in_map.
Qed.

Lemma registered_distinct (ts : list Tool) :
  NoDup (map (@examples.name World) ts) ->
  dict_values (registered ts) = ts.
Proof.
  intro ND. unfold registered.
  rewrite fold_register_fresh; [| exact ND | intros t _ []].
  simpl. unfold dict_values. rewrite map_map. simpl. apply map_id.
Qed.

End WithWorld.

End RegistryFacts.

(** C10.  Dispatch of a registered name returns a string only when the
    tool declares a parameter: for a registered tool whose [parameters]
    mapping is empty, [ToolKit.execute] of either file raises [IndexError]
    (taking the first parameter name) and no string is returned.  With at
    least one parameter it returns, unless the first parameter is called
    [self]: Python refuses that keyword in the call of [Tool.execute] and
    the dispatch raises [TypeError]. *)
Theorem execute_total_only_with_a_parameter :
  forall (World : Type) (tk : examples.ToolKit World) (name arg : str)
         (t : examples.Tool World) (s : store World),
    dict_get name tk = Some t ->
    (examples.parameters t = [] ->
     let raised :=
       (@Raise str (Exc IndexError (u "list index out of range")),
        dispatched s name arg (world s)) in
     react_agent.execute tk name arg s = raised
     /\ research_agent.execute tk name arg s = raised)
    /\ (examples.parameters t <> [] ->
        keyword_binds t = true ->
        (exists r w,
            react_agent.execute tk name arg s
            = (Ok r, dispatched s name arg w))
        /\ (exists r w,
               research_agent.execute tk name arg s
               = (Ok r, dispatched s name arg w)))
    /\ (keyword_binds t = false ->
        let refused :=
          (@Raise str refused_self, dispatched s name arg (world s)) in
        react_agent.execute tk name arg s = refused
        /\ research_agent.execute tk name arg s = refused).
Proof.
  intros World tk name arg t s H. split; [|split].
  - intro P. split.
    + now apply RegistryFacts.react_execute_no_parameters with t.
    + now apply RegistryFacts.research_execute_no_parameters with t.
  - intros P B. split.
    + now apply RegistryFacts.react_execute_with_parameters with t.
    + now apply RegistryFacts.research_execute_with_parameters with t.
  - intro B. split.
    + now apply RegistryFacts.react_execute_self with t.
    + now apply RegistryFacts.research_execute_self with t.
Qed.

Lemma execute_total_only_with_a_parameter_witness :
  fst (react_agent.execute Demo.ping_kit (u "ping") (u "x") Demo.start)
  = Raise (Exc IndexError (u "list index out of range"))
  /\ (exists r w,
         react_agent.execute Demo.ping_kit (u "calculator") (u "2+2")
                             Demo.start
         = (Ok r, dispatched Demo.start (u "calculator") (u "2+2") w))
  /\ fst (research_agent.execute Samples.self_kit (u "me") (u "x")
            Demo.start)
     = Raise refused_self.
Proof.
  assert (H1 : dict_get (u "ping") Demo.ping_kit = Some Demo.ping_tool)
    by reflexivity.
  assert (H2 : dict_get (u "calculator") Demo.ping_kit
               = Some Demo.calculator_tool)
    by reflexivity.
  assert (H3 : examples.parameters Demo.calculator_tool <> [])
    by (simpl; discriminate).
  assert (H4 : dict_get (u "me") Samples.self_kit = Some Samples.self_tool)
    by reflexivity.
  pose proof (@execute_total_only_with_a_parameter
                Demo.World Demo.ping_kit (u "ping") (u "x") Demo.ping_tool
                Demo.start H1) as [T1 _].
  pose proof (@execute_total_only_with_a_parameter
                Demo.World Demo.ping_kit (u "calculator") (u "2+2")
                Demo.calculator_tool Demo.start H2) as [_ [T2 _]].
  pose proof (@execute_total_only_with_a_parameter
                Demo.World Samples.self_kit (u "me") (u "x")
                Samples.self_tool Demo.start H4) as [_ [_ T3]].
  split; [|split].
  - destruct (T1 eq_refl) as [E _]. rewrite E. reflexivity.
  - exact (proj1 (T2 H3 eq_refl)).
  - destruct (T3 eq_refl) as [_ E]. rewrite E. reflexivity.
Defined.

(** C6 at research_agent.py.  For a name that is not registered,
    [ToolKit.execute] of research_agent.py returns a string and does not
    raise, but the string names only the missing tool: the registered
    [calculator] is not listed.  [ToolKit.execute] of react_agent.py lists
    it. *)
Theorem research_not_found_omits_available :
  research_agent.execute Demo.calc_kit (u "nope") (u "x") Demo.start
  = (Ok (u "Инструмент 'nope' не найден"),
     Store tt [ev_dispatch (u "nope") (u "x")])
  /\ contains (u "calculator") (u "Инструмент 'nope' не найден") = false
  /\ react_agent.execute Demo.calc_kit (u "nope") (u "x") Demo.start
     = (Ok (u "Инструмент 'nope' не найден. Доступны: calculator"),
        Store tt [ev_dispatch (u "nope") (u "x")]).
Proof. repeat split; vm_compute; reflexivity. Qed.

(** C8, as the source renders it.  For tools registered under distinct
    names, [describe] is the tools' lines joined by newlines, in the order
    of registration, each line being a bullet and a space, the name, the
    parameter names in double quotes separated by a comma and a space
    between parentheses, a colon and a space, and the description. *)
Theorem describe_lines_in_registration_order :
  forall (World : Type) (ts : list (examples.Tool World)),
    NoDup (map (@examples.name World) ts) ->
    examples.describe (registered ts)
    = join [newline] (map (@tool_line World) ts).
Proof.
  intros World ts ND. unfold examples.describe.
  rewrite RegistryFacts.registered_distinct by exact ND.
  reflexivity.
Qed.

Lemma describe_lines_in_registration_order_witness :
  examples.describe (registered [Demo.calculator_tool; Demo.ping_tool])
  = tool_line Demo.calculator_tool ++ [newline] ++ tool_line Demo.ping_tool.
Proof.
  rewrite describe_lines_in_registration_order.
  - reflexivity.
  - simpl. repeat constructor.
    + intros [H|[]]. vm_compute in H. discriminate H.
    + intros [].
Defined.

(** C8 as stated fails: the line of a registered tool is not
    [name(params): description], it starts with a bullet. *)
Lemma describe_not_as_specified :
  examples.describe Demo.calc_kit <> describe_as_specified Demo.calc_kit
  /\ examples.describe Demo.calc_kit
     = u "• " ++ describe_as_specified Demo.calc_kit.
Proof. split; [vm_compute; discriminate | vm_compute; reflexivity]. Qed.

(** ** [_extract_answer] *)

Module AnswerFacts.

Import TextFacts examples.

Lemma ANSWER_MARK_chars : ANSWER_MARK = MARK.
Proof. vm_compute. reflexivity. Qed.

Lemma contains_app (sep pre post : str) :
  contains sep (pre ++ sep ++ post) = true.
Proof.
  induction pre as [|c pre IH].
  - destruct sep as [|a sep]; simpl.
    + destruct post; reflexivity.
    + now rewrite N.eqb_refl, drop_prefix_app.
  - simpl (contains _ _).
    change ((c :: pre) ++ sep ++ post) with (c :: pre ++ sep ++ post).
    destruct (drop_prefix sep (c :: pre ++ sep ++ post)); auto.
Qed.

Lemma contains_cons (sep : str) (c : char) (s : str) :
  contains sep (c :: s) = false ->
  drop_prefix sep (c :: s) = None /\ contains sep s = false.
Proof.
  simpl. destruct (drop_prefix sep (c :: s)); [discriminate|]. auto.
Qed.

Lemma split_scan_nonempty (sep : str) (s : str) :
  forall skip cur, split_scan sep skip cur s <> [].
Proof.
  induction s as [|c s IH]; intros skip cur; simpl; [discriminate|].
  destruct skip; [|apply IH].
  destruct (drop_prefix sep (c :: s)); [discriminate | apply IH].
Qed.

Lemma last_cons_nonempty {A} (a : A) (l : list A) (d : A) :
  l <> [] -> last (a :: l) d = last l d.
Proof. destruct l; [congruence | reflexivity]. Qed.

(** The scan passes over the rest of a separator it has found. *)
Lemma split_scan_skip (sep p s cur : str) :
  split_scan sep (List.length p) cur (p ++ s) = split_scan sep 0 cur s.
Proof. induction p as [|c p IH]; simpl; auto. Qed.

(** A text without the separator is one piece. *)
Lemma split_scan_no_sep (sep s : str) :
  contains sep s = false ->
  forall cur, split_scan sep 0 cur s = [rev cur ++ s].
Proof.
  induction s as [|c s IH]; intros H cur; simpl.
  - now rewrite app_nil_r.
  - apply contains_cons in H as [H1 H2]. rewrite H1.
    rewrite IH by exact H2. simpl. now rewrite <- app_assoc.
Qed.

(** Two occurrences of the marker do not overlap: it has one [A], at its
    start. *)
Lemma marker_no_overlap (pre post r : str) :
  drop_prefix MARK (pre ++ MARK ++ post) = Some r ->
  pre = [] \/ 7 <= List.length pre.
Proof.
  intro H.
  destruct pre as [|c1 [|c2 [|c3 [|c4 [|c5 [|c6 [|c7 pre]]]]]]];
    [ now left | | | | | | | right; simpl; lia ];
    exfalso; unfold MARK in H; cbn [drop_prefix app] in H;
    repeat match type of H with
           | context [(?a =? ?b)%N] =>
             destruct (N.eqb_spec a b); [subst|];
             try discriminate H; try lia
           end.
Qed.

Lemma split_last_after_marker (post : str) :
  contains MARK post = false ->
  forall pre skip cur,
    skip <= List.length pre ->
    last (split_scan MARK skip cur (pre ++ MARK ++ post)) [] = post.
Proof.
  intros Hpost pre. induction pre as [|c pre IH]; intros skip cur Hskip.
  - assert (skip = 0) by (simpl in Hskip; lia). subst skip.
    change ([] ++ MARK ++ post) with (65%N :: [78; 83; 87; 69; 82; 58]%N ++ post).
    change (split_scan MARK 0 cur (65%N :: [78; 83; 87; 69; 82; 58]%N ++ post))
      with (rev cur :: split_scan MARK (List.length [78; 83; 87; 69; 82; 58]%N)
                         [] ([78; 83; 87; 69; 82; 58]%N ++ post)).
    rewrite split_scan_skip, (@split_scan_no_sep MARK post Hpost). reflexivity.
  - change ((c :: pre) ++ MARK ++ post) with (c :: pre ++ MARK ++ post).
    destruct skip as [|k].
    + cbn [split_scan].
      destruct (drop_prefix MARK (c :: pre ++ MARK ++ post)) as [r|] eqn:E.
      * rewrite last_cons_nonempty by apply split_scan_nonempty.
        change (List.length MARK - 1) with 6.
        apply IH.
        apply (marker_no_overlap (c :: pre) post) in E.
        destruct E as [E|E]; [discriminate|]. simpl in E. lia.
      * apply IH. lia.
    + cbn [split_scan]. apply IH. simpl in Hskip. lia.
Qed.

(** The answer is what follows the last marker, stripped. *)
Lemma extract_answer_after_last_marker (pre post : str) :
  contains ANSWER_MARK post = false ->
  _extract_answer (pre ++ ANSWER_MARK ++ post) = Some (strip post).
Proof.
  intro H. unfold _extract_answer. rewrite contains_app.
  unfold split. rewrite ANSWER_MARK_chars in *.
  rewrite split_last_after_marker; [reflexivity | exact H | simpl; lia].
Qed.

Lemma extract_answer_absent (response : str) :
  contains ANSWER_MARK response = false ->
  _extract_answer response = None.
Proof. intro H. unfold _extract_answer. now rewrite H. Qed.

(** White space holds no marker. *)
Lemma whitespace_has_no_marker (ws : str) :
  forallb isspace ws = true -> contains ANSWER_MARK ws = false.
Proof.
  rewrite ANSWER_MARK_chars.
  induction ws as [|c ws IH]; intro H; [reflexivity|].
  simpl in H. apply andb_true_iff in H as [Hc Hws].
  cbn [contains].
  assert (E : drop_prefix MARK (c :: ws) = None).
  { unfold MARK. cbn [drop_prefix].
    destruct (N.eqb_spec 65 c) as [<-|_]; [|reflexivity].
    vm_compute in Hc. discriminate. }
  rewrite E. now apply IH.
Qed.

End AnswerFacts.

(** ** The control loops *)

Module LoopFacts.

Import TextFacts RegistryFacts AnswerFacts examples.

Lemma model_calls_app (a b : list event) :
  model_calls (a ++ b) = model_calls a + model_calls b.
Proof.
  induction a as [|[m|n x] a IH]; simpl; auto.
Qed.

Lemma dispatches_app (a b : list event) :
  dispatches (a ++ b) = dispatches a ++ dispatches b.
Proof.
  induction a as [|[m|n x] a IH]; simpl; auto. now f_equal.
Qed.

Lemma length_range (lo hi : Z) : List.length (range lo hi) = Z.to_nat (hi - lo).
Proof. unfold range. now rewrite length_map, length_seq. Qed.

Lemma truthy_some (a : str) : a <> [] -> truthy (Some a) = true.
Proof. destruct a; [congruence | reflexivity]. Qed.

Section React.

Import react_agent.

Variable World : Type.
Variable ua : char -> bool.
Variable llm : list message -> World -> result str * World.
Variable self : ReActAgent World.

Lemma iteration_body_eq (i : Z) (st : LoopState) (s : store World) :
  iteration_body ua llm self i st s
  = match llm (messages st) (world s) with
    | (Ok response, w) => classify ua self i response st (asked (messages st) s w)
    | (Raise e, w) => (Raise e, asked (messages st) s w)
    end.
Proof.
  unfold iteration_body, _call_llm. run_eff.
  destruct (llm (messages st) (world s)) as [[r|e] w]; reflexivity.
Qed.

Lemma classify_answer (i : Z) (response a : str) (st : LoopState) :
  _extract_answer response = Some a ->
  a <> [] ->
  classify ua self i response st
  = ret (Return {| answer := a;
                   iterations := i;
                   actions := actions_log st;
                   success := true |}).
Proof.
  intros E Ha. unfold classify. rewrite E, (truthy_some a Ha). reflexivity.
Qed.

Lemma classify_no_answer (i : Z) (response : str) (st : LoopState) :
  truthy (_extract_answer response) = false ->
  classify ua self i response st = act_or_nudge ua self i response st.
Proof. intro E. unfold classify. now rewrite E. Qed.

(** After the answer check an iteration continues or raises; it does not
    return. *)
Lemma act_or_nudge_continues (i : Z) (response : str) (st : LoopState)
    (s : store World) (res : RunResult) :
  fst (act_or_nudge ua self i response st s) <> Ok (Return res).
Proof.
  unfold act_or_nudge.
  destruct (_parse_action ua response) as [a|]; run_eff.
  - destruct (execute (toolkit self) (tool a) (arg a) s) as [[o|e] s'];
      simpl; discriminate.
  - discriminate.
Qed.

Lemma act_or_nudge_dispatch (i : Z) (response : str) (st : LoopState)
    (s s' : store World) (a : Action) (obs : str) :
  _parse_action ua response = Some a ->
  execute (toolkit self) (tool a) (arg a) s = (Ok obs, s') ->
  act_or_nudge ua self i response st s
  = (Ok (Continue
           {| messages :=
                messages st
                  ++ [ assistant response;
                       user (u "OBSERVATION: " ++ obs) ];
              actions_log :=
                actions_log st
                  ++ [ {| ar_iteration := i;
                          ar_tool := tool a;
                          ar_arg := arg a;
                          ar_result := slice_to 500 obs |} ] |}), s').
Proof.
  intros P E. unfold act_or_nudge. rewrite P. run_eff. now rewrite E.
Qed.

Lemma act_or_nudge_nudge (i : Z) (response : str) (st : LoopState)
    (s : store World) :
  _parse_action ua response = None ->
  act_or_nudge ua self i response st s
  = (Ok (Continue
           {| messages := messages st ++ [assistant response; user NUDGE];
              actions_log := actions_log st |}), s).
Proof. intro P. unfold act_or_nudge. now rewrite P. Qed.

(** *** Exhaustion *)

Section Exhaustion.

(** The model always returns, never with an answer, and never asks for a
    registered tool whose dispatch raises: one that declares no parameter,
    or one whose first parameter is called [self]. *)
Hypothesis model_never_answers :
  forall ms w, exists r w',
    llm ms w = (Ok r, w')
    /\ truthy (_extract_answer r) = false
    /\ forall a t,
         _parse_action ua r = Some a ->
         dict_get (tool a) (toolkit self) = Some t ->
         parameters t <> [] /\ keyword_binds t = true.

Lemma execute_returns (a : Action) (s : store World) :
  (forall t, dict_get (tool a) (toolkit self) = Some t ->
             parameters t <> [] /\ keyword_binds t = true) ->
  exists obs w,
    execute (toolkit self) (tool a) (arg a) s
    = (Ok obs, dispatched s (tool a) (arg a) w).
Proof.
  intro H. destruct (dict_get (tool a) (toolkit self)) as [t|] eqn:G.
  - destruct (H t eq_refl) as [P B].
    now apply react_execute_with_parameters with t.
  - rewrite react_execute_not_found by exact G. eauto.
Qed.

Lemma iteration_continues (i : Z) (st : LoopState) (s : store World) :
  exists st' s',
    iteration_body ua llm self i st s = (Ok (Continue st'), s')
    /\ model_calls (trace s') = S (model_calls (trace s))
    /\ ((forall ms w r w', llm ms w = (Ok r, w') ->
                           _parse_action ua r = None) ->
        actions_log st' = actions_log st).
Proof.
  rewrite iteration_body_eq.
  destruct (model_never_answers (messages st) (world s))
    as (r & w & E & Hno & Hpar).
  rewrite E, (classify_no_answer i r st Hno).
  destruct (_parse_action ua r) as [a|] eqn:P.
  - destruct (execute_returns a (asked (messages st) s w)) as (obs & w2 & X).
    { intros t G. exact (Hpar a t eq_refl G). }
    rewrite (act_or_nudge_dispatch i r st _ _ a obs P X).
    eexists _, _. split; [reflexivity|]. split.
    + unfold dispatched, asked. simpl.
      rewrite !model_calls_app. simpl. lia.
    + intro Hnone. rewrite (Hnone _ _ _ _ E) in P. discriminate.
  - rewrite (act_or_nudge_nudge i r st (asked (messages st) s w) P).
    eexists _, _. split; [reflexivity|]. split.
    + unfold asked. simpl. rewrite model_calls_app. simpl. lia.
    + reflexivity.
Qed.

Lemma for_loop_exhausts (its : list Z) :
  forall (st : LoopState) (s : store World),
  exists st' s',
    for_loop ua llm self its st s = (Ok (Continue st'), s')
    /\ model_calls (trace s') = model_calls (trace s) + List.length its
    /\ ((forall ms w r w', llm ms w = (Ok r, w') ->
                           _parse_action ua r = None) ->
        actions_log st' = actions_log st).
Proof.
  induction its as [|i its IH]; intros st s.
  - exists st, s. simpl. repeat split; auto.
  - destruct (iteration_continues i st s) as (st1 & s1 & E1 & C1 & L1).
    destruct (IH st1 s1) as (st2 & s2 & E2 & C2 & L2).
    exists st2, s2. split; [|split].
    + cbn [for_loop]. unfold Eff.bind at 1. rewrite E1. exact E2.
    + rewrite C2, C1. simpl. lia.
    + intro H. rewrite (L2 H). now apply L1.
Qed.

End Exhaustion.

(** *** The log and the transcript *)

Lemma iteration_keeps_agreement (i : Z) (st st' : LoopState)
    (s s' : store World) :
  iteration_body ua llm self i st s = (Ok (Continue st'), s') ->
  log_agrees (messages st) (actions_log st) ->
  log_agrees (messages st') (actions_log st').
Proof.
  rewrite iteration_body_eq.
  destruct (llm (messages st) (world s)) as [[r|e] w]; [|discriminate].
  unfold classify.
  destruct (truthy (_extract_answer r)); [discriminate|].
  unfold act_or_nudge.
  destruct (_parse_action ua r) as [a|]; run_eff.
  - destruct (execute (toolkit self) (tool a) (arg a)
                (asked (messages st) s w)) as [[obs|e] s2];
      [|discriminate].
    intros E A. injection E as <- _. simpl.
    now apply la_dispatch.
  - intros E A. injection E as <- _. simpl. now apply la_nudge.
Qed.

Lemma iteration_returns_log (i : Z) (st : LoopState) (s s' : store World)
    (res : RunResult) :
  iteration_body ua llm self i st s = (Ok (Return res), s') ->
  actions res = actions_log st
  /\ In (ev_model (messages st)) (trace s').
Proof.
  rewrite iteration_body_eq.
  destruct (llm (messages st) (world s)) as [[r|e] w]; [|discriminate].
  unfold classify.
  destruct (truthy (_extract_answer r)).
  - intro E. injection E as <- <-. split; [reflexivity|].
    simpl. apply in_or_app. right. now left.
  - intro E. exfalso.
    apply (act_or_nudge_continues i r st (asked (messages st) s w) res).
    now rewrite E.
Qed.

(** Every record of a returned log holds the first 500 characters of an
    observation, and the transcript sent with the last request to the
    model holds that observation whole. *)
Lemma for_loop_keeps_agreement (its : list Z) :
  forall (st : LoopState) (s : store World),
    log_agrees (messages st) (actions_log st) ->
    match for_loop ua llm self its st s with
    | (Ok (Continue st'), _) =>
      log_agrees (messages st') (actions_log st')
    | (Ok (Return res), s') =>
      exists sent,
        log_agrees sent (actions res) /\ In (ev_model sent) (trace s')
    | (Raise _, _) => True
    end.
Proof.
  induction its as [|i its IH]; intros st s A; [exact A|].
  cbn [for_loop]. unfold Eff.bind at 1.
  destruct (iteration_body ua llm self i st s) as [[[res|st1]|e] s1] eqn:E.
  - destruct (iteration_returns_log i st s s1 res E) as [L T].
    exists (messages st). rewrite L. now split.
  - apply IH. exact (iteration_keeps_agreement i st st1 s s1 E A).
  - exact I.
Qed.

Lemma log_agrees_records (ms : list message) (log : list ActionRecord) :
  log_agrees ms log ->
  Forall (fun rec =>
            exists obs,
              ar_result rec = slice_to 500 obs
              /\ List.length (ar_result rec) <= 500
              /\ In (user (u "OBSERVATION: " ++ obs)) ms) log.
Proof.
  induction 1 as [ms | ms log response obs rec _ IH E | ms log response _ IH].
  - constructor.
  - apply Forall_app. split.
    + eapply Forall_impl; [|exact IH].
      intros r (o & H1 & H2 & H3). exists o. repeat split; auto.
      apply in_or_app. now left.
    + constructor; [|constructor]. exists obs. repeat split; auto.
      * rewrite E. unfold slice_to. rewrite length_firstn. lia.
      * apply in_or_app. right. right. now left.
  - eapply Forall_impl; [|exact IH].
    intros r (o & H1 & H2 & H3). exists o. repeat split; auto.
    apply in_or_app. now left.
Qed.

Lemma run_log_agrees (task : str) (s : store World) (res : RunResult) :
  fst (run ua llm self task s) = Ok res ->
  exists transcript,
    Forall (fun rec =>
              exists obs,
                ar_result rec = slice_to 500 obs
                /\ List.length (ar_result rec) <= 500
                /\ In (user (u "OBSERVATION: " ++ obs)) transcript)
           (actions res).
Proof.
  unfold run, Eff.bind.
  pose proof (for_loop_keeps_agreement
                (range 1 (max_iterations self + 1))
                (initial_state self task) s (la_start _)) as A.
  destruct (for_loop ua llm self _ _ s) as [[[r|st']|e] s'];
    simpl; intro E; [| |discriminate].
  - injection E as <-. destruct A as (sent & A & _).
    exists sent. now apply log_agrees_records.
  - injection E as <-. simpl. exists (messages st').
    now apply log_agrees_records.
Qed.

End React.

End LoopFacts.

Module ResearchLoopFacts.

Import RegistryFacts examples research_agent.

Section Research.

Variable World : Type.
Variable ua : char -> bool.
Variable llm : list message -> World -> result str * World.
Variable self : ResearchAgent World.

Lemma research_iteration_body_eq (topic : str) (i : Z) (st : LoopState)
    (s : store World) :
  iteration_body ua llm self topic i st s
  = match llm (messages st) (world s) with
    | (Ok response, w) =>
      classify ua self topic i response st (asked (messages st) s w)
    | (Raise e, w) => (Raise e, asked (messages st) s w)
    end.
Proof.
  unfold iteration_body, _call_llm. run_eff.
  destruct (llm (messages st) (world s)) as [[r|e] w]; reflexivity.
Qed.



End Research.

End ResearchLoopFacts.

(** ** The claims about the control loop *)


(** C9, as the code has it.  When the last [ANSWER:] of a response is
    followed by white space only, or by nothing, [_extract_answer] returns
    the empty string, the test [if answer:] fails, and the iteration does
    not return: it goes on with the parsing of an action or the nudge.
    Unless the dispatch of the parsed action raises (a registered tool
    without parameters, or with [self] as its first parameter), the
    iteration ends normally and the loop goes on with its next iteration,
    the transcript having grown by the response and by the observation or
    the nudge. *)
Theorem empty_answer_falls_through :
  forall (World : Type) (ua : char -> bool)
         (self : react_agent.ReActAgent World) (i : Z)
         (st : react_agent.LoopState) (pre ws : str),
    forallb isspace ws = true ->
    let response := pre ++ examples.ANSWER_MARK ++ ws in
    examples._extract_answer response = Some []
    /\ examples.truthy (examples._extract_answer response) = false
    /\ react_agent.classify ua self i response st
       = react_agent.act_or_nudge ua self i response st
    /\ (forall (s : store World) (res : react_agent.RunResult),
           fst (react_agent.classify ua self i response st s)
           <> Ok (react_agent.Return res))
    /\ (forall (llm : list message -> World -> result str * World)
               (s : store World) (w : World) (rest : list Z),
           llm (react_agent.messages st) (world s) = (Ok response, w) ->
           (forall a t,
               examples._parse_action ua response = Some a ->
               dict_get (examples.tool a) (react_agent.toolkit self)
               = Some t ->
               examples.parameters t <> [] /\ keyword_binds t = true) ->
           exists st' s',
             react_agent.iteration_body ua llm self i st s
             = (Ok (react_agent.Continue st'), s')
             /\ react_agent.for_loop ua llm self (i :: rest) st s
                = react_agent.for_loop ua llm self rest st' s'
             /\ match examples._parse_action ua response with
                | Some a =>
                  exists obs w',
                    react_agent.messages st'
                    = react_agent.messages st
                        ++ [ react_agent.assistant response;
                             react_agent.user (u "OBSERVATION: " ++ obs) ]
                    /\ s' = dispatched
                              (asked (react_agent.messages st) s w)
                              (examples.tool a) (examples.arg a) w'
                | None =>
                  react_agent.messages st'
                  = react_agent.messages st
                      ++ [ react_agent.assistant response;
                           react_agent.user react_agent.NUDGE ]
                  /\ react_agent.actions_log st'
                     = react_agent.actions_log st
                  /\ s' = asked (react_agent.messages st) s w
                end).
Proof.
  intros World ua self i st pre ws Hws response.
  assert (E : examples._extract_answer response = Some []).
  { unfold response.
    rewrite AnswerFacts.extract_answer_after_last_marker
      by now apply AnswerFacts.whitespace_has_no_marker.
    unfold strip. now rewrite TextFacts.strip_if_all. }
  assert (T : examples.truthy (examples._extract_answer response) = false)
    by now rewrite E.
  pose proof (LoopFacts.classify_no_answer World ua self i response st T) as C.
  split; [exact E|]. split; [exact T|]. split; [exact C|]. split.
  - intros s res. rewrite C. apply LoopFacts.act_or_nudge_continues.
  - intros llm s w rest L D.
    assert (B : react_agent.iteration_body ua llm self i st s
                = react_agent.act_or_nudge ua self i response st
                    (asked (react_agent.messages st) s w))
      by now rewrite LoopFacts.iteration_body_eq, L, C.
    destruct (examples._parse_action ua response) as [a|] eqn:P.
    + destruct (dict_get (examples.tool a) (react_agent.toolkit self))
        as [t|] eqn:G.
      * destruct (D a t eq_refl G) as [Pt Bt].
        destruct (RegistryFacts.react_execute_with_parameters World
                    (react_agent.toolkit self) (examples.tool a)
                    (examples.arg a) t
                    (asked (react_agent.messages st) s w) G Pt Bt)
          as (obs & w' & X).
        rewrite (LoopFacts.act_or_nudge_dispatch World ua self i response st
                   _ _ a obs P X) in B.
        eexists _, _. split; [exact B|]. split.
        -- cbn [react_agent.for_loop]. unfold Eff.bind at 1. now rewrite B.
        -- exists obs, w'. now split.
      * pose proof (RegistryFacts.react_execute_not_found World
                      (react_agent.toolkit self) (examples.tool a)
                      (examples.arg a)
                      (asked (react_agent.messages st) s w) G) as X.
        rewrite (LoopFacts.act_or_nudge_dispatch World ua self i response st
                   _ _ a _ P X) in B.
        eexists _, _. split; [exact B|]. split.
        -- cbn [react_agent.for_loop]. unfold Eff.bind at 1. now rewrite B.
        -- eexists _, _. now split.
    + rewrite (LoopFacts.act_or_nudge_nudge World ua self i response st
                 _ P) in B.
      eexists _, _. split; [exact B|]. split.
      * cbn [react_agent.for_loop]. unfold Eff.bind at 1. now rewrite B.
      * now repeat split.
Qed.

Lemma empty_answer_falls_through_witness :
  examples._extract_answer Demo.reply_action_then_empty_answer = Some []
  /\ exists st' s',
       react_agent.iteration_body Demo.ascii_only
         (Demo.scripted [Demo.reply_action_then_empty_answer]
            Demo.reply_thinking)
         (Demo.react Demo.calc_kit 5) 1
         (react_agent.initial_state (Demo.react Demo.calc_kit 5) (u "2+2"))
         Demo.start
       = (Ok (react_agent.Continue st'), s')
       /\ react_agent.for_loop Demo.ascii_only
            (Demo.scripted [Demo.reply_action_then_empty_answer]
               Demo.reply_thinking)
            (Demo.react Demo.calc_kit 5) [1; 2]%Z
            (react_agent.initial_state (Demo.react Demo.calc_kit 5)
               (u "2+2"))
            Demo.start
          = react_agent.for_loop Demo.ascii_only
              (Demo.scripted [Demo.reply_action_then_empty_answer]
                 Demo.reply_thinking)
              (Demo.react Demo.calc_kit 5) [2]%Z st' s'
       /\ In (react_agent.user (u "OBSERVATION: 4.0"))
             (react_agent.messages st').
Proof.
  pose proof (@empty_answer_falls_through Demo.World Demo.ascii_only
                (Demo.react Demo.calc_kit 5) 1
                (react_agent.initial_state (Demo.react Demo.calc_kit 5)
                   (u "2+2"))
                (u "ACTION: calculator(" ++ Demo.q (u "2+2") ++ u ")"
                   ++ [newline]) [] eq_refl) as T.
  cbv zeta in T.
  replace (_ ++ examples.ANSWER_MARK ++ [])
    with Demo.reply_action_then_empty_answer in T
    by (vm_compute; reflexivity).
  destruct T as (T1 & _ & _ & _ & T5). split; [exact T1|].
  destruct (T5 (Demo.scripted [Demo.reply_action_then_empty_answer]
                  Demo.reply_thinking)
               Demo.start tt [2]%Z)
    as (st' & s' & B & F & M).
  - reflexivity.
  - intros a t P G.
    assert (Pa : examples._parse_action Demo.ascii_only
                   Demo.reply_action_then_empty_answer
                 = Some {| examples.tool := u "calculator";
                           examples.arg := u "2+2" |})
      by (vm_compute; reflexivity).
    rewrite Pa in P. injection P as <-.
    change (Some Demo.calculator_tool = Some t) in G. injection G as <-.
    split; [discriminate | reflexivity].
  - exists st', s'. split; [exact B|]. split; [exact F|].
    assert (X : react_agent.iteration_body Demo.ascii_only
                  (Demo.scripted [Demo.reply_action_then_empty_answer]
                     Demo.reply_thinking)
                  (Demo.react Demo.calc_kit 5) 1
                  (react_agent.initial_state (Demo.react Demo.calc_kit 5)
                     (u "2+2"))
                  Demo.start
                = (Ok (react_agent.Continue
                         {| react_agent.messages :=
                              react_agent.messages
                                (react_agent.initial_state
                                   (Demo.react Demo.calc_kit 5) (u "2+2"))
                                ++ [ react_agent.assistant
                                       Demo.reply_action_then_empty_answer;
                                     react_agent.user
                                       (u "OBSERVATION: 4.0") ];
                            react_agent.actions_log :=
                              [ {| react_agent.ar_iteration := 1;
                                   react_agent.ar_tool := u "calculator";
                                   react_agent.ar_arg := u "2+2";
                                   react_agent.ar_result := u "4.0" |} ] |}),
                   Store tt
                     [ ev_model
                         (react_agent.messages
                            (react_agent.initial_state
                               (Demo.react Demo.calc_kit 5) (u "2+2")));
                       ev_dispatch (u "calculator") (u "2+2") ]))
      by (vm_compute; reflexivity).
    rewrite X in B. injection B as <- _.
    cbn [react_agent.messages react_agent.initial_state app].
    right. right. right. now left.
Defined.


(** C2, as the code has it.  When the text after the last [ANSWER:] of a
    response is not white space only, the iteration returns it, stripped,
    as the answer with [success] true, whatever else the response holds
    (an [ACTION:] pattern included); the iterations that remain are not
    run and nothing is dispatched. *)
Theorem answer_precedes_action :
  forall (World : Type) (ua : char -> bool)
         (llm : list message -> World -> result str * World)
         (self : react_agent.ReActAgent World) (i : Z) (rest : list Z)
         (st : react_agent.LoopState) (s : store World)
         (pre post : str) (w : World),
    contains examples.ANSWER_MARK post = false ->
    strip post <> [] ->
    llm (react_agent.messages st) (world s)
    = (Ok (pre ++ examples.ANSWER_MARK ++ post), w) ->
    let res :=
      {| react_agent.answer := strip post;
         react_agent.iterations := i;
         react_agent.actions := react_agent.actions_log st;
         react_agent.success := true |} in
    let s' := asked (react_agent.messages st) s w in
    react_agent.iteration_body ua llm self i st s
    = (Ok (react_agent.Return res), s')
    /\ react_agent.for_loop ua llm self (i :: rest) st s
       = (Ok (react_agent.Return res), s')
    /\ dispatches (trace s') = dispatches (trace s).
Proof.
  intros World ua llm self i rest st s pre post w Hpost Hne L res s'.
  assert (B : react_agent.iteration_body ua llm self i st s
              = (Ok (react_agent.Return res), s')).
  { rewrite LoopFacts.iteration_body_eq, L.
    rewrite (LoopFacts.classify_answer World ua self i _ (strip post) st);
      [reflexivity | | exact Hne].
    now apply AnswerFacts.extract_answer_after_last_marker. }
  split; [exact B|]. split.
  - cbn [react_agent.for_loop]. unfold Eff.bind. now rewrite B.
  - unfold s', asked. simpl. rewrite LoopFacts.dispatches_app. simpl.
    apply app_nil_r.
Qed.

Lemma answer_precedes_action_witness :
  react_agent.iteration_body Demo.ascii_only
    (Demo.scripted [Demo.reply_answer_and_action] Demo.reply_thinking)
    (Demo.react Demo.calc_kit 5) 1
    (react_agent.initial_state (Demo.react Demo.calc_kit 5) (u "2+2"))
    Demo.start
  = (Ok (react_agent.Return
           {| react_agent.answer := strip (u " 4");
              react_agent.iterations := 1;
              react_agent.actions :=
                react_agent.actions_log
                  (react_agent.initial_state (Demo.react Demo.calc_kit 5)
                     (u "2+2"));
              react_agent.success := true |}),
     asked (react_agent.messages
              (react_agent.initial_state (Demo.react Demo.calc_kit 5)
                 (u "2+2")))
           Demo.start tt).
Proof.
  refine (proj1
    (@answer_precedes_action Demo.World Demo.ascii_only
       (Demo.scripted [Demo.reply_answer_and_action] Demo.reply_thinking)
       (Demo.react Demo.calc_kit 5) 1 []
       (react_agent.initial_state (Demo.react Demo.calc_kit 5) (u "2+2"))
       Demo.start
       (u "ACTION: calculator(" ++ Demo.q (u "2+2") ++ u ")" ++ [newline])
       (u " 4") tt _ _ _)).
  - vm_compute. reflexivity.
  - vm_compute. discriminate.
  - vm_compute. reflexivity.
Defined.

(** C2 as stated fails: a response that holds both [ANSWER:] and an
    [ACTION:] pattern, the marker being followed by nothing, is not
    resolved as an answer; its tool is dispatched and the run goes on. *)
Lemma answer_marker_with_action_dispatches :
  contains examples.ANSWER_MARK Demo.reply_action_then_empty_answer = true
  /\ examples._parse_action Demo.ascii_only
       Demo.reply_action_then_empty_answer
     = Some {| examples.tool := u "calculator"; examples.arg := u "2+2" |}
  /\ exists st',
       react_agent.iteration_body Demo.ascii_only
         (Demo.scripted [Demo.reply_action_then_empty_answer]
            Demo.reply_thinking)
         (Demo.react Demo.calc_kit 5) 1
         (react_agent.initial_state (Demo.react Demo.calc_kit 5) (u "2+2"))
         Demo.start
       = (Ok (react_agent.Continue st'),
          Store tt
            [ ev_model
                (react_agent.messages
                   (react_agent.initial_state (Demo.react Demo.calc_kit 5)
                      (u "2+2")));
              ev_dispatch (u "calculator") (u "2+2") ]).
Proof.
  split; [vm_compute; reflexivity|].
  split; [vm_compute; reflexivity|].
  eexists. vm_compute. reflexivity.
Qed.

(** C3, as the code has it.  Let the model always return, never with an
    answer that is not empty, and never ask for a registered tool whose
    dispatch raises (one that declares no parameter, or whose first
    parameter is called [self]).  Then [run] asks the model once per iteration
    of [range(1, max_iterations + 1)], that is [max_iterations] times, or
    not at all when [max_iterations] is not positive, and returns the
    failure text with [success] false and [iterations] equal to
    [max_iterations]; when moreover no response parses as an action, the
    actions log returned is empty. *)
Theorem run_exhausts_budget :
  forall (World : Type) (ua : char -> bool)
         (llm : list message -> World -> result str * World)
         (self : react_agent.ReActAgent World) (task : str)
         (s : store World),
    (forall ms w, exists r w',
        llm ms w = (Ok r, w')
        /\ examples.truthy (examples._extract_answer r) = false
        /\ forall a t,
             examples._parse_action ua r = Some a ->
             dict_get (examples.tool a) (react_agent.toolkit self) = Some t ->
             examples.parameters t <> [] /\ keyword_binds t = true) ->
    exists log s',
      react_agent.run ua llm self task s
      = (Ok {| react_agent.answer := react_agent.FAILURE;
               react_agent.iterations := react_agent.max_iterations self;
               react_agent.actions := log;
               react_agent.success := false |}, s')
      /\ Z.of_nat (model_calls (trace s'))
         = (Z.of_nat (model_calls (trace s))
            + Z.max 0 (react_agent.max_iterations self))%Z
      /\ ((forall ms w r w', llm ms w = (Ok r, w') ->
                             examples._parse_action ua r = None) ->
          log = []).
Proof.
  intros World ua llm self task s H.
  destruct (LoopFacts.for_loop_exhausts World ua llm self H
              (range 1 (react_agent.max_iterations self + 1))
              (react_agent.initial_state self task) s)
    as (st' & s' & E & C & L).
  exists (react_agent.actions_log st'), s'. split; [|split].
  - unfold react_agent.run, Eff.bind. now rewrite E.
  - rewrite C, LoopFacts.length_range. lia.
  - intro N. now rewrite (L N).
Qed.

(** A script that is empty answers its default every time. *)
Lemma scripted_nil (d : str) (ms : list message) (w : Demo.World) :
  Demo.scripted [] d ms w = (Ok d, w).
Proof.
  unfold Demo.scripted. destruct ((List.length ms - 2) / 2); reflexivity.
Qed.

Lemma run_exhausts_budget_witness :
  (exists s',
      react_agent.run Demo.ascii_only
        (Demo.scripted [] Demo.reply_thinking)
        (Demo.react Demo.calc_kit 3) (u "2+2") Demo.start
      = (Ok {| react_agent.answer := react_agent.FAILURE;
               react_agent.iterations := 3;
               react_agent.actions := [];
               react_agent.success := false |}, s')
      /\ Z.of_nat (model_calls (trace s')) = 3%Z)
  /\ (exists log s',
         react_agent.run Demo.ascii_only
           (Demo.scripted [] Demo.reply_calc)
           (Demo.react Demo.calc_kit 3) (u "23 * 17 + 156") Demo.start
         = (Ok {| react_agent.answer := react_agent.FAILURE;
                  react_agent.iterations := 3;
                  react_agent.actions := log;
                  react_agent.success := false |}, s')
         /\ Z.of_nat (model_calls (trace s')) = 3%Z).
Proof.
  split.
  - destruct (@run_exhausts_budget Demo.World Demo.ascii_only
                (Demo.scripted [] Demo.reply_thinking)
                (Demo.react Demo.calc_kit 3) (u "2+2") Demo.start)
      as (log & s' & E & C & L).
    + intros ms w. exists Demo.reply_thinking, w.
      split; [|split].
      * apply scripted_nil.
      * vm_compute. reflexivity.
      * intros a t P. vm_compute in P. discriminate.
    + exists s'. rewrite E. split; [|exact C].
      rewrite L; [reflexivity|].
      intros ms w r w' X. rewrite scripted_nil in X.
      injection X as <- _. vm_compute. reflexivity.
  - destruct (@run_exhausts_budget Demo.World Demo.ascii_only
                (Demo.scripted [] Demo.reply_calc)
                (Demo.react Demo.calc_kit 3) (u "23 * 17 + 156")
                Demo.start)
      as (log & s' & E & C & _).
    + intros ms w. exists Demo.reply_calc, w.
      split; [|split].
      * apply scripted_nil.
      * vm_compute. reflexivity.
      * intros a t _ G.
        change (dict_get (examples.tool a)
                  [(u "calculator", Demo.calculator_tool)] = Some t) in G.
        cbn [dict_get] in G.
        destruct (str_eqb (examples.tool a) (u "calculator"));
          [|discriminate G].
        injection G as <-. split; [discriminate | reflexivity].
    + exists log, s'. split; [exact E | exact C].
Defined.

(** C3 as stated fails.  With a negative [max_iterations] the loop runs
    no iteration, so not [max_iterations] of them.  And when a response
    asks for a registered tool whose dispatch raises, the run ends with
    that exception and no result is returned: [IndexError] for a tool
    that declares no parameter (see C10), [TypeError] for a tool whose
    first parameter is called [self]. *)
Lemma run_budget_counterexamples :
  (react_agent.run Demo.ascii_only (Demo.scripted [] Demo.reply_thinking)
     (Demo.react Demo.calc_kit (-1)) (u "2+2") Demo.start
   = (Ok {| react_agent.answer := react_agent.FAILURE;
            react_agent.iterations := -1;
            react_agent.actions := [];
            react_agent.success := false |}, Demo.start)
   /\ Z.of_nat (model_calls (trace Demo.start)) <> (-1)%Z)
  /\ (examples.truthy (examples._extract_answer Demo.reply_ping) = false
      /\ (forall ms w,
             Demo.scripted [] Demo.reply_ping ms w = (Ok Demo.reply_ping, w))
      /\ fst (react_agent.run Demo.ascii_only
                (Demo.scripted [] Demo.reply_ping)
                (Demo.react Demo.ping_kit 3) (u "2+2") Demo.start)
         = Raise (Exc IndexError (u "list index out of range")))
  /\ (examples.truthy (examples._extract_answer Samples.reply_me) = false
      /\ (forall ms w,
             Demo.scripted [] Samples.reply_me ms w
             = (Ok Samples.reply_me, w))
      /\ fst (react_agent.run Demo.ascii_only
                (Demo.scripted [] Samples.reply_me)
                (Demo.react Samples.self_kit 3) (u "2+2") Demo.start)
         = Raise refused_self).
Proof.
  split; [split|split; split].
  - vm_compute. reflexivity.
  - vm_compute. discriminate.
  - vm_compute. reflexivity.
  - split.
    + intros ms w. apply scripted_nil.
    + vm_compute. reflexivity.
  - vm_compute. reflexivity.
  - split.
    + intros ms w. apply scripted_nil.
    + vm_compute. reflexivity.
Qed.

(** C9 as stated fails: the iteration can end the run.  The response
    asks for a registered tool that declares no parameter and ends with
    an [ANSWER:] that nothing follows; the answer is empty, the iteration
    goes on to the dispatch, and the dispatch raises [IndexError], which
    ends the run. *)
Lemma empty_answer_can_end_the_run :
  examples._extract_answer Samples.reply_ping_then_empty_answer = Some []
  /\ examples._parse_action Demo.ascii_only
       Samples.reply_ping_then_empty_answer
     = Some {| examples.tool := u "ping"; examples.arg := u "x" |}
  /\ fst (react_agent.iteration_body Demo.ascii_only
            (Demo.scripted [] Samples.reply_ping_then_empty_answer)
            (Demo.react Demo.ping_kit 3) 1
            (react_agent.initial_state (Demo.react Demo.ping_kit 3)
               (u "2+2"))
            Demo.start)
     = Raise (Exc IndexError (u "list index out of range"))
  /\ react_agent.run Demo.ascii_only
       (Demo.scripted [] Samples.reply_ping_then_empty_answer)
       (Demo.react Demo.ping_kit 3) (u "2+2") Demo.start
     = (Raise (Exc IndexError (u "list index out of range")),
        Store tt
          [ ev_model
              (react_agent.messages
                 (react_agent.initial_state (Demo.react Demo.ping_kit 3)
                    (u "2+2")));
            ev_dispatch (u "ping") (u "x") ]).
Proof. repeat split; vm_compute; reflexivity. Qed.

(** ** The evaluators *)

Module EvalFacts.

Section WithHost.

Variable h : Host.

(** *** tools/calculator.py *)

Lemma calculator_unknown_constant (id : str) :
  dict_get id calculator.CONSTANTS = None ->
  calculator._eval_node h (Name id)
  = Raise (Exc ValueError (u "Неизвестная константа: " ++ id)).
Proof. intro H. cbn [calculator._eval_node]. now rewrite H. Qed.

Lemma calculator_unknown_function (f : str) (args : list (expr (value h))) :
  dict_get f calculator.FUNCTIONS = None ->
  calculator._eval_node h (Call (Name f) args)
  = Raise (Exc ValueError
             (u "Неизвестная функция: " ++ f ++ u ". Доступны: "
                ++ join (u ", ") (dict_keys calculator.FUNCTIONS))).
Proof. intro H. cbn [calculator._eval_node]. now rewrite H. Qed.

Lemma map_eval_raises (args : list (expr (value h))) (a : expr (value h)) :
  In a args ->
  (exists e, calculator._eval_node h a = Raise e) ->
  exists e, map_result (calculator._eval_node h) args = Raise e.
Proof.
  induction args as [|b args IH]; intros Hin Ha; [destruct Hin|].
  cbn [map_result].
  destruct (calculator._eval_node h b) as [v|e] eqn:Eb.
  - destruct Hin as [->|Hin].
    + destruct Ha as [e Ha]. congruence.
    + destruct (IH Hin Ha) as [e He]. exists e. simpl. now rewrite He.
  - exists e. reflexivity.
Qed.

(** An expression that refers to an unknown identifier has no value. *)
Lemma calculator_unknown_never_evaluates (node : expr (value h)) :
  calculator.refers_unknown node ->
  exists e, calculator._eval_node h node = Raise e.
Proof.
  induction 1 as [id H | l o r _ [e IH] | l o r _ [e IH] | o x _ [e IH]
                  | f args H | func args a Hin _ IH].
  - rewrite (calculator_unknown_constant id H). eauto.
  - exists e. cbn [calculator._eval_node]. now rewrite IH.
  - cbn [calculator._eval_node]. rewrite IH.
    destruct (calculator._eval_node h l) as [v|e']; simpl; eauto.
  - exists e. cbn [calculator._eval_node]. now rewrite IH.
  - rewrite (calculator_unknown_function f args H). eauto.
  - destruct (map_eval_raises args a Hin IH) as [e He].
    cbn [calculator._eval_node].
    destruct func; eauto.
    destruct (dict_get id calculator.FUNCTIONS); eauto.
    exists e. now rewrite He.
Qed.

(** [safe_calculator] raises nothing but [ValueError]. *)
Lemma calculator_raises_only_ValueError (expression : str) (e : exc) :
  calculator.safe_calculator h expression = Raise e ->
  exc_type e = ValueError.
Proof.
  unfold calculator.safe_calculator.
  destruct expression as [|c t]; [intro H; now injection H as <-|].
  destruct (strip (c :: t)) as [|c' t']; [intro H; now injection H as <-|].
  destruct (bind_result _ _) as [v|e']; [discriminate|].
  destruct (exc_type e'); intro H; now injection H as <-.
Qed.

Lemma calculator_unknown_is_ValueError (expression : str)
    (tree : expr (value h)) :
  ast_parse h (strip expression) = Ok tree ->
  calculator.refers_unknown tree ->
  exists msg,
    calculator.safe_calculator h expression = Raise (Exc ValueError msg).
Proof.
  intros P U.
  destruct (calculator_unknown_never_evaluates tree U) as [e He].
  destruct (calculator.safe_calculator h expression) as [v|[c msg]] eqn:S.
  - exfalso. unfold calculator.safe_calculator in S.
    destruct expression as [|c t]; [discriminate|].
    destruct (strip (c :: t)) as [|c' t'] eqn:St; [discriminate|].
    rewrite P in S. simpl in S. rewrite He in S. simpl in S.
    destruct (exc_type e); discriminate.
  - apply calculator_raises_only_ValueError in S. simpl in S. subst c.
    now exists msg.
Qed.

(** A division by zero inside the guarded block comes out as the
    evaluator's own error. *)
Lemma calculator_wraps_zero_division (expression : str) (c : char)
    (t : str) (msg : str) :
  expression <> [] ->
  strip expression = c :: t ->
  bind_result (ast_parse h (c :: t))
    (fun tree =>
       bind_result (calculator._eval_node h tree) (fun r => float_ h r))
  = Raise (Exc ZeroDivisionError msg) ->
  calculator.safe_calculator h expression
  = Raise (Exc ValueError (u "Деление на ноль")).
Proof.
  intros Hne St Z. unfold calculator.safe_calculator.
  destruct expression as [|c0 t0]; [congruence|].
  rewrite St. cbv zeta. rewrite Z. reflexivity.
Qed.

(** *** The inline evaluator of the examples *)

Lemma inline_unknown_constant (id : str) :
  dict_get id examples.CONSTANTS = None ->
  examples._eval h (Name id) = Ok (int_ h 0).
Proof. intro H. cbn [examples._eval]. now rewrite H. Qed.

(** What the inline evaluator raises, [safe_calculator] raises
    unchanged. *)
Lemma inline_propagates (expression : str) (tree : expr (value h))
    (e : exc) :
  ast_parse h expression = Ok tree ->
  examples._eval h tree = Raise e ->
  examples.safe_calculator h expression = Raise e.
Proof.
  intros P E. unfold examples.safe_calculator. rewrite P. simpl.
  now rewrite E.
Qed.

End WithHost.

End EvalFacts.

(** C1 at examples/react_agent.py.  The inline [safe_calculator] gives an
    identifier outside its constants the value 0: [undefined_name]
    evaluates to [0.0].  A function outside its table is a [KeyError] of
    the host.  [safe_calculator] of tools/calculator.py rejects both
    with its own error. *)
Theorem inline_unknown_name_evaluates_to_zero :
  (forall h : Host,
      examples._eval h (Name (u "undefined_name")) = Ok (int_ h 0))
  /\ examples.safe_calculator ArithParser.py (u "undefined_name")
     = Ok (CPython.PyFloat (S754_zero false))
  /\ examples.safe_calculator ArithParser.py (u "unknown_func(1)")
     = Raise (Exc KeyError (u "'unknown_func'"))
  /\ calculator.safe_calculator ArithParser.py (u "undefined_name")
     = Raise (Exc ValueError
                (u "Ошибка вычисления 'undefined_name': Неизвестная константа: undefined_name"))
  /\ exists msg,
       calculator.safe_calculator ArithParser.py (u "unknown_func(1)")
       = Raise (Exc ValueError
                  (u "Ошибка вычисления 'unknown_func(1)': Неизвестная функция: unknown_func. Доступны: "
                     ++ msg)).
Proof.
  split; [|split; [|split; [|split]]].
  - intro h. apply EvalFacts.inline_unknown_constant.
    vm_compute. reflexivity.
  - vm_compute. reflexivity.
  - vm_compute. reflexivity.
  - vm_compute. reflexivity.
  - eexists. vm_compute. reflexivity.
Qed.

(** C7 at examples/react_agent.py.  The inline [safe_calculator] lets the
    host's [ZeroDivisionError] out on [10 / 0]; [safe_calculator] of
    tools/calculator.py turns it into its [ValueError]. *)
Theorem inline_division_by_zero_is_host_fault :
  examples.safe_calculator ArithParser.py (u "10 / 0")
  = Raise (Exc ZeroDivisionError (u "division by zero"))
  /\ calculator.safe_calculator ArithParser.py (u "10 / 0")
     = Raise (Exc ValueError (u "Деление на ноль")).
Proof. split; vm_compute; reflexivity. Qed.

(** ** The regular expressions and [_parse_action] *)

Module ParseFacts.

Import TextFacts examples Re.

Section WithUnicode.

Variable ua : char -> bool.

(** A greedy repetition runs through a stretch of its class that ends at
    a character outside it. *)
Lemma rep_greedy_run (R : Type) (k : cls) (xs s : str)
    (cont : str -> option R) (r : R) :
  forall lo,
    forallb (in_cls ua k) xs = true ->
    (forall c t, s = c :: t -> in_cls ua k c = false) ->
    lo <= List.length xs ->
    cont s = Some r ->
    rep_match ua k true lo None (xs ++ s) cont = Some r.
Proof.
  induction xs as [|x xs IH]; intros lo Hxs Hs Hlo Hc.
  - assert (lo = 0) by (simpl in Hlo; lia). subst lo. simpl.
    destruct s as [|c t]; [exact Hc|].
    cbn [rep_match]. rewrite (Hs c t eq_refl). exact Hc.
  - simpl in Hxs. apply andb_true_iff in Hxs as [Hx Hxs].
    cbn [app rep_match hi_open hi_pred]. rewrite Hx. cbn [andb].
    rewrite (IH (pred lo) Hxs Hs); [reflexivity | simpl in Hlo; lia | exact Hc].
Qed.

(** A lazy repetition stops at the first place where the rest of the
    pattern matches. *)
Lemma rep_lazy_run (R : Type) (k : cls) (xs s : str)
    (cont : str -> option R) (r : R) :
  forallb (in_cls ua k) xs = true ->
  (forall x1 x2, xs = x1 ++ x2 -> x2 <> [] -> cont (x2 ++ s) = None) ->
  cont s = Some r ->
  rep_match ua k false 0 None (xs ++ s) cont = Some r.
Proof.
  induction xs as [|x xs IH]; intros Hxs Hnone Hc.
  - simpl. destruct s as [|c t]; [exact Hc|].
    cbn [rep_match]. rewrite Hc. now destruct (in_cls ua k c && hi_open None).
  - simpl in Hxs. apply andb_true_iff in Hxs as [Hx Hxs].
    cbn [app rep_match hi_open hi_pred pred]. rewrite Hx. cbn [andb].
    change (x :: xs ++ s) with ((x :: xs) ++ s).
    rewrite (Hnone [] (x :: xs) eq_refl) by discriminate.
    apply IH; [exact Hxs | | exact Hc].
    intros x1 x2 E N. apply (Hnone (x :: x1) x2); [now rewrite E | exact N].
Qed.

(** A repetition fails when the rest of the pattern fails after every
    stretch of the class. *)
Lemma rep_none (R : Type) (k : cls) (g : bool) (s : str)
    (cont : str -> option R) :
  forall lo hi,
    (forall p s', s = p ++ s' -> forallb (in_cls ua k) p = true ->
                  cont s' = None) ->
    rep_match ua k g lo hi s cont = None.
Proof.
  induction s as [|c t IH]; intros lo hi H.
  - simpl. destruct lo; [|reflexivity]. now apply (H [] []).
  - assert (Stop : match lo with
                   | O => cont (c :: t)
                   | S _ => None
                   end = None).
    { destruct lo; [|reflexivity]. now apply (H [] (c :: t)). }
    cbn [rep_match].
    destruct (in_cls ua k c) eqn:Hc; cbn [andb]; [|exact Stop].
    destruct (hi_open hi); [|exact Stop].
    assert (More : rep_match ua k g (pred lo) (hi_pred hi) t cont = None).
    { apply IH. intros p s' E Hp. apply (H (c :: p) s').
      - now rewrite E.
      - simpl. now rewrite Hc. }
    destruct g; rewrite More, ?Stop; reflexivity.
Qed.

(** A pattern fails when what follows it fails on every rest of the
    text. *)
Lemma re_run_none (R : Type) (r : re) :
  forall (s : str) (caps : list str) (cont : str -> list str -> option R),
    (forall p s' caps', s = p ++ s' -> cont s' caps' = None) ->
    re_run ua r s caps cont = None.
Proof.
  induction r as [l | k lo hi g | body IH | a IHa b IHb];
    intros s caps cont H; cbn [re_run].
  - destruct (drop_prefix l s) as [s'|] eqn:E; [|reflexivity].
    apply (H l s' caps). now apply drop_prefix_inv.
  - apply rep_none. intros p s' E _. now apply (H p s' caps).
  - apply IH. intros p s' caps' E. now apply (H p s').
  - apply IHa. intros p s1 caps1 E. apply IHb.
    intros p' s' caps' E'. apply (H (p ++ p') s' caps').
    now rewrite E, E', app_assoc.
Qed.

Lemma re_seq_none (R : Type) (a b : re) (s : str) (caps : list str)
    (cont : str -> list str -> option R) :
  (forall p s1 caps1, s = p ++ s1 -> re_run ua b s1 caps1 cont = None) ->
  re_run ua (re_seq a b) s caps cont = None.
Proof.
  intro H. cbn [re_run]. apply re_run_none.
  intros p s' caps' E. now apply (H p s' caps').
Qed.

(** *** The quoted pattern needs a quote *)

Lemma quote_free_app (a b : str) :
  quote_free (a ++ b) = true <-> quote_free a = true /\ quote_free b = true.
Proof. unfold quote_free. rewrite forallb_app. apply andb_true_iff. Qed.

Lemma one_quote_none (R : Type) (s : str) (cont : str -> option R) :
  quote_free s = true ->
  rep_match ua (c_in quotes) true 1 (Some 1) s cont = None.
Proof.
  destruct s as [|c t]; [reflexivity|]. intro H.
  unfold quote_free in H. cbn [forallb] in H.
  apply andb_true_iff in H as [Hc _]. apply negb_true_iff in Hc.
  cbn [rep_match in_cls]. now rewrite Hc.
Qed.

Lemma pattern_quoted_no_match (s : str) :
  quote_free s = true -> re_match ua pattern_quoted s = None.
Proof.
  intro Q. unfold re_match, pattern_quoted, re_cat. cbn [fold_right].
  do 6 (apply re_seq_none; intros ? ? ? E; rewrite E in Q;
        apply quote_free_app in Q as [_ Q]; clear E).
  cbn [re_run one]. now apply one_quote_none.
Qed.

Lemma pattern_quoted_no_search (s : str) :
  quote_free s = true -> re_search ua pattern_quoted s = None.
Proof.
  induction s as [|c s IH]; intro Q; cbn [re_search];
    rewrite (pattern_quoted_no_match _ Q); [reflexivity|].
  apply IH. change (c :: s) with ([c] ++ s) in Q.
  now apply quote_free_app in Q.
Qed.

End WithUnicode.

End ParseFacts.

Module BareFacts.

Import TextFacts examples Re ParseFacts.

Section WithUnicode.

Variable ua : char -> bool.

Lemma firstn_consumed (xs t : str) :
  firstn (List.length (xs ++ t) - List.length t) (xs ++ t) = xs.
Proof.
  rewrite length_app.
  replace (List.length xs + List.length t - List.length t)
    with (List.length xs + 0) by lia.
  rewrite firstn_app_2. simpl. apply app_nil_r.
Qed.

Lemma u_lparen : u "(" = [lparen].
Proof. vm_compute. reflexivity. Qed.

Lemma u_rparen : u ")" = [rparen].
Proof. vm_compute. reflexivity. Qed.

Lemma plain_not_rparen (c : char) : plain c = true -> (rparen =? c)%N = false.
Proof.
  unfold plain. intro H. apply andb_true_iff in H as [H _].
  apply negb_true_iff in H. now rewrite N.eqb_sym.
Qed.

Lemma plain_dot (xs : str) :
  forallb plain xs = true -> forallb (in_cls ua c_dot) xs = true.
Proof.
  induction xs as [|c xs IH]; [reflexivity|]. simpl. intro H.
  apply andb_true_iff in H as [Hc Hxs]. rewrite IH by exact Hxs.
  unfold plain in Hc. apply andb_true_iff in Hc as [_ Hc].
  now rewrite Hc.
Qed.

(** After a text that ends in a character that is not white space and
    holds no closing parenthesis, white space and a closing parenthesis
    do not match before the text's end. *)
Lemma close_needs_end (R : Type) (x2' : str) (z : char) (rest : str)
    (K : str -> option R) :
  isspace z = false ->
  forallb plain (x2' ++ [z]) = true ->
  rep_match ua c_space true 0 None ((x2' ++ [z]) ++ [rparen] ++ rest)
    (fun s5 =>
       match drop_prefix (u ")") s5 with
       | Some s6 => K s6
       | None => None
       end)
  = None.
Proof.
  intros Hz Hplain. apply rep_none. intros p s' E Hp.
  assert (Hnot : forallb isspace (x2' ++ [z]) = true -> False).
  { rewrite forallb_app. simpl. rewrite Hz.
    rewrite andb_false_r. discriminate. }
  apply app_eq_app in E as [l [[E1 E2]|[E1 E2]]].
  - destruct l as [|c l].
    + exfalso. apply Hnot. rewrite E1, app_nil_r. exact Hp.
    + subst s'. rewrite u_rparen. cbn [app drop_prefix].
      rewrite plain_not_rparen; [reflexivity|].
      rewrite E1 in Hplain. rewrite forallb_app in Hplain.
      apply andb_true_iff in Hplain as [_ Hplain].
      simpl in Hplain. now apply andb_true_iff in Hplain as [Hplain _].
  - exfalso. apply Hnot. rewrite E1 in Hp. rewrite forallb_app in Hp.
    now apply andb_true_iff in Hp as [Hp _].
Qed.

(** The bare pattern at [ACTION:]: the name is the run of word
    characters, and the argument is read up to the first closing
    parenthesis. *)
Lemma pattern_bare_match (sp name a rest : str) :
  forallb isspace sp = true ->
  name <> [] ->
  forallb (fun c => isword ua c && negb (isspace c)) name = true ->
  a <> [] ->
  strip a = a ->
  forallb plain a = true ->
  re_match ua pattern_bare
    (u "ACTION:" ++ sp ++ name ++ [lparen] ++ a ++ [rparen] ++ rest)
  = Some [name; a].
Proof.
  intros Hsp Hname Hword Ha Hstrip Hplain.
  destruct (strip_if_ends isspace a) as [Hhead Hlast].
  fold (strip a) in Hhead, Hlast. rewrite Hstrip in Hhead, Hlast.
  assert (Hw : forallb (in_cls ua c_word) name = true
               /\ forall c t, name = c :: t -> isspace c = false).
  { split.
    - clear Hname. induction name as [|c t IH]; [reflexivity|].
      simpl in Hword |- *. apply andb_true_iff in Hword as [Hc Ht].
      apply andb_true_iff in Hc as [Hc _]. rewrite Hc. now apply IH.
    - intros c t ->. simpl in Hword.
      apply andb_true_iff in Hword as [Hc _].
      apply andb_true_iff in Hc as [_ Hc]. now apply negb_true_iff in Hc. }
  destruct Hw as [Hw Hnsp].
  unfold re_match, pattern_bare, re_cat.
  cbn [fold_right re_run star plus lazy_plus].
  rewrite drop_prefix_app.
  (* white space after the colon *)
  apply rep_greedy_run; [exact Hsp | | lia |].
  { destruct name as [|n0 name']; [congruence|].
    intros c t E. injection E as <- _. exact (Hnsp n0 name' eq_refl). }
  (* the name *)
  apply rep_greedy_run; [exact Hw | | destruct name; simpl; [congruence|lia] |].
  { intros c t E. injection E as <- _. reflexivity. }
  (* no white space before the parenthesis *)
  apply (rep_greedy_run ua (list str) c_space []); [reflexivity | | simpl; lia |].
  { intros c t E. injection E as <- _. reflexivity. }
  rewrite u_lparen. cbn [app drop_prefix]. rewrite N.eqb_refl.
  (* no white space before the argument *)
  apply (rep_greedy_run ua (list str) c_space []); [reflexivity | | simpl; lia |].
  { destruct a as [|x a']; [congruence|].
    intros c t E. injection E as <- _. exact (Hhead x a' eq_refl). }
  (* the argument *)
  destruct a as [|x a']; [congruence|].
  simpl in Hplain. apply andb_true_iff in Hplain as [Hx Hplain'].
  assert (Hxdot : in_cls ua c_dot x = true).
  { unfold plain in Hx. apply andb_true_iff in Hx as [_ Hx]. exact Hx. }
  cbn [app rep_match hi_open hi_pred pred]. rewrite Hxdot. cbn [andb].
  apply rep_lazy_run; [now apply plain_dot | |].
  - intros x1 x2 E N.
    destruct (exists_last N) as (x2' & z & ->).
    cbv beta. apply close_needs_end.
    + apply (Hlast z (x :: x1 ++ x2')). rewrite E.
      now rewrite app_comm_cons, app_assoc.
    + rewrite E in Hplain'. rewrite forallb_app in Hplain'.
      now apply andb_true_iff in Hplain' as [_ Hplain'].
  - apply (rep_greedy_run ua (list str) c_space []); [reflexivity | | simpl; lia |].
    { intros c t E. injection E as <- _. reflexivity. }
    rewrite u_rparen. cbn [app drop_prefix]. rewrite N.eqb_refl.
    exact (f_equal2 (fun p q => Some [p; q])
             (firstn_consumed name (lparen :: x :: a' ++ rparen :: rest))
             (firstn_consumed (x :: a') (rparen :: rest))).
Qed.

End WithUnicode.

End BareFacts.

Module ParseActionFacts.

Import TextFacts examples Re ParseFacts BareFacts.

Section WithUnicode.

Variable ua : char -> bool.

Lemma re_search_front (pattern : re) (s : str) (caps : list str) :
  re_match ua pattern s = Some caps -> re_search ua pattern s = Some caps.
Proof. intro H. destruct s; cbn [re_search]; now rewrite H. Qed.

Lemma parse_action_quoted (response : str) (m : list str) :
  re_search ua pattern_quoted response = Some m ->
  _parse_action ua response = Some (built m).
Proof.
  intro H. unfold _parse_action, patterns. cbn [first_match].
  now rewrite H.
Qed.

Lemma parse_action_bare (response : str) :
  re_search ua pattern_quoted response = None ->
  _parse_action ua response
  = match re_search ua pattern_bare response with
    | Some m => Some (built m)
    | None => None
    end.
Proof.
  intro H. unfold _parse_action, patterns. cbn [first_match].
  now rewrite H.
Qed.

(** The argument returned neither starts nor ends with a quote. *)
Lemma parse_action_strips_quotes (response : str) (act : Action) :
  _parse_action ua response = Some act ->
  (forall c t, arg act = c :: t -> mem_char c quotes = false)
  /\ (forall c t, arg act = t ++ [c] -> mem_char c quotes = false).
Proof.
  unfold _parse_action, patterns. cbn [first_match].
  destruct (re_search ua pattern_quoted response) as [m|].
  - intro H. injection H as <-. cbn [arg].
    apply (strip_if_ends (fun c => mem_char c quotes)).
  - destruct (re_search ua pattern_bare response) as [m|]; [|discriminate].
    intro H. injection H as <-. cbn [arg].
    apply (strip_if_ends (fun c => mem_char c quotes)).
Qed.

Lemma quote_free_ends (a : str) :
  quote_free a = true ->
  (forall c t, a = c :: t -> mem_char c quotes = false)
  /\ (forall c t, a = t ++ [c] -> mem_char c quotes = false).
Proof.
  intro Q. split; intros c t ->.
  - unfold quote_free in Q. cbn [forallb] in Q.
    apply andb_true_iff in Q as [Q _]. now apply negb_true_iff in Q.
  - apply quote_free_app in Q as [_ Q].
    unfold quote_free in Q. cbn [forallb] in Q.
    apply andb_true_iff in Q as [Q _]. now apply negb_true_iff in Q.
Qed.

(** A call in the bare form: the argument returned is the text between
    the opening parenthesis and the first closing one. *)
Lemma parse_action_bare_call (sp name a rest : str) :
  forallb isspace sp = true ->
  name <> [] ->
  forallb (fun c => isword ua c && negb (isspace c)) name = true ->
  a <> [] ->
  strip a = a ->
  forallb plain a = true ->
  quote_free (sp ++ name ++ [lparen] ++ a ++ [rparen] ++ rest) = true ->
  _parse_action ua
    (u "ACTION:" ++ sp ++ name ++ [lparen] ++ a ++ [rparen] ++ rest)
  = Some {| tool := name; arg := a |}.
Proof.
  intros Hsp Hname Hword Ha Hstrip Hplain Q.
  rewrite parse_action_bare.
  - rewrite (re_search_front _ _ _
               (pattern_bare_match ua sp name a rest Hsp Hname Hword Ha
                  Hstrip Hplain)).
    unfold built. cbn [group nth Nat.sub]. f_equal. f_equal.
    apply quote_free_app in Q as [_ Q]. apply quote_free_app in Q as [_ Q].
    apply quote_free_app in Q as [_ Q]. apply quote_free_app in Q as [Q _].
    destruct (quote_free_ends a Q) as [Qh Ql].
    unfold strip_chars. now apply strip_if_kept.
  - apply pattern_quoted_no_search. apply quote_free_app. split; [|exact Q].
    vm_compute. reflexivity.
Qed.

End WithUnicode.

End ParseActionFacts.

(** ** Runs of the source's own checks *)

(** The assertions of [test_calculator] in tools/calculator.py that need
    no transcendental function. *)
Lemma test_calculator_arithmetic :
  let calc s := calculator.safe_calculator ArithParser.py (u s) in
  let float z := CPython.py_float (CPython.PyInt z) in
  calc "2 + 2"%string = float 4%Z
  /\ calc "10 - 3"%string = float 7%Z
  /\ calc "5 * 3"%string = float 15%Z
  /\ calc "10 / 4"%string = Ok (CPython.PyFloat (CPython.div_round 5 2))
  /\ calc "2 ** 8"%string = float 256%Z
  /\ calc "10 // 3"%string = float 3%Z
  /\ calc "10 % 3"%string = float 1%Z
  /\ calc "-5"%string = float (-5)%Z
  /\ calc "--5"%string = float 5%Z
  /\ calc "sqrt(16)"%string = float 4%Z
  /\ calc "abs(-10)"%string = float 10%Z
  /\ calc "round(3.7)"%string = float 4%Z
  /\ calc "floor(3.7)"%string = float 3%Z
  /\ calc "ceil(3.2)"%string = float 4%Z
  /\ calc "2 + 3 * 4"%string = float 14%Z
  /\ calc "(2 + 3) * 4"%string = float 20%Z.
Proof. cbv zeta. repeat split; vm_compute; reflexivity. Qed.

(** The scenario of the specification: the model first asks for the
    calculator, the tool answers [547.0], the model then answers. *)
Lemma scenario_calculator_then_answer :
  fst (react_agent.run Demo.ascii_only
         (Demo.scripted [Demo.reply_calc; Demo.reply_answer]
            Demo.reply_thinking)
         (Demo.react Demo.calc_kit 5) (u "23 * 17 + 156") Demo.start)
  = Ok {| react_agent.answer := u "547";
          react_agent.iterations := 2;
          react_agent.actions :=
            [ {| react_agent.ar_iteration := 1;
                 react_agent.ar_tool := u "calculator";
                 react_agent.ar_arg := u "23*17+156";
                 react_agent.ar_result := u "547.0" |} ];
          react_agent.success := true |}.
Proof. vm_compute. reflexivity. Qed.

(* ===================================================================== *)
(** * Further properties                                                  *)
(* ===================================================================== *)

(** ** The registry: registration and lookup *)

Module RegistryLaws.

Import TextFacts RegistryFacts.

Lemma dict_get_set_other {V} (k k' : str) (v : V) (d : list (str * V)) :
  k' <> k -> dict_get k' (dict_set k v d) = dict_get k' d.
Proof.
  intro N. induction d as [|[k0 v0] d IH]; simpl.
  - apply str_eqb_neq in N. now rewrite N.
  - destruct (str_eqb k k0) eqn:E; simpl.
    + apply str_eqb_eq in E. subst k0.
      apply str_eqb_neq in N. now rewrite N.
    + now rewrite IH.
Qed.

Lemma dict_keys_set {V} (k : str) (v : V) (d : list (str * V)) :
  dict_keys (dict_set k v d)
  = if dict_mem k d then dict_keys d else dict_keys d ++ [k].
Proof.
  unfold dict_mem. induction d as [|[k0 v0] d IH]; simpl; [reflexivity|].
  destruct (str_eqb k k0) eqn:E; simpl.
  - apply str_eqb_eq in E. now subst.
  - rewrite IH. now destruct (dict_get k d).
Qed.

Lemma dict_mem_in {V} (k : str) (d : list (str * V)) :
  dict_mem k d = true <-> In k (dict_keys d).
Proof.
  unfold dict_mem. destruct (dict_get k d) eqn:E.
  - split; [intros _ | reflexivity].
    destruct (in_dec (list_eq_dec N.eq_dec) k (dict_keys d)) as [I|I];
      [exact I|].
    apply dict_get_none in I. congruence.
  - apply dict_get_none in E. split; [discriminate | tauto].
Qed.

Lemma dict_set_keeps_nodup {V} (k : str) (v : V) (d : list (str * V)) :
  NoDup (dict_keys d) -> NoDup (dict_keys (dict_set k v d)).
Proof.
  intro ND. rewrite dict_keys_set.
  destruct (dict_mem k d) eqn:E; [exact ND|].
  assert (I : ~ In k (dict_keys d)).
  { intro I. apply dict_mem_in in I. congruence. }
  apply NoDup_app; [exact ND | repeat constructor; intros [] |].
  intros x Hx [<-|[]]. exact (I Hx).
Qed.

Lemma find_last {A} (f : A -> bool) (l : list A) (a : A) :
  find f (l ++ [a])
  = match find f l with
    | Some x => Some x
    | None => if f a then Some a else None
    end.
Proof.
  induction l as [|b l IH]; simpl; [reflexivity|].
  now destruct (f b).
Qed.

Section WithWorld.

Variable World : Type.

#[local] Abbreviation Tool := (examples.Tool World).
#[local] Abbreviation ToolKit := (examples.ToolKit World).

Lemma lookup_register (tk : ToolKit) (t : Tool) (n : str) :
  dict_get n (examples.register tk t)
  = if str_eqb (examples.name t) n then Some t else dict_get n tk.
Proof.
  unfold examples.register.
  destruct (str_eqb (examples.name t) n) eqn:E.
  - apply str_eqb_eq in E. subst n. apply dict_get_set_same.
  - apply str_eqb_neq in E. apply dict_get_set_other. congruence.
Qed.

Lemma lookup_fold_register (ts : list Tool) :
  forall (acc : ToolKit) (n : str),
    dict_get n (fold_left (@examples.register World) ts acc)
    = match find (fun t => str_eqb (examples.name t) n) (rev ts) with
      | Some t => Some t
      | None => dict_get n acc
      end.
Proof.
  induction ts as [|t ts IH]; intros acc n; simpl; [reflexivity|].
  rewrite IH, find_last, lookup_register.
  destruct (find _ (rev ts)); [reflexivity|].
  now destruct (str_eqb (examples.name t) n).
Qed.

Lemma fold_register_nodup (ts : list Tool) :
  forall acc : ToolKit,
    NoDup (dict_keys acc) ->
    NoDup (dict_keys (fold_left (@examples.register World) ts acc)).
Proof.
  induction ts as [|t ts IH]; intros acc ND; simpl; [exact ND|].
  apply IH. now apply dict_set_keeps_nodup.
Qed.

Lemma fold_register_length (ts : list Tool) :
  forall acc : ToolKit,
    List.length (fold_left (@examples.register World) ts acc)
    <= List.length acc + List.length ts.
Proof.
  induction ts as [|t ts IH]; intros acc; simpl; [lia|].
  specialize (IH (examples.register acc t)).
  assert (L : List.length (examples.register acc t) <= S (List.length acc)).
  { unfold examples.register.
    rewrite <- (length_map fst (dict_set _ _ _)).
    fold (dict_keys (dict_set (examples.name t) t acc)).
    rewrite dict_keys_set. destruct (dict_mem _ _).
    - unfold dict_keys. rewrite length_map. lia.
    - rewrite length_app. unfold dict_keys. rewrite length_map. simpl. lia. }
  lia.
Qed.

(** Every key of a registry built by registration is the name of the
    tool stored under it. *)
Lemma fold_register_keys_are_names (ts : list Tool) :
  forall acc : ToolKit,
    Forall (fun kv => fst kv = examples.name (snd kv)) acc ->
    Forall (fun kv => fst kv = examples.name (snd kv))
           (fold_left (@examples.register World) ts acc).
Proof.
  induction ts as [|t ts IH]; intros acc F; simpl; [exact F|].
  apply IH. unfold examples.register.
  induction acc as [|[k v] acc IHa]; simpl.
  - repeat constructor.
  - inversion F as [|? ? Hk F']; subst.
    destruct (str_eqb (examples.name t) k).
    + constructor; [reflexivity | exact F'].
    + constructor; [exact Hk | now apply IHa].
Qed.

(** *** Dispatch *)

Lemma dict_keys_nil {V} (d : list (str * V)) : dict_keys d = [] -> d = [].
Proof. destruct d; [reflexivity | discriminate]. Qed.

Lemma Tool_execute_eq (t : Tool) (k arg : str) (s : store World) :
  str_eqb k (u "self") = false ->
  examples.Tool_execute t [(k, arg)] s
  = (Ok match fst (examples.func t [(k, arg)] (world s)) with
        | Ok r => r
        | Raise e => u "Ошибка: " ++ exc_str e
        end,
     Store (snd (examples.func t [(k, arg)] (world s))) (trace s)).
Proof.
  intro K. unfold examples.Tool_execute. cbn [find fst]. rewrite K.
  run_eff.
  now destruct (examples.func t [(k, arg)] (world s)) as [[r|e] w].
Qed.

Lemma react_execute_eq (tk : ToolKit) (name arg : str) (t : Tool)
    (k : str) (ks : list str) (s : store World) :
  dict_get name tk = Some t ->
  dict_keys (examples.parameters t) = k :: ks ->
  keyword_binds t = true ->
  react_agent.execute tk name arg s
  = (Ok match fst (examples.func t [(k, arg)] (world s)) with
        | Ok r => r
        | Raise e => u "Ошибка: " ++ exc_str e
        end,
     dispatched s name arg (snd (examples.func t [(k, arg)] (world s)))).
Proof.
  intros H P B. rewrite (keyword_binds_first World t k ks P) in B.
  apply negb_true_iff in B.
  unfold react_agent.execute.
  unfold Eff.bind, Eff.tell. rewrite H, P.
  rewrite Tool_execute_eq by exact B. reflexivity.
Qed.

Lemma research_execute_eq (tk : ToolKit) (name arg : str) (t : Tool)
    (k : str) (ks : list str) (s : store World) :
  dict_get name tk = Some t ->
  dict_keys (examples.parameters t) = k :: ks ->
  keyword_binds t = true ->
  research_agent.execute tk name arg s
  = (Ok match fst (examples.func t [(k, arg)] (world s)) with
        | Ok r => r
        | Raise e => u "Ошибка: " ++ exc_str e
        end,
     dispatched s name arg (snd (examples.func t [(k, arg)] (world s)))).
Proof.
  intros H P B. rewrite (keyword_binds_first World t k ks P) in B.
  apply negb_true_iff in B.
  unfold research_agent.execute.
  unfold Eff.bind, Eff.tell. rewrite H, P.
  rewrite Tool_execute_eq by exact B. reflexivity.
Qed.

(** Whatever the outcome, a dispatch adds one event to the trace, and the
    only exceptions are the [IndexError] of a tool without parameters and
    the [TypeError] of a tool whose first parameter is called [self]. *)
Lemma react_execute_cases (tk : ToolKit) (name arg : str)
    (s : store World) :
  exists r w,
    react_agent.execute tk name arg s = (r, dispatched s name arg w)
    /\ match r with
       | Ok _ => True
       | Raise e =>
         exists t,
           dict_get name tk = Some t
           /\ ((e = Exc IndexError (u "list index out of range")
                /\ examples.parameters t = [])
               \/ (e = refused_self /\ keyword_binds t = false))
       end.
Proof.
  destruct (dict_get name tk) as [t|] eqn:H.
  - destruct (dict_keys (examples.parameters t)) as [|k ks] eqn:P.
    + apply dict_keys_nil in P.
      rewrite (react_execute_no_parameters World tk name arg t s H P).
      eexists _, _. split; [reflexivity|].
      exists t. split; [reflexivity|]. now left.
    + destruct (keyword_binds t) eqn:B.
      * rewrite (react_execute_eq tk name arg t k ks s H P B).
        eexists _, _. split; [reflexivity | exact I].
      * rewrite (react_execute_self World tk name arg t s H B).
        eexists _, _. split; [reflexivity|].
        exists t. split; [reflexivity|]. now right.
  - rewrite (react_execute_not_found World tk name arg s H).
    eexists _, _. split; [reflexivity | exact I].
Qed.

Lemma research_execute_cases (tk : ToolKit) (name arg : str)
    (s : store World) :
  exists r w,
    research_agent.execute tk name arg s = (r, dispatched s name arg w)
    /\ match r with
       | Ok _ => True
       | Raise e =>
         exists t,
           dict_get name tk = Some t
           /\ ((e = Exc IndexError (u "list index out of range")
                /\ examples.parameters t = [])
               \/ (e = refused_self /\ keyword_binds t = false))
       end.
Proof.
  destruct (dict_get name tk) as [t|] eqn:H.
  - destruct (dict_keys (examples.parameters t)) as [|k ks] eqn:P.
    + apply dict_keys_nil in P.
      rewrite (research_execute_no_parameters World tk name arg t s H P).
      eexists _, _. split; [reflexivity|].
      exists t. split; [reflexivity|]. now left.
    + destruct (keyword_binds t) eqn:B.
      * rewrite (research_execute_eq tk name arg t k ks s H P B).
        eexists _, _. split; [reflexivity | exact I].
      * rewrite (research_execute_self World tk name arg t s H B).
        eexists _, _. split; [reflexivity|].
        exists t. split; [reflexivity|]. now right.
  - rewrite (research_execute_not_found World tk name arg s H).
    eexists _, _. split; [reflexivity | exact I].
Qed.

(** A tool that is found is one of the values of the registry. *)
Lemma found_binds (tk : ToolKit) (name : str) (t : Tool) :
  forallb keyword_binds (dict_values tk) = true ->
  dict_get name tk = Some t ->
  keyword_binds t = true.
Proof.
  intros F H. rewrite forallb_forall in F. apply F.
  clear F. induction tk as [|[k v] tk IH]; [discriminate H|].
  cbn [dict_get] in H. cbn [dict_values map snd].
  destruct (str_eqb name k).
  - injection H as ->. now left.
  - right. now apply IH.
Qed.

End WithWorld.

End RegistryLaws.

(** X1.  Lookup after any sequence of registrations: the registry holds,
    under a name, the tool registered last under that name, and nothing
    under a name that was never registered. *)
Theorem lookup_finds_last_registered :
  forall (World : Type) (ts : list (examples.Tool World)) (n : str),
    dict_get n (registered ts)
    = find (fun t => str_eqb (examples.name t) n) (rev ts).
Proof.
  intros World ts n. unfold registered.
  rewrite RegistryLaws.lookup_fold_register.
  now destruct (find _ (rev ts)).
Qed.

(** X2.  Registration keeps one entry per name: registering under a name
    that is present replaces the tool in place and adds no key, registering
    under a new name appends the key; so a registry built by registration
    never holds a name twice, holds at most as many tools as were
    registered, and every key is the name of its tool. *)
Theorem register_keeps_one_entry_per_name :
  forall World : Type,
    (forall (tk : examples.ToolKit World) (t : examples.Tool World),
        dict_keys (examples.register tk t)
        = if dict_mem (examples.name t) tk
          then dict_keys tk
          else dict_keys tk ++ [examples.name t])
    /\ (forall ts : list (examples.Tool World),
           NoDup (dict_keys (registered ts))
           /\ List.length (registered ts) <= List.length ts
           /\ Forall (fun kv => fst kv = examples.name (snd kv))
                     (registered ts)).
Proof.
  intro World. split.
  - intros tk t. apply RegistryLaws.dict_keys_set.
  - intro ts. unfold registered. split; [|split].
    + apply RegistryLaws.fold_register_nodup. constructor.
    + apply (RegistryLaws.fold_register_length World ts
               (examples.ToolKit_init World)).
    + apply RegistryLaws.fold_register_keys_are_names. constructor.
Qed.

(** X3.  Dispatch of a registered tool that declares a parameter, in
    react_agent.py and in research_agent.py, the first parameter not being
    called [self]: the tool's callable is called once, with the argument
    under the tool's first parameter name as its only keyword argument;
    what it returns is the observation, and an exception [e] of the
    callable becomes the observation [Ошибка: ] followed by [str(e)].
    The dispatch itself does not raise. *)
Theorem dispatch_passes_first_parameter :
  forall (World : Type) (tk : examples.ToolKit World) (name arg : str)
         (t : examples.Tool World) (k : str) (ks : list str)
         (s : store World),
    dict_get name tk = Some t ->
    dict_keys (examples.parameters t) = k :: ks ->
    keyword_binds t = true ->
    let out := examples.func t [(k, arg)] (world s) in
    let observation :=
      match fst out with
      | Ok r => r
      | Raise e => u "Ошибка: " ++ exc_str e
      end in
    react_agent.execute tk name arg s
    = (Ok observation, dispatched s name arg (snd out))
    /\ research_agent.execute tk name arg s
       = (Ok observation, dispatched s name arg (snd out)).
Proof.
  intros World tk name arg t k ks s H P B. cbv zeta. split.
  - apply (RegistryLaws.react_execute_eq World tk name arg t k ks s H P B).
  - apply (RegistryLaws.research_execute_eq World tk name arg t k ks s H P
             B).
Qed.

Lemma dispatch_passes_first_parameter_witness :
  react_agent.execute Demo.calc_kit (u "calculator") (u "1/0") Demo.start
  = (Ok (u "Ошибка: division by zero"),
     dispatched Demo.start (u "calculator") (u "1/0") tt)
  /\ research_agent.execute Demo.calc_kit (u "calculator") (u "1/0")
       Demo.start
     = (Ok (u "Ошибка: division by zero"),
        dispatched Demo.start (u "calculator") (u "1/0") tt).
Proof.
  exact (dispatch_passes_first_parameter Demo.World Demo.calc_kit
           (u "calculator") (u "1/0") Demo.calculator_tool
           (u "expression") [] Demo.start eq_refl eq_refl eq_refl).
Defined.

(** X4.  What a dispatch never does.  Over a registry in which no tool
    has [self] as its first parameter, [ToolKit.execute] of either file
    raises nothing but the [IndexError] of taking the first parameter of a
    registered tool whose [parameters] mapping is empty; whatever the
    tool's callable does, and for every name that is not registered, it
    returns.  Returning or raising, it is one dispatch in the trace. *)
Theorem dispatch_raises_only_for_parameterless_tool :
  forall (World : Type) (tk : examples.ToolKit World) (name arg : str)
         (s s' : store World) (e : exc),
    forallb keyword_binds (dict_values tk) = true ->
    react_agent.execute tk name arg s = (Raise e, s')
    \/ research_agent.execute tk name arg s = (Raise e, s') ->
    e = Exc IndexError (u "list index out of range")
    /\ (exists t, dict_get name tk = Some t /\ examples.parameters t = [])
    /\ trace s' = trace s ++ [ev_dispatch name arg].
Proof.
  intros World tk name arg s s' e F [H|H].
  - destruct (RegistryLaws.react_execute_cases World tk name arg s)
      as (r & w & E & C).
    rewrite E in H. injection H as -> <-.
    destruct C as (t & G & [[-> P]|[_ B]]).
    + repeat split. now exists t.
    + rewrite (RegistryLaws.found_binds World tk name t F G) in B.
      discriminate B.
  - destruct (RegistryLaws.research_execute_cases World tk name arg s)
      as (r & w & E & C).
    rewrite E in H. injection H as -> <-.
    destruct C as (t & G & [[-> P]|[_ B]]).
    + repeat split. now exists t.
    + rewrite (RegistryLaws.found_binds World tk name t F G) in B.
      discriminate B.
Qed.

Lemma dispatch_raises_only_for_parameterless_tool_witness :
  Exc IndexError (u "list index out of range")
  = Exc IndexError (u "list index out of range")
  /\ (exists t, dict_get (u "ping") Demo.ping_kit = Some t
                /\ examples.parameters t = [])
  /\ trace (dispatched Demo.start (u "ping") (u "x") tt)
     = trace Demo.start ++ [ev_dispatch (u "ping") (u "x")].
Proof.
  exact (dispatch_raises_only_for_parameterless_tool Demo.World
           Demo.ping_kit (u "ping") (u "x") Demo.start
           (dispatched Demo.start (u "ping") (u "x") tt)
           (Exc IndexError (u "list index out of range"))
           eq_refl (or_introl eq_refl)).
Defined.

(** ** The system prompt and the answer marker *)

Module PromptFacts.

Import TextFacts AnswerFacts.

Lemma dict_get_in_values {V} (k : str) (v : V) (d : list (str * V)) :
  dict_get k d = Some v -> In v (dict_values d).
Proof.
  induction d as [|[k0 v0] d IH]; simpl; [discriminate|].
  destruct (str_eqb k k0).
  - intro H. injection H as ->. now left.
  - intro H. right. now apply IH.
Qed.

(** An element of a joined list stands in the joined text. *)
Lemma join_holds {A} (sep : str) (f : A -> str) (x : A) (l : list A) :
  In x l -> exists pre post, join sep (map f l) = pre ++ f x ++ post.
Proof.
  induction l as [|a l IH]; [intros []|].
  intros [->|I].
  - exists []. destruct l as [|b l].
    + exists []. simpl. now rewrite app_nil_r.
    + exists (sep ++ join sep (map f (b :: l))). reflexivity.
  - destruct (IH I) as (pre & post & E).
    destruct l as [|b l]; [destruct I|].
    exists (f a ++ sep ++ pre), post.
    change (join sep (map f (a :: b :: l)))
      with (f a ++ sep ++ join sep (map f (b :: l))).
    rewrite E. now rewrite <- !app_assoc.
Qed.

Lemma contains_suffix (sep a b : str) :
  contains sep (a ++ b) = false -> contains sep b = false.
Proof.
  induction a as [|c a IH]; [auto|].
  rewrite <- app_comm_cons. intro H.
  apply contains_cons in H as [_ H]. auto.
Qed.

(** A text that holds [sep] splits at the last place where it stands. *)
Lemma last_occurrence (sep : str) :
  sep <> [] ->
  forall s,
    contains sep s = true ->
    exists pre post, s = pre ++ sep ++ post /\ contains sep post = false.
Proof.
  intros NE s. induction s as [|c t IH]; intro H.
  - destruct sep; [congruence | discriminate H].
  - destruct (contains sep t) eqn:T.
    + destruct (IH eq_refl) as (pre & post & -> & P).
      now exists (c :: pre), post.
    + cbn [contains] in H.
      destruct (drop_prefix sep (c :: t)) as [post|] eqn:D;
        [|congruence].
      apply drop_prefix_inv in D. exists [], post. split; [exact D|].
      destruct sep as [|x sep]; [congruence|].
      injection D as _ D. subst t. now apply contains_suffix in T.
Qed.

Lemma ANSWER_MARK_nonempty : examples.ANSWER_MARK <> [].
Proof. rewrite ANSWER_MARK_chars. discriminate. Qed.

End PromptFacts.

(** X5.  Construction of an agent, in react_agent.py and in
    research_agent.py: without an API key (the variable unset or empty)
    [__init__] raises [ValueError] and builds nothing; with a key it keeps
    the registry and the iteration budget it was given, and its system
    prompt holds the [describe] line of every tool that can be looked up
    in the registry, so the model is told of every tool that a dispatch
    can reach. *)
Theorem prompt_lists_every_registered_tool :
  forall (World : Type) (api_key : option str)
         (tk : examples.ToolKit World) (n : Z),
    match react_agent.__init__ api_key tk n with
    | Raise e =>
      examples.truthy api_key = false
      /\ e = Exc ValueError (u "Не найден OPENROUTER_API_KEY")
    | Ok agent =>
      examples.truthy api_key = true
      /\ react_agent.toolkit agent = tk
      /\ react_agent.max_iterations agent = n
      /\ forall name t,
           dict_get name tk = Some t ->
           contains (tool_line t) (react_agent.system_prompt agent) = true
    end
    /\ match research_agent.__init__ api_key tk n with
       | Raise e =>
         examples.truthy api_key = false
         /\ e = Exc ValueError (u "Не найден OPENROUTER_API_KEY")
       | Ok agent =>
         examples.truthy api_key = true
         /\ research_agent.toolkit agent = tk
         /\ research_agent.max_iterations agent = n
         /\ forall name t,
              dict_get name tk = Some t ->
              contains (tool_line t) (research_agent.system_prompt agent)
              = true
       end.
Proof.
  intros World api_key tk n.
  assert (L : forall name t head tail,
             dict_get name tk = Some t ->
             contains (tool_line t)
               (head ++ examples.describe tk ++ tail) = true).
  { intros name t head tail H.
    apply PromptFacts.dict_get_in_values in H.
    destruct (PromptFacts.join_holds [newline] (@tool_line World) t
                (dict_values tk) H) as (pre & post & E).
    unfold examples.describe.
    change (map _ (dict_values tk))
      with (map (@tool_line World) (dict_values tk)).
    rewrite E.
    replace (head ++ (pre ++ tool_line t ++ post) ++ tail)
      with ((head ++ pre) ++ tool_line t ++ (post ++ tail))
      by (now rewrite <- !app_assoc).
    apply AnswerFacts.contains_app. }
  split.
  - unfold react_agent.__init__.
    destruct api_key as [[|c k]|];
      cbn [examples.truthy react_agent.toolkit react_agent.max_iterations
           react_agent.system_prompt]; auto.
    repeat split. intros name t H. now apply L with name.
  - unfold research_agent.__init__.
    destruct api_key as [[|c k]|];
      cbn [examples.truthy research_agent.toolkit
           research_agent.max_iterations research_agent.system_prompt];
      auto.
    repeat split. intros name t H. now apply L with name.
Qed.

(** X6.  [_extract_answer] in full: it returns nothing exactly when the
    response does not hold [ANSWER:]; otherwise the response splits at the
    last [ANSWER:] in it and the answer is the text after that marker with
    the white space at both ends removed, so that an answer never starts
    or ends with white space. *)
Theorem extract_answer_is_text_after_last_marker :
  forall response : str,
    match examples._extract_answer response with
    | None => contains examples.ANSWER_MARK response = false
    | Some a =>
      contains examples.ANSWER_MARK response = true
      /\ (exists pre post,
             response = pre ++ examples.ANSWER_MARK ++ post
             /\ contains examples.ANSWER_MARK post = false
             /\ a = strip post)
      /\ (forall c t, a = c :: t -> isspace c = false)
      /\ (forall c t, a = t ++ [c] -> isspace c = false)
    end.
Proof.
  intro response.
  destruct (contains examples.ANSWER_MARK response) eqn:C.
  - destruct (PromptFacts.last_occurrence examples.ANSWER_MARK
                PromptFacts.ANSWER_MARK_nonempty response C)
      as (pre & post & -> & P).
    rewrite (AnswerFacts.extract_answer_after_last_marker pre post P).
    split; [reflexivity|]. split; [now exists pre, post|].
    apply (TextFacts.strip_if_ends isspace post).
  - now rewrite (AnswerFacts.extract_answer_absent response C).
Qed.

(** ** What a match of the action patterns holds *)

Module ParseInversion.

Import TextFacts examples Re ParseFacts BareFacts.

Section WithUnicode.

Variable ua : char -> bool.

(** A repetition that matches has read a stretch of its class. *)
Lemma rep_match_inv (R : Type) (k : cls) (g : bool) (s : str)
    (cont : str -> option R) (r : R) :
  forall lo hi,
    rep_match ua k g lo hi s cont = Some r ->
    exists p s',
      s = p ++ s' /\ forallb (in_cls ua k) p = true
      /\ lo <= List.length p /\ cont s' = Some r.
Proof.
  induction s as [|c t IH]; intros lo hi H.
  - simpl in H. destruct lo; [|discriminate].
    exists [], []. repeat split; [lia | exact H].
  - assert (Stop : match lo with
                   | O => cont (c :: t)
                   | S _ => None
                   end = Some r ->
                   exists p s',
                     c :: t = p ++ s' /\ forallb (in_cls ua k) p = true
                     /\ lo <= List.length p /\ cont s' = Some r).
    { destruct lo; [|discriminate]. intro E.
      exists [], (c :: t). repeat split; [lia | exact E]. }
    assert (More : rep_match ua k g (pred lo) (hi_pred hi) t cont = Some r ->
                   in_cls ua k c = true ->
                   exists p s',
                     c :: t = p ++ s' /\ forallb (in_cls ua k) p = true
                     /\ lo <= List.length p /\ cont s' = Some r).
    { intros M Hc. destruct (IH _ _ M) as (p & s' & E & Hp & Hlo & Hk).
      exists (c :: p), s'. repeat split.
      - now rewrite E.
      - simpl. now rewrite Hc.
      - simpl. lia.
      - exact Hk. }
    cbn [rep_match] in H.
    destruct (in_cls ua k c) eqn:Hc; cbn [andb] in H; [|now apply Stop].
    destruct (hi_open hi); [|now apply Stop].
    destruct g.
    + destruct (rep_match ua k true (pred lo) (hi_pred hi) t cont)
        as [r'|] eqn:M.
      * injection H as ->. now apply More.
      * now apply Stop.
    + destruct (match lo with O => cont (c :: t) | S _ => None end)
        as [r'|] eqn:St.
      * injection H as ->. now apply Stop.
      * now apply More.
Qed.

Lemma u_ACTION : u "ACTION:" = [65; 67; 84; 73; 79; 78; 58]%N.
Proof. vm_compute. reflexivity. Qed.

(** The part that the two patterns share: [ACTION:], white space, the
    group of word characters, white space, the opening parenthesis and
    white space. *)
Lemma action_head_inv (R : Type) (tail : list re) (s : str)
    (K : str -> list str -> option R) (x : R) :
  re_run ua
    (re_cat (re_lit (u "ACTION:") :: star c_space
               :: re_group (plus c_word) :: star c_space
               :: re_lit (u "(") :: star c_space :: tail))
    s [] K = Some x ->
  exists name s',
    name <> [] /\ forallb (isword ua) name = true
    /\ (exists rest, drop_prefix (u "ACTION:") s = Some rest)
    /\ re_run ua (re_cat tail) s' [name] K = Some x.
Proof.
  unfold re_cat. cbn [fold_right re_run star plus]. intro H.
  destruct (drop_prefix (u "ACTION:") s) as [s0|] eqn:D; [|discriminate].
  apply rep_match_inv in H as (p1 & s1 & -> & _ & _ & H).
  apply rep_match_inv in H as (name & s2 & -> & Hname & Hlen & H).
  rewrite firstn_consumed in H. cbn [app] in H.
  apply rep_match_inv in H as (p3 & s3 & -> & _ & _ & H).
  destruct (drop_prefix (u "(") s3) as [s4|] eqn:D4; [|discriminate].
  apply rep_match_inv in H as (p5 & s5 & -> & _ & _ & H).
  exists name, s5. repeat split.
  - destruct name; [simpl in Hlen; lia | discriminate].
  - exact Hname.
  - now exists (p1 ++ name ++ p3 ++ s3).
  - exact H.
Qed.

Lemma pattern_quoted_inv (s : str) (m : list str) :
  re_match ua pattern_quoted s = Some m ->
  exists name a,
    m = [name; a] /\ name <> [] /\ forallb (isword ua) name = true
    /\ quote_free a = true
    /\ exists rest, drop_prefix (u "ACTION:") s = Some rest.
Proof.
  unfold re_match, pattern_quoted. intro H.
  apply action_head_inv in H as (name & s' & N & W & A & H).
  unfold re_cat in H. cbn [fold_right re_run one star opt] in H.
  apply rep_match_inv in H as (q1 & s1 & -> & _ & _ & H).
  apply rep_match_inv in H as (a & s2 & -> & Ha & _ & H).
  rewrite firstn_consumed in H. cbn [app] in H.
  apply rep_match_inv in H as (q2 & s3 & -> & _ & _ & H).
  apply rep_match_inv in H as (p4 & s4 & -> & _ & _ & H).
  destruct (drop_prefix (u ")") s4) as [s5|]; [|discriminate].
  injection H as <-.
  exists name, a. repeat split; auto.
Qed.

Lemma dot_no_newline (a : str) :
  forallb (in_cls ua c_dot) a = true -> mem_char newline a = false.
Proof.
  induction a as [|c a IH]; [reflexivity|].
  cbn [forallb in_cls]. intro H.
  apply andb_true_iff in H as [Hc Ha].
  unfold mem_char in IH |- *. cbn [existsb]. rewrite (IH Ha).
  apply negb_true_iff in Hc. rewrite N.eqb_sym. now rewrite Hc.
Qed.

Lemma pattern_bare_inv (s : str) (m : list str) :
  re_match ua pattern_bare s = Some m ->
  exists name a,
    m = [name; a] /\ name <> [] /\ forallb (isword ua) name = true
    /\ a <> [] /\ mem_char newline a = false
    /\ exists rest, drop_prefix (u "ACTION:") s = Some rest.
Proof.
  unfold re_match, pattern_bare. intro H.
  apply action_head_inv in H as (name & s' & N & W & A & H).
  unfold re_cat in H. cbn [fold_right re_run lazy_plus star] in H.
  apply rep_match_inv in H as (a & s1 & -> & Ha & La & H).
  rewrite firstn_consumed in H. cbn [app] in H.
  apply rep_match_inv in H as (p2 & s2 & -> & _ & _ & H).
  destruct (drop_prefix (u ")") s2) as [s3|]; [|discriminate].
  injection H as <-.
  exists name, a. repeat split; auto.
  - destruct a; [simpl in La; lia | discriminate].
  - now apply dot_no_newline.
Qed.

Lemma re_search_inv (pattern : re) (s : str) (m : list str) :
  re_search ua pattern s = Some m ->
  exists pre suf, s = pre ++ suf /\ re_match ua pattern suf = Some m.
Proof.
  induction s as [|c s IH]; cbn [re_search].
  - destruct (re_match ua pattern []) as [m'|] eqn:E; [|discriminate].
    intro H. injection H as ->. now exists [], [].
  - destruct (re_match ua pattern (c :: s)) as [m'|] eqn:E.
    + intro H. injection H as ->. now exists [], (c :: s).
    + intro H. destruct (IH H) as (pre & suf & -> & M).
      now exists (c :: pre), suf.
Qed.

Lemma contains_at (sep pre suf rest : str) :
  drop_prefix sep suf = Some rest -> contains sep (pre ++ suf) = true.
Proof.
  intro D. apply drop_prefix_inv in D. subst suf.
  apply AnswerFacts.contains_app.
Qed.

(** Stripping characters removes none from a text that holds none. *)
Lemma strip_quote_free (a : str) :
  quote_free a = true -> strip_chars quotes a = a.
Proof.
  intro Q. destruct (ParseActionFacts.quote_free_ends a Q) as [Qh Ql].
  unfold strip_chars. now apply strip_if_kept.
Qed.

(** What is left of a text after stripping holds no character that the
    text did not hold. *)
Lemma lstrip_if_keeps_absent (p : char -> bool) (c : char) (s : str) :
  mem_char c s = false -> mem_char c (lstrip_if p s) = false.
Proof.
  induction s as [|x s IH]; [auto|]. intro H. cbn [lstrip_if].
  destruct (p x); [|exact H].
  apply IH. unfold mem_char in H |- *. cbn [existsb] in H.
  now apply orb_false_iff in H as [_ H].
Qed.

Lemma mem_char_rev (c : char) (s : str) :
  mem_char c (rev s) = mem_char c s.
Proof.
  unfold mem_char. induction s as [|x s IH]; [reflexivity|].
  cbn [rev]. rewrite existsb_app. cbn [existsb].
  rewrite orb_false_r, orb_comm. apply f_equal. exact IH.
Qed.

Lemma strip_if_keeps_absent (p : char -> bool) (c : char) (s : str) :
  mem_char c s = false -> mem_char c (strip_if p s) = false.
Proof.
  intro H. unfold strip_if, rstrip_if. rewrite mem_char_rev.
  apply lstrip_if_keeps_absent. rewrite mem_char_rev.
  now apply lstrip_if_keeps_absent.
Qed.

(** *** The quoted form, read forward *)

(** No [ACTION:] starts inside a text without one and runs into an
    [ACTION:] that follows it. *)
Lemma action_no_overlap (c : char) (pre post : str) (r : str) :
  contains (u "ACTION:") (c :: pre) = false ->
  drop_prefix (u "ACTION:") ((c :: pre) ++ u "ACTION:" ++ post) = Some r ->
  False.
Proof.
  rewrite !u_ACTION. intros C D.
  apply AnswerFacts.contains_cons in C as [C _].
  revert C D.
  destruct pre as [|c1 [|c2 [|c3 [|c4 [|c5 [|c6 pre]]]]]];
    cbn [app drop_prefix];
    repeat match goal with
           | |- context [(?a =? ?b)%N] =>
             destruct (N.eqb_spec a b); try subst; try discriminate
           end;
    try congruence.
Qed.

Lemma re_search_skip (pattern : re) (pre text : str) :
  (forall s m, re_match ua pattern s = Some m ->
               exists rest, drop_prefix (u "ACTION:") s = Some rest) ->
  contains (u "ACTION:") pre = false ->
  (exists post, text = u "ACTION:" ++ post) ->
  re_search ua pattern (pre ++ text) = re_search ua pattern text.
Proof.
  intros P C [post ->]. induction pre as [|c pre IH]; [reflexivity|].
  rewrite <- app_comm_cons. cbn [re_search].
  destruct (re_match ua pattern (c :: pre ++ u "ACTION:" ++ post))
    as [m|] eqn:M.
  - exfalso. destruct (P _ _ M) as [r D].
    exact (action_no_overlap c pre post r C D).
  - apply IH. now apply AnswerFacts.contains_cons in C as [_ C].
Qed.

Lemma is_quote (q : char) (s : str) :
  mem_char q quotes = true ->
  forall c t, q :: s = c :: t -> in_cls ua (c_not_in quotes) c = false.
Proof.
  intros Q c t E. injection E as <- _. cbn [in_cls]. now rewrite Q.
Qed.

(** A repetition of at most one character takes the character that is
    there when the rest of the pattern matches after it. *)
Lemma rep_take_one (R : Type) (k : cls) (c : char) (t : str) (lo : nat)
    (cont : str -> option R) (r : R) :
  in_cls ua k c = true ->
  lo <= 1 ->
  cont t = Some r ->
  rep_match ua k true lo (Some 1) (c :: t) cont = Some r.
Proof.
  intros Hc Hlo Hk. cbn [rep_match hi_open hi_pred]. rewrite Hc. cbn [andb].
  assert (E : rep_match ua k true (pred lo) (Some (pred 1)) t cont = cont t).
  { destruct t as [|x t]; cbn [rep_match hi_open pred];
      rewrite ?andb_false_r; destruct lo as [|[|lo]]; try lia; reflexivity. }
  now rewrite E, Hk.
Qed.

Lemma pattern_quoted_match (sp name a rest : str) (q1 q2 : char) :
  forallb isspace sp = true ->
  name <> [] ->
  forallb (fun c => isword ua c && negb (isspace c)) name = true ->
  mem_char q1 quotes = true ->
  mem_char q2 quotes = true ->
  quote_free a = true ->
  re_match ua pattern_quoted
    (u "ACTION:" ++ sp ++ name ++ [lparen] ++ [q1] ++ a ++ [q2]
       ++ [rparen] ++ rest)
  = Some [name; a].
Proof.
  intros Hsp Hname Hword Q1 Q2 Qa.
  assert (Hw : forallb (in_cls ua c_word) name = true
               /\ forall c t, name = c :: t -> isspace c = false).
  { split.
    - clear Hname. induction name as [|c t IH]; [reflexivity|].
      simpl in Hword |- *. apply andb_true_iff in Hword as [Hc Ht].
      apply andb_true_iff in Hc as [Hc _]. rewrite Hc. now apply IH.
    - intros c t ->. simpl in Hword.
      apply andb_true_iff in Hword as [Hc _].
      apply andb_true_iff in Hc as [_ Hc]. now apply negb_true_iff in Hc. }
  destruct Hw as [Hw Hnsp].
  assert (Sq : forall q, mem_char q quotes = true -> isspace q = false).
  { intros q Hq. unfold quotes, mem_char in Hq. cbn [existsb] in Hq.
    rewrite orb_false_r in Hq. apply orb_true_iff in Hq as [Hq|Hq];
      apply N.eqb_eq in Hq; subst q; reflexivity. }
  unfold re_match, pattern_quoted, re_cat.
  cbn [fold_right re_run star plus one opt].
  rewrite drop_prefix_app.
  apply rep_greedy_run; [exact Hsp | | lia |].
  { destruct name as [|n0 name']; [congruence|].
    intros c t E. injection E as <- _. exact (Hnsp n0 name' eq_refl). }
  apply rep_greedy_run;
    [exact Hw | | destruct name; simpl; [congruence|lia] |].
  { intros c t E. injection E as <- _. reflexivity. }
  apply (rep_greedy_run ua (list str) c_space []);
    [reflexivity | | simpl; lia |].
  { intros c t E. injection E as <- _. reflexivity. }
  rewrite u_lparen. cbn [app drop_prefix]. rewrite N.eqb_refl.
  apply (rep_greedy_run ua (list str) c_space []);
    [reflexivity | | simpl; lia |].
  { intros c t E. injection E as <- _. now apply Sq. }
  (* the opening quote *)
  cbn [app].
  apply rep_take_one; [exact Q1 | lia |].
  (* the argument *)
  apply rep_greedy_run; [exact Qa | now apply is_quote | lia |].
  (* the closing quote *)
  apply rep_take_one; [exact Q2 | lia |].
  apply (rep_greedy_run ua (list str) c_space []);
    [reflexivity | | simpl; lia |].
  { intros c t E. injection E as <- _. reflexivity. }
  rewrite u_rparen. cbn [app drop_prefix]. rewrite N.eqb_refl.
  exact (f_equal2 (fun p q => Some [p; q])
           (firstn_consumed name (lparen :: q1 :: a ++ q2 :: rparen :: rest))
           (firstn_consumed a (q2 :: rparen :: rest))).
Qed.

End WithUnicode.

End ParseInversion.

(** ** A call after other text *)

Module CallFacts.

Import TextFacts examples Re ParseFacts BareFacts ParseActionFacts
       ParseInversion.

Section WithUnicode.

Variable ua : char -> bool.

(** A call in the bare form at the first [ACTION:] of a response without
    quote characters: the argument returned is the text between the
    opening parenthesis and the first closing one. *)
Lemma parse_action_bare_call_after (pre sp name a rest : str) :
  contains (u "ACTION:") pre = false ->
  forallb isspace sp = true ->
  name <> [] ->
  forallb (fun c => isword ua c && negb (isspace c)) name = true ->
  a <> [] ->
  strip a = a ->
  forallb plain a = true ->
  quote_free (pre ++ sp ++ name ++ [lparen] ++ a ++ [rparen] ++ rest)
  = true ->
  _parse_action ua
    (pre ++ u "ACTION:" ++ sp ++ name ++ [lparen] ++ a ++ [rparen] ++ rest)
  = Some {| tool := name; arg := a |}.
Proof.
  intros C Hsp Hname Hword Ha Hstrip Hplain Q.
  apply quote_free_app in Q as [Qpre Q].
  rewrite parse_action_bare.
  - rewrite (re_search_skip ua).
    + rewrite (re_search_front _ _ _ _
                 (pattern_bare_match ua sp name a rest Hsp Hname Hword Ha
                    Hstrip Hplain)).
      unfold built. cbn [group nth Nat.sub]. f_equal. f_equal.
      apply quote_free_app in Q as [_ Q]. apply quote_free_app in Q as [_ Q].
      apply quote_free_app in Q as [_ Q]. apply quote_free_app in Q as [Q _].
      destruct (quote_free_ends a Q) as [Qh Ql].
      unfold strip_chars. now apply strip_if_kept.
    + intros s m M.
      apply (pattern_bare_inv ua) in M as (n0 & a0 & _ & _ & _ & _ & _ & D).
      exact D.
    + exact C.
    + now eexists.
  - apply pattern_quoted_no_search. apply quote_free_app.
    split; [exact Qpre|]. apply quote_free_app. split; [|exact Q].
    vm_compute. reflexivity.
Qed.

(** A call in the quoted form at the first [ACTION:] of a response. *)
Lemma parse_action_quoted_call_after (pre sp name a rest : str)
    (q1 q2 : char) :
  contains (u "ACTION:") pre = false ->
  forallb isspace sp = true ->
  name <> [] ->
  forallb (fun c => isword ua c && negb (isspace c)) name = true ->
  mem_char q1 quotes = true ->
  mem_char q2 quotes = true ->
  quote_free a = true ->
  _parse_action ua
    (pre ++ u "ACTION:" ++ sp ++ name ++ [lparen] ++ [q1] ++ a ++ [q2]
       ++ [rparen] ++ rest)
  = Some {| tool := name; arg := a |}.
Proof.
  intros C Hsp Hname Hword Q1 Q2 Qa.
  rewrite (parse_action_quoted ua _ [name; a]).
  - unfold built. cbn [group nth Nat.sub].
    now rewrite (strip_quote_free a Qa).
  - rewrite (re_search_skip ua).
    + apply re_search_front.
      now apply pattern_quoted_match.
    + intros s m M.
      apply (pattern_quoted_inv ua) in M as (n0 & a0 & _ & _ & _ & _ & D).
      exact D.
    + exact C.
    + now eexists.
Qed.

End WithUnicode.

End CallFacts.

(** C5, as the code has it.  [_parse_action] searches the whole response
    for the quoted pattern first and for the bare pattern only when the
    quoted one matches nowhere; the first that matches gives the tool and
    the argument, with quote characters stripped from both ends of the
    argument.  So a call in the quoted form is taken also when a call in
    the bare form stands before it, and a call in the quoted form at the
    first [ACTION:] of a response is read whatever text stands before
    and after it.  The response [ACTION: calculator(Q2+2Q)], with [Q]
    the double quote, gives [calculator] and [2+2].  For a call in the
    bare form at the first [ACTION:] of a response without quote
    characters, whatever text stands before and after it, the argument
    is read lazily: it ends at the first closing parenthesis, also when
    the argument itself holds parentheses. *)
Theorem parse_action_order_and_first_close_paren :
  forall ua : char -> bool,
    (forall response m,
        Re.re_search ua examples.pattern_quoted response = Some m ->
        examples._parse_action ua response
        = Some (built m))
    /\ (forall response,
           Re.re_search ua examples.pattern_quoted response = None ->
           examples._parse_action ua response
           = match Re.re_search ua examples.pattern_bare response with
             | Some m => Some (built m)
             | None => None
             end)
    /\ examples._parse_action ua
         (u "ACTION: first(1) ACTION: second(" ++ [dquote] ++ u "2"
            ++ [dquote] ++ u ")")
       = Some {| examples.tool := u "second"; examples.arg := u "2" |}
    /\ (forall pre sp name a rest q1 q2,
           contains (u "ACTION:") pre = false ->
           forallb isspace sp = true ->
           name <> [] ->
           forallb (fun c => Re.isword ua c && negb (isspace c)) name
           = true ->
           mem_char q1 examples.quotes = true ->
           mem_char q2 examples.quotes = true ->
           quote_free a = true ->
           examples._parse_action ua
             (pre ++ u "ACTION:" ++ sp ++ name ++ [lparen] ++ [q1] ++ a
                ++ [q2] ++ [rparen] ++ rest)
           = Some {| examples.tool := name; examples.arg := a |})
    /\ (forall response act,
           examples._parse_action ua response = Some act ->
           (forall c t, examples.arg act = c :: t ->
                        mem_char c examples.quotes = false)
           /\ (forall c t, examples.arg act = t ++ [c] ->
                           mem_char c examples.quotes = false))
    /\ examples._parse_action ua
         (u "ACTION: calculator(" ++ [dquote] ++ u "2+2" ++ [dquote]
            ++ u ")")
       = Some {| examples.tool := u "calculator";
                 examples.arg := u "2+2" |}
    /\ (forall pre sp name a rest,
           contains (u "ACTION:") pre = false ->
           forallb isspace sp = true ->
           name <> [] ->
           forallb (fun c => Re.isword ua c && negb (isspace c)) name
           = true ->
           a <> [] ->
           strip a = a ->
           forallb plain a = true ->
           quote_free
             (pre ++ sp ++ name ++ [lparen] ++ a ++ [rparen] ++ rest)
           = true ->
           examples._parse_action ua
             (pre ++ u "ACTION:" ++ sp ++ name ++ [lparen] ++ a
                ++ [rparen] ++ rest)
           = Some {| examples.tool := name; examples.arg := a |}).
Proof.
  intro ua. split; [|split; [|split; [|split; [|split; [|split]]]]].
  - apply ParseActionFacts.parse_action_quoted.
  - apply ParseActionFacts.parse_action_bare.
  - vm_compute. reflexivity.
  - apply CallFacts.parse_action_quoted_call_after.
  - apply ParseActionFacts.parse_action_strips_quotes.
  - vm_compute. reflexivity.
  - apply CallFacts.parse_action_bare_call_after.
Qed.

Lemma parse_action_order_and_first_close_paren_witness :
  examples._parse_action Demo.ascii_only
    ((u "THOUGHT: считаю" ++ [newline]) ++ u "ACTION:" ++ u " "
       ++ u "calculator" ++ [lparen] ++ u "sqrt(16" ++ [rparen]
       ++ u ") и жду")
  = Some {| examples.tool := u "calculator";
            examples.arg := u "sqrt(16" |}.
Proof.
  apply (proj2 (proj2 (proj2 (proj2 (proj2 (proj2
           (parse_action_order_and_first_close_paren Demo.ascii_only))))))).
  - vm_compute. reflexivity.
  - vm_compute. reflexivity.
  - vm_compute. discriminate.
  - vm_compute. reflexivity.
  - vm_compute. discriminate.
  - vm_compute. reflexivity.
  - vm_compute. reflexivity.
  - vm_compute. reflexivity.
Defined.

(** C5 as stated fails for the bare form: the argument of
    [ACTION: calculator(sqrt(16))] is cut at the first closing
    parenthesis and not at the matching one. *)
Lemma bare_argument_not_to_matching_paren :
  examples._parse_action Demo.ascii_only (u "ACTION: calculator(sqrt(16))")
  = Some {| examples.tool := u "calculator";
            examples.arg := u "sqrt(16" |}
  /\ examples._parse_action Demo.ascii_only
       (u "ACTION: calculator(sqrt(16))")
     <> Some {| examples.tool := u "calculator";
                examples.arg := u "sqrt(16)" |}.
Proof. split; vm_compute; [reflexivity | discriminate]. Qed.


(** X7.  What [_parse_action] can return.  An action is parsed only from
    a response that holds the text [ACTION:]; the tool name it returns is
    never empty and is made of word characters only; and the argument
    either holds no quote character at all (the quoted form) or holds no
    line break (the bare form). *)
Theorem parsed_tool_is_a_word_after_ACTION :
  forall (ua : char -> bool) (response : str) (act : examples.Action),
    examples._parse_action ua response = Some act ->
    contains (u "ACTION:") response = true
    /\ examples.tool act <> []
    /\ forallb (Re.isword ua) (examples.tool act) = true
    /\ (quote_free (examples.arg act) = true
        \/ mem_char newline (examples.arg act) = false).
Proof.
  intros ua response act.
  unfold examples._parse_action, examples.patterns.
  cbn [examples.first_match].
  destruct (Re.re_search ua examples.pattern_quoted response) as [m|] eqn:S1.
  - intro H. injection H as <-.
    apply ParseInversion.re_search_inv in S1 as (pre & suf & -> & M).
    apply ParseInversion.pattern_quoted_inv in M
      as (name & a & -> & N & W & Q & rest & D).
    cbn [examples.tool examples.arg Re.group Nat.sub nth].
    repeat split; auto.
    + now apply ParseInversion.contains_at with rest.
    + left. now rewrite ParseInversion.strip_quote_free.
  - destruct (Re.re_search ua examples.pattern_bare response) as [m|] eqn:S2;
      [|discriminate].
    intro H. injection H as <-.
    apply ParseInversion.re_search_inv in S2 as (pre & suf & -> & M).
    apply ParseInversion.pattern_bare_inv in M
      as (name & a & -> & N & W & _ & NL & rest & D).
    cbn [examples.tool examples.arg Re.group Nat.sub nth].
    repeat split; auto.
    + now apply ParseInversion.contains_at with rest.
    + right. unfold strip_chars.
      now apply ParseInversion.strip_if_keeps_absent.
Qed.

Lemma parsed_tool_is_a_word_after_ACTION_witness :
  contains (u "ACTION:") Demo.reply_calc = true
  /\ u "calculator" <> []
  /\ forallb (Re.isword Demo.ascii_only) (u "calculator") = true
  /\ (quote_free (u "23*17+156") = true
      \/ mem_char newline (u "23*17+156") = false).
Proof.
  exact (parsed_tool_is_a_word_after_ACTION Demo.ascii_only Demo.reply_calc
           {| examples.tool := u "calculator";
              examples.arg := u "23*17+156" |} eq_refl).
Defined.

(** X8.  The form that the system prompt asks for is read back: a
    response whose first [ACTION:] is followed by a name of word
    characters, an opening parenthesis, a quote character, an argument
    without quote characters, a quote character and a closing
    parenthesis gives that name and that argument, whatever stands before
    the [ACTION:] and after the parenthesis. *)
Theorem parse_action_reads_quoted_call :
  forall (ua : char -> bool) (pre sp name a rest : str) (q1 q2 : char),
    contains (u "ACTION:") pre = false ->
    forallb isspace sp = true ->
    name <> [] ->
    forallb (fun c => Re.isword ua c && negb (isspace c)) name = true ->
    mem_char q1 examples.quotes = true ->
    mem_char q2 examples.quotes = true ->
    quote_free a = true ->
    examples._parse_action ua
      (pre ++ u "ACTION:" ++ sp ++ name ++ [lparen] ++ [q1] ++ a ++ [q2]
         ++ [rparen] ++ rest)
    = Some {| examples.tool := name; examples.arg := a |}.
Proof.
  intros ua pre sp name a rest q1 q2 C Hsp Hname Hword Q1 Q2 Qa.
  rewrite (ParseActionFacts.parse_action_quoted ua _ [name; a]).
  - unfold built. cbn [Re.group nth Nat.sub].
    now rewrite ParseInversion.strip_quote_free.
  - rewrite ParseInversion.re_search_skip.
    + apply ParseActionFacts.re_search_front.
      now apply ParseInversion.pattern_quoted_match.
    + intros s m M.
      apply ParseInversion.pattern_quoted_inv in M
        as (n0 & a0 & _ & _ & _ & _ & D).
      exact D.
    + exact C.
    + now eexists.
Qed.

Lemma parse_action_reads_quoted_call_witness :
  examples._parse_action Demo.ascii_only
    (u "THOUGHT: считаю " ++ u "ACTION:" ++ u " " ++ u "calculator"
       ++ [lparen] ++ [dquote] ++ u "200 * 0.15" ++ [dquote] ++ [rparen]
       ++ u " жду")
  = Some {| examples.tool := u "calculator";
            examples.arg := u "200 * 0.15" |}.
Proof.
  apply (parse_action_reads_quoted_call Demo.ascii_only
           (u "THOUGHT: считаю ") (u " ") (u "calculator") (u "200 * 0.15")
           (u " жду") dquote dquote);
    [ vm_compute; reflexivity | vm_compute; reflexivity
    | vm_compute; discriminate | vm_compute; reflexivity
    | vm_compute; reflexivity | vm_compute; reflexivity
    | vm_compute; reflexivity ].
Defined.

(** ** Whole runs of [ReActAgent.run] *)

Module RunFacts.

Import TextFacts RegistryFacts AnswerFacts LoopFacts examples.

Lemma requests_app (a b : list event) :
  requests (a ++ b) = requests a ++ requests b.
Proof.
  induction a as [|[m|n x] a IH]; simpl; auto. now f_equal.
Qed.

Lemma range_cons (lo hi : Z) :
  (lo < hi)%Z -> range lo hi = lo :: range (lo + 1) hi.
Proof.
  intro H. unfold range.
  replace (Z.to_nat (hi - lo)) with (S (Z.to_nat (hi - (lo + 1)))) by lia.
  cbn [seq map]. f_equal; [lia|].
  rewrite <- seq_shift, map_map. apply map_ext. intro k. lia.
Qed.

Lemma range_empty (lo hi : Z) : (hi <= lo)%Z -> range lo hi = [].
Proof.
  intro H. unfold range. now replace (Z.to_nat (hi - lo)) with 0 by lia.
Qed.

Lemma range_nth (lo hi : Z) (k : nat) (i : Z) :
  nth_error (range lo hi) k = Some i -> i = (lo + Z.of_nat k)%Z.
Proof.
  unfold range. rewrite nth_error_map.
  destruct (nth_error (seq 0 (Z.to_nat (hi - lo))) k) as [j|] eqn:E;
    [|discriminate].
  intro H. injection H as <-.
  assert (L : k < Z.to_nat (hi - lo)).
  { rewrite <- (length_seq (Z.to_nat (hi - lo)) 0).
    apply nth_error_Some. congruence. }
  apply nth_error_nth with (d := 0) in E.
  rewrite seq_nth in E by exact L. now subst j.
Qed.

Lemma range_bounds (lo hi i : Z) :
  In i (range lo hi) -> (lo <= i < hi)%Z.
Proof.
  unfold range. rewrite in_map_iff. intros (k & <- & I).
  apply in_seq in I. lia.
Qed.

Lemma range_sorted (lo hi : Z) : StronglySorted Z.lt (range lo hi).
Proof.
  remember (Z.to_nat (hi - lo)) as n eqn:En. revert lo En.
  induction n as [|n IH]; intros lo En.
  - rewrite range_empty by lia. constructor.
  - rewrite range_cons by lia. constructor.
    + apply IH. lia.
    + apply Forall_forall. intros i I. apply range_bounds in I. lia.
Qed.

Section React.

Import react_agent.

Variable World : Type.
Variable ua : char -> bool.
Variable llm : list message -> World -> result str * World.
Variable self : ReActAgent World.

#[local] Abbreviation body := (iteration_body ua llm self).
#[local] Abbreviation loop := (for_loop ua llm self).

Lemma for_loop_cons (i : Z) (rest : list Z) (st : LoopState)
    (s : store World) :
  loop (i :: rest) st s
  = match body i st s with
    | (Ok (Return res), s') => (Ok (Return res), s')
    | (Ok (Continue st'), s') => loop rest st' s'
    | (Raise e, s') => (Raise e, s')
    end.
Proof.
  cbn [for_loop]. unfold Eff.bind.
  now destruct (iteration_body ua llm self i st s) as [[[res|st']|e] s'].
Qed.

(** One pass through the body of the loop, by cases: the model is asked
    once with the transcript; then the pass returns an answer, or
    continues after a nudge or after one dispatch, or raises what the
    model call or the dispatch raised. *)
Lemma iteration_cases (i : Z) (st : LoopState) (s : store World) :
  exists tr,
    trace (snd (body i st s)) = trace s ++ ev_model (messages st) :: tr
    /\ match fst (body i st s) with
       | Ok (Return res) =>
         tr = []
         /\ iterations res = i
         /\ actions res = actions_log st
         /\ success res = true
         /\ answer res <> []
         /\ exists response,
              fst (llm (messages st) (world s)) = Ok response
              /\ _extract_answer response = Some (answer res)
       | Ok (Continue st') =>
         exists response reply,
           messages st' = messages st ++ [assistant response; user reply]
           /\ fst (llm (messages st) (world s)) = Ok response
           /\ ((tr = [] /\ actions_log st' = actions_log st
                /\ _parse_action ua response = None)
               \/ exists rec,
                    tr = [ev_dispatch (ar_tool rec) (ar_arg rec)]
                    /\ ar_iteration rec = i
                    /\ actions_log st' = actions_log st ++ [rec])
       | Raise e =>
         (tr = [] /\ fst (llm (messages st) (world s)) = Raise e)
         \/ (exists name arg t,
                tr = [ev_dispatch name arg]
                /\ dict_get name (toolkit self) = Some t
                /\ ((e = Exc IndexError (u "list index out of range")
                     /\ parameters t = [])
                    \/ (e = refused_self /\ keyword_binds t = false)))
       end.
Proof.
  rewrite (iteration_body_eq World ua llm self i st s).
  destruct (llm (messages st) (world s)) as [[response|e] w] eqn:L.
  - unfold classify.
    destruct (truthy (_extract_answer response)) eqn:T.
    + exists []. split; [reflexivity|].
      cbn [fst Eff.ret answer iterations actions success].
      destruct (_extract_answer response) as [[|c a]|] eqn:X;
        try discriminate T.
      repeat split; [discriminate|]. now exists response.
    + unfold act_or_nudge.
      destruct (_parse_action ua response) as [a|] eqn:P.
      * unfold Eff.bind.
        destruct (RegistryLaws.react_execute_cases World (toolkit self)
                    (tool a) (arg a) (asked (messages st) s w))
          as (r & w' & E & C).
        rewrite E. exists [ev_dispatch (tool a) (arg a)].
        split.
        { destruct r; cbn [snd Eff.ret dispatched asked trace];
            now rewrite <- app_assoc. }
        destruct r as [obs|e]; cbn [fst Eff.ret].
        -- exists response, (u "OBSERVATION: " ++ obs).
           split; [reflexivity|]. split; [reflexivity|]. right.
           eexists. cbn [messages actions_log].
           split; [|split]; [| |reflexivity]; reflexivity.
        -- right. destruct C as (t & Ht & Ct).
           now exists (tool a), (arg a), t.
      * exists []. split; [reflexivity|]. cbn [fst Eff.ret].
        exists response, NUDGE. split; [reflexivity|].
        split; [reflexivity|]. left. now repeat split.
  - exists []. split; [reflexivity|]. left. now split.
Qed.

(** *** The budget *)

Lemma for_loop_within_budget (its : list Z) :
  forall (st : LoopState) (s : store World),
  exists tr,
    trace (snd (loop its st s)) = trace s ++ tr
    /\ model_calls tr <= List.length its
    /\ List.length (dispatches tr) <= model_calls tr
    /\ (forall st', fst (loop its st s) = Ok (Continue st') ->
                    model_calls tr = List.length its).
Proof.
  induction its as [|i rest IH]; intros st s.
  - exists []. cbn. rewrite app_nil_r. repeat split; auto.
  - rewrite for_loop_cons.
    destruct (iteration_cases i st s) as (tr1 & T1 & C1).
    destruct (body i st s) as [[[res|st1]|e] s1]; cbn [fst snd] in *.
    + destruct C1 as (-> & _). eexists. split; [exact T1|].
      cbn. repeat split; try lia. discriminate.
    + destruct (IH st1 s1) as (tr2 & T2 & M2 & D2 & L2).
      exists (ev_model (messages st) :: tr1 ++ tr2).
      split; [rewrite T2, T1; now rewrite <- app_assoc|].
      destruct C1 as (response & reply & _ & _ & [(-> & _)|(rec & -> & _)]);
        cbn [app model_calls dispatches List.length];
        (repeat split; [lia | lia |]);
        intros st' E; rewrite (L2 st' E); reflexivity.
    + eexists. split; [exact T1|].
      destruct C1 as [(-> & _)|(name & arg & t & -> & _)];
        cbn; repeat split; try lia; discriminate.
Qed.

(** *** The result *)

Lemma for_loop_returns (its : list Z) :
  forall (st : LoopState) (s s' : store World) (res : RunResult),
    loop its st s = (Ok (Return res), s') ->
    exists tr k,
      trace s' = trace s ++ tr
      /\ nth_error its k = Some (iterations res)
      /\ model_calls tr = S k
      /\ success res = true
      /\ answer res <> []
      /\ exists sent w response,
           fst (llm sent w) = Ok response
           /\ _extract_answer response = Some (answer res).
Proof.
  induction its as [|i rest IH]; intros st s s' res H.
  - discriminate H.
  - rewrite for_loop_cons in H.
    destruct (iteration_cases i st s) as (tr1 & T1 & C1).
    destruct (body i st s) as [[[res1|st1]|e] s1]; cbn [fst snd] in *.
    + injection H as -> ->.
      destruct C1 as (-> & I1 & _ & S1 & A & response & L & X).
      exists [ev_model (messages st)], 0.
      cbn [nth_error model_calls]. rewrite I1. repeat split; auto.
      now exists (messages st), (world s), response.
    + destruct (IH st1 s1 s' res H)
        as (tr2 & k & T2 & N & M & Sc & A & X).
      exists (ev_model (messages st) :: tr1 ++ tr2), (S k).
      split; [rewrite T2, T1; now rewrite <- app_assoc|].
      split; [exact N|]. split; [|now repeat split].
      destruct C1 as (response & reply & _ & _ & [(-> & _)|(rec & -> & _)]);
        cbn [app model_calls]; lia.
    + discriminate H.
Qed.

(** *** The log and the dispatches *)

Lemma for_loop_log (its : list Z) :
  StronglySorted Z.lt its ->
  forall (st : LoopState) (s : store World),
  exists tr new,
    trace (snd (loop its st s)) = trace s ++ tr
    /\ match fst (loop its st s) with
       | Ok (Return res) =>
         actions res = actions_log st ++ new
         /\ In (iterations res) its
         /\ Forall (fun rec => (ar_iteration rec < iterations res)%Z) new
       | Ok (Continue st') => actions_log st' = actions_log st ++ new
       | Raise _ => True
       end
    /\ ((forall e, fst (loop its st s) <> Raise e) ->
        map asked_for new = dispatches tr)
    /\ StronglySorted Z.lt (map ar_iteration new)
    /\ Forall (fun rec => In (ar_iteration rec) its) new.
Proof.
  intro Sorted. induction its as [|i rest IH]; intros st s.
  - exists [], []. cbn. rewrite !app_nil_r.
    repeat split; auto; constructor.
  - inversion Sorted as [|? ? Srest Hi]; subst.
    specialize (IH Srest).
    rewrite for_loop_cons.
    destruct (iteration_cases i st s) as (tr1 & T1 & C1).
    destruct (body i st s) as [[[res1|st1]|e] s1]; cbn [fst snd] in *.
    + destruct C1 as (-> & I1 & A1 & _).
      exists [ev_model (messages st)], [].
      rewrite A1, I1, app_nil_r.
      repeat split; auto; try (now left); constructor.
    + destruct (IH st1 s1) as (tr2 & new2 & T2 & O2 & K2 & S2 & F2).
      assert (Later : Forall (fun rec => (i < ar_iteration rec)%Z) new2).
      { apply Forall_forall. intros rec I.
        rewrite Forall_forall in F2, Hi. apply Hi. now apply F2. }
      assert (F2' : Forall (fun rec => In (ar_iteration rec) (i :: rest))
                      new2).
      { apply Forall_forall. intros r I. right.
        rewrite Forall_forall in F2. now apply F2. }
      destruct C1 as (response & reply & _ & _
                      & [(-> & A1 & _)|(rec & -> & I1 & A1)]).
      * exists (ev_model (messages st) :: tr2), new2.
        split; [rewrite T2, T1; now rewrite <- app_assoc|].
        split.
        { destruct (fst (loop rest st1 s1)) as [[res|st']|e]; auto.
          - destruct O2 as (O2 & I2 & B2). rewrite <- A1.
            repeat split; auto. now right.
          - now rewrite <- A1. }
        now repeat split.
      * exists (ev_model (messages st)
                  :: ev_dispatch (ar_tool rec) (ar_arg rec) :: tr2),
               (rec :: new2).
        split; [rewrite T2, T1; now rewrite <- app_assoc|].
        split.
        { destruct (fst (loop rest st1 s1)) as [[res|st']|e]; auto.
          - destruct O2 as (O2 & I2 & B2). rewrite O2, A1, <- app_assoc.
            split; [reflexivity|]. split; [now right|].
            constructor; [|exact B2].
            rewrite I1. rewrite Forall_forall in Hi. now apply Hi.
          - now rewrite O2, A1, <- app_assoc. }
        split.
        { intros N. cbn [map dispatches]. unfold asked_for at 1.
          f_equal. now apply K2. }
        split.
        { cbn [map]. constructor; [exact S2|].
          rewrite Forall_map, I1. exact Later. }
        constructor; [rewrite I1; now left | exact F2'].
    + exists (ev_model (messages st) :: tr1), [].
      split; [exact T1|]. split; [exact I|].
      split; [intros N; now destruct (N e)|].
      split; constructor.
Qed.

(** *** The transcripts *)


(** *** Exceptions *)


(** *** [run] *)

Lemma run_eq (task : str) (s : store World) :
  run ua llm self task s
  = match loop (range 1 (max_iterations self + 1))
                (initial_state self task) s with
    | (Ok (Return res), s') => (Ok res, s')
    | (Ok (Continue st), s') =>
      (Ok {| answer := FAILURE;
             iterations := max_iterations self;
             actions := actions_log st;
             success := false |}, s')
    | (Raise e, s') => (Raise e, s')
    end.
Proof.
  unfold run, Eff.bind.
  now destruct (for_loop ua llm self _ _ s) as [[[res|st]|e] s'].
Qed.

Lemma budget_length (n : Z) :
  List.length (range 1 (n + 1)) = Z.to_nat n.
Proof. rewrite length_range. f_equal. lia. Qed.


End React.


End RunFacts.

(** X9.  The budget of [ReActAgent.run], whatever the model and the tools
    do and however the run ends: the model is asked at most
    [max_iterations] times, and there is at most one dispatch for each
    request to the model. *)
Theorem run_asks_model_within_budget :
  forall (World : Type) (ua : char -> bool)
         (llm : list message -> World -> result str * World)
         (self : react_agent.ReActAgent World) (task : str)
         (s : store World),
  exists tr,
    trace (snd (react_agent.run ua llm self task s)) = trace s ++ tr
    /\ model_calls tr <= Z.to_nat (react_agent.max_iterations self)
    /\ List.length (dispatches tr) <= model_calls tr.
Proof.
  intros World ua llm self task s.
  rewrite (RunFacts.run_eq World ua llm self task s).
  destruct (RunFacts.for_loop_within_budget World ua llm self
              (range 1 (react_agent.max_iterations self + 1))
              (react_agent.initial_state self task) s)
    as (tr & T & M & D & _).
  rewrite RunFacts.budget_length in M.
  exists tr.
  destruct (react_agent.for_loop ua llm self _ _ s) as [[[res|st]|e] s'];
    cbn [snd] in *; auto.
Qed.

(** X10.  What the result of [ReActAgent.run] says about the run.  With
    [success] true the field [iterations] is the number of requests that
    were made to the model, it lies between 1 and [max_iterations], and
    the answer is not empty and is what [_extract_answer] gives for a
    response of the model.  With [success] false the answer is the
    failure text, [iterations] is [max_iterations], and the number of
    requests made is [max_iterations], or zero when [max_iterations] is
    negative: only then does [iterations] differ from the number of
    requests. *)
Theorem run_result_counts_iterations :
  forall (World : Type) (ua : char -> bool)
         (llm : list message -> World -> result str * World)
         (self : react_agent.ReActAgent World) (task : str)
         (s s' : store World) (res : react_agent.RunResult),
    react_agent.run ua llm self task s = (Ok res, s') ->
    exists tr,
      trace s' = trace s ++ tr
      /\ if react_agent.success res
         then Z.of_nat (model_calls tr) = react_agent.iterations res
              /\ (1 <= react_agent.iterations res
                  <= react_agent.max_iterations self)%Z
              /\ react_agent.answer res <> []
              /\ exists sent w response,
                   fst (llm sent w) = Ok response
                   /\ examples._extract_answer response
                      = Some (react_agent.answer res)
         else react_agent.answer res = react_agent.FAILURE
              /\ react_agent.iterations res
                 = react_agent.max_iterations self
              /\ Z.of_nat (model_calls tr)
                 = Z.max 0 (react_agent.max_iterations self).
Proof.
  intros World ua llm self task s s' res H.
  rewrite (RunFacts.run_eq World ua llm self task s) in H.
  destruct (react_agent.for_loop ua llm self _ _ s)
    as [[[res1|st]|e] s1] eqn:L; [| |discriminate H].
  - injection H as -> ->.
    destruct (RunFacts.for_loop_returns World ua llm self _ _ _ _ _ L)
      as (tr & k & T & N & M & S & A & X).
    exists tr. split; [exact T|].
    pose proof (RunFacts.range_nth _ _ _ _ N) as I.
    apply nth_error_In, RunFacts.range_bounds in N.
    rewrite S. split; [lia|]. split; [lia|]. now split.
  - injection H as <- <-.
    destruct (RunFacts.for_loop_within_budget World ua llm self
                (range 1 (react_agent.max_iterations self + 1))
                (react_agent.initial_state self task) s)
      as (tr & T & _ & _ & C).
    rewrite L in T, C. cbn [fst snd] in T, C.
    exists tr. split; [exact T|].
    cbn [react_agent.iterations react_agent.success react_agent.answer].
    rewrite (C st eq_refl), RunFacts.budget_length.
    repeat split. lia.
Qed.

Lemma run_result_counts_iterations_witness :
  let run :=
    react_agent.run Demo.ascii_only
      (Demo.scripted [Demo.reply_calc; Demo.reply_answer]
         Demo.reply_thinking)
      (Demo.react Demo.calc_kit 5) (u "23 * 17 + 156") Demo.start in
  exists tr,
    trace (snd run) = trace Demo.start ++ tr
    /\ Z.of_nat (model_calls tr) = 2%Z
    /\ (1 <= 2 <= 5)%Z
    /\ u "547" <> [].
Proof.
  cbv zeta.
  destruct (run_result_counts_iterations Demo.World Demo.ascii_only
              (Demo.scripted [Demo.reply_calc; Demo.reply_answer]
                 Demo.reply_thinking)
              (Demo.react Demo.calc_kit 5) (u "23 * 17 + 156") Demo.start
              (snd (react_agent.run Demo.ascii_only
                      (Demo.scripted [Demo.reply_calc; Demo.reply_answer]
                         Demo.reply_thinking)
                      (Demo.react Demo.calc_kit 5) (u "23 * 17 + 156")
                      Demo.start))
              {| react_agent.answer := u "547";
                 react_agent.iterations := 2;
                 react_agent.actions :=
                   [ {| react_agent.ar_iteration := 1;
                        react_agent.ar_tool := u "calculator";
                        react_agent.ar_arg := u "23*17+156";
                        react_agent.ar_result := u "547.0" |} ];
                 react_agent.success := true |})
    as (tr & T & M & B & A & _).
  - vm_compute. reflexivity.
  - exists tr. repeat split; auto; apply B.
Defined.

(** X11.  The actions log that [ReActAgent.run] returns mirrors the
    dispatches of the run: it holds one record for each dispatch, in the
    order of the dispatches, with the tool name and the argument that
    were dispatched.  The iteration numbers of the records increase
    strictly (an iteration dispatches at most once), lie between 1 and
    [max_iterations], and are below [iterations] when the run
    succeeded. *)
Theorem run_log_mirrors_dispatches :
  forall (World : Type) (ua : char -> bool)
         (llm : list message -> World -> result str * World)
         (self : react_agent.ReActAgent World) (task : str)
         (s s' : store World) (res : react_agent.RunResult),
    react_agent.run ua llm self task s = (Ok res, s') ->
    exists tr,
      trace s' = trace s ++ tr
      /\ map asked_for (react_agent.actions res) = dispatches tr
      /\ StronglySorted Z.lt
           (map react_agent.ar_iteration (react_agent.actions res))
      /\ Forall (fun rec =>
                   (1 <= react_agent.ar_iteration rec
                    <= react_agent.max_iterations self)%Z
                   /\ (react_agent.success res = true ->
                       (react_agent.ar_iteration rec
                        < react_agent.iterations res)%Z))
                (react_agent.actions res).
Proof.
  intros World ua llm self task s s' res H.
  rewrite (RunFacts.run_eq World ua llm self task s) in H.
  destruct (RunFacts.for_loop_log World ua llm self
              (range 1 (react_agent.max_iterations self + 1))
              (RunFacts.range_sorted _ _)
              (react_agent.initial_state self task) s)
    as (tr & new & T & O & K & S & F).
  assert (B : Forall (fun rec =>
                        (1 <= react_agent.ar_iteration rec
                         <= react_agent.max_iterations self)%Z) new).
  { apply Forall_forall. intros rec I. rewrite Forall_forall in F.
    apply F, RunFacts.range_bounds in I. lia. }
  destruct (react_agent.for_loop ua llm self _ _ s)
    as [[[res1|st]|e] s1]; [| |discriminate H]; cbn [fst snd] in *.
  - injection H as -> ->. destruct O as (O & _ & Lt).
    cbn [react_agent.initial_state react_agent.actions_log app] in O.
    exists tr. rewrite O. split; [exact T|].
    split; [apply K; discriminate|]. split; [exact S|].
    apply Forall_forall. intros rec I.
    rewrite Forall_forall in B, Lt. split; [now apply B|].
    intros _. now apply Lt.
  - injection H as <- <-.
    cbn [react_agent.initial_state react_agent.actions_log app] in O.
    cbn [react_agent.actions react_agent.success]. exists tr. rewrite O.
    split; [exact T|]. split; [apply K; discriminate|].
    split; [exact S|].
    apply Forall_forall. intros rec I.
    rewrite Forall_forall in B. split; [now apply B | discriminate].
Qed.

Lemma run_log_mirrors_dispatches_witness :
  let run :=
    react_agent.run Demo.ascii_only
      (Demo.scripted [Demo.reply_calc; Demo.reply_answer]
         Demo.reply_thinking)
      (Demo.react Demo.calc_kit 5) (u "23 * 17 + 156") Demo.start in
  exists tr,
    trace (snd run) = trace Demo.start ++ tr
    /\ [(u "calculator", u "23*17+156")] = dispatches tr.
Proof.
  cbv zeta.
  destruct (run_log_mirrors_dispatches Demo.World Demo.ascii_only
              (Demo.scripted [Demo.reply_calc; Demo.reply_answer]
                 Demo.reply_thinking)
              (Demo.react Demo.calc_kit 5) (u "23 * 17 + 156") Demo.start
              (snd (react_agent.run Demo.ascii_only
                      (Demo.scripted [Demo.reply_calc; Demo.reply_answer]
                         Demo.reply_thinking)
                      (Demo.react Demo.calc_kit 5) (u "23 * 17 + 156")
                      Demo.start))
              {| react_agent.answer := u "547";
                 react_agent.iterations := 2;
                 react_agent.actions :=
                   [ {| react_agent.ar_iteration := 1;
                        react_agent.ar_tool := u "calculator";
                        react_agent.ar_arg := u "23*17+156";
                        react_agent.ar_result := u "547.0" |} ];
                 react_agent.success := true |})
    as (tr & T & K & _).
  - vm_compute. reflexivity.
  - exists tr. split; [exact T | exact K].
Defined.




(** ** Whole runs of [ResearchAgent.research] *)

Module ResearchRunFacts.

Import TextFacts RegistryFacts AnswerFacts LoopFacts ResearchLoopFacts
       RunFacts examples.

Section Research.

Import research_agent.

Variable World : Type.
Variable ua : char -> bool.
Variable llm : list message -> World -> result str * World.
Variable self : ResearchAgent World.
Variable topic : str.

#[local] Abbreviation body := (iteration_body ua llm self topic).
#[local] Abbreviation loop := (for_loop ua llm self topic).

Lemma research_for_loop_cons (i : Z) (rest : list Z) (st : LoopState)
    (s : store World) :
  loop (i :: rest) st s
  = match body i st s with
    | (Ok (Return res), s') => (Ok (Return res), s')
    | (Ok (Continue st'), s') => loop rest st' s'
    | (Raise e, s') => (Raise e, s')
    end.
Proof.
  cbn [for_loop]. unfold Eff.bind.
  now destruct (iteration_body ua llm self topic i st s)
    as [[[res|st']|e] s'].
Qed.

(** The research log with what one record adds to it. *)
Lemma log_of_snoc (records : list ActionRecord) (rec : ActionRecord) :
  log_of (records ++ [rec])
  = {| queries := queries (log_of records) ++ [ar_query rec];
       findings := findings (log_of records) ++ [ar_result rec];
       sources :=
         sources (log_of records)
           ++ [ar_tool rec ++ u "(" ++ ar_query rec ++ u ")"] |}.
Proof. unfold log_of. cbn [queries findings sources]. now rewrite !map_app. Qed.

Lemma research_iteration_cases (i : Z) (st : LoopState) (s : store World) :
  exists tr,
    trace (snd (body i st s)) = trace s ++ ev_model (messages st) :: tr
    /\ match fst (body i st s) with
       | Ok (Return res) =>
         tr = []
         /\ research_agent.topic res = topic
         /\ iterations res = i
         /\ actions res = actions_log st
         /\ research_log res = self_research_log st
         /\ success res = true
         /\ answer res <> []
         /\ exists response,
              fst (llm (messages st) (world s)) = Ok response
              /\ _extract_answer response = Some (answer res)
       | Ok (Continue st') =>
         exists response reply,
           messages st' = messages st ++ [assistant response; user reply]
           /\ ((tr = [] /\ actions_log st' = actions_log st
                /\ self_research_log st' = self_research_log st)
               \/ exists rec,
                    tr = [ev_dispatch (ar_tool rec) (ar_query rec)]
                    /\ ar_iteration rec = i
                    /\ List.length (ar_result rec) <= 500
                    /\ actions_log st' = actions_log st ++ [rec]
                    /\ self_research_log st'
                       = {| queries :=
                              queries (self_research_log st)
                                ++ [ar_query rec];
                            findings :=
                              findings (self_research_log st)
                                ++ [ar_result rec];
                            sources :=
                              sources (self_research_log st)
                                ++ [ar_tool rec ++ u "(" ++ ar_query rec
                                      ++ u ")"] |})
       | Raise e =>
         (tr = [] /\ fst (llm (messages st) (world s)) = Raise e)
         \/ (exists name arg t,
                tr = [ev_dispatch name arg]
                /\ dict_get name (toolkit self) = Some t
                /\ ((e = Exc IndexError (u "list index out of range")
                     /\ parameters t = [])
                    \/ (e = refused_self /\ keyword_binds t = false)))
       end.
Proof.
  rewrite (research_iteration_body_eq World ua llm self topic i st s).
  destruct (llm (messages st) (world s)) as [[response|e] w] eqn:L.
  - unfold classify.
    destruct (truthy (_extract_answer response)) eqn:T.
    + exists []. split; [reflexivity|].
      cbn [fst Eff.ret research_agent.topic answer iterations actions
           research_log success].
      destruct (_extract_answer response) as [[|c a]|] eqn:X;
        try discriminate T.
      repeat split; [discriminate|]. now exists response.
    + unfold act_or_nudge.
      destruct (_parse_action ua response) as [a|] eqn:P.
      * unfold Eff.bind.
        destruct (RegistryLaws.research_execute_cases World (toolkit self)
                    (tool a) (arg a) (asked (messages st) s w))
          as (r & w' & E & C).
        rewrite E. exists [ev_dispatch (tool a) (arg a)].
        split.
        { destruct r; cbn [snd Eff.ret dispatched asked trace];
            now rewrite <- app_assoc. }
        destruct r as [obs|e]; cbn [fst Eff.ret].
        -- exists response, (u "OBSERVATION: " ++ obs).
           split; [reflexivity|]. right.
           exists {| ar_iteration := i; ar_tool := tool a;
                     ar_query := arg a; ar_result := slice_to 500 obs |}.
           cbn [messages actions_log self_research_log ar_tool ar_query
                ar_iteration ar_result].
           repeat split.
           unfold slice_to. rewrite length_firstn. lia.
        -- right. destruct C as (t & Ht & Ct).
           now exists (tool a), (arg a), t.
      * exists []. split; [reflexivity|]. cbn [fst Eff.ret].
        exists response, NUDGE. split; [reflexivity|].
        left. now repeat split.
  - exists []. split; [reflexivity|]. left. now split.
Qed.

(** The loop, from a state whose research log is the log of its actions
    log. *)
Lemma research_for_loop_spec (its : list Z) :
  forall (st : LoopState) (s : store World),
    self_research_log st = log_of (actions_log st) ->
    Forall (fun rec => List.length (ar_result rec) <= 500)
           (actions_log st) ->
  exists tr new,
    trace (snd (loop its st s)) = trace s ++ tr
    /\ model_calls tr <= List.length its
    /\ match fst (loop its st s) with
       | Ok (Return res) =>
         research_agent.topic res = topic
         /\ actions res = actions_log st ++ new
         /\ research_log res = log_of (actions res)
         /\ Forall (fun rec => List.length (ar_result rec) <= 500)
                   (actions res)
         /\ map searched_for new = dispatches tr
         /\ success res = true
         /\ answer res <> []
         /\ exists k,
              nth_error its k = Some (iterations res)
              /\ model_calls tr = S k
       | Ok (Continue st') =>
         actions_log st' = actions_log st ++ new
         /\ self_research_log st' = log_of (actions_log st')
         /\ Forall (fun rec => List.length (ar_result rec) <= 500)
                   (actions_log st')
         /\ map searched_for new = dispatches tr
         /\ model_calls tr = List.length its
       | Raise e => True
       end.
Proof.
  induction its as [|i rest IH]; intros st s Hlog Hlen.
  - exists [], []. cbn. rewrite !app_nil_r. repeat split; auto.
  - rewrite research_for_loop_cons.
    destruct (research_iteration_cases i st s) as (tr1 & T1 & C1).
    destruct (body i st s) as [[[res1|st1]|e] s1]; cbn [fst snd] in *.
    + destruct C1 as (-> & Tp & I1 & A1 & R1 & S1 & N1 & _).
      exists [ev_model (messages st)], [].
      split; [exact T1|]. split; [cbn; lia|].
      rewrite A1, R1, app_nil_r, I1.
      repeat split; auto. now exists 0.
    + destruct C1 as (response & reply & M1
                      & [(-> & A1 & R1)|(rec & -> & I1 & L1 & A1 & R1)]).
      * destruct (IH st1 s1) as (tr2 & new2 & T2 & B2 & O2).
        { now rewrite R1, A1. }
        { now rewrite A1. }
        exists (ev_model (messages st) :: tr2), new2.
        split; [rewrite T2, T1; now rewrite <- app_assoc|].
        split; [cbn [model_calls List.length]; lia|].
        rewrite A1 in O2.
        destruct (fst (loop rest st1 s1)) as [[res|st']|e]; auto.
        -- destruct O2 as (Tp & A & R & F & K & Sc & N & k & Nk & Mk).
           repeat split; auto. exists (S k). split; [exact Nk|].
           cbn [model_calls]. now rewrite Mk.
        -- destruct O2 as (A & R & F & K & Mk).
           repeat split; auto. cbn [model_calls List.length]. now rewrite Mk.
      * destruct (IH st1 s1) as (tr2 & new2 & T2 & B2 & O2).
        { rewrite R1, A1, log_of_snoc, Hlog. reflexivity. }
        { rewrite A1. apply Forall_app. split; [exact Hlen|].
          now constructor. }
        exists (ev_model (messages st)
                  :: ev_dispatch (ar_tool rec) (ar_query rec) :: tr2),
               (rec :: new2).
        split; [rewrite T2, T1; now rewrite <- app_assoc|].
        split; [cbn [model_calls List.length]; lia|].
        rewrite A1, <- app_assoc in O2. cbn [app] in O2.
        destruct (fst (loop rest st1 s1)) as [[res|st']|e]; auto.
        -- destruct O2 as (Tp & A & R & F & K & Sc & N & k & Nk & Mk).
           repeat split; auto.
           ++ cbn [map dispatches]. now rewrite K.
           ++ exists (S k). split; [exact Nk|].
              cbn [model_calls]. now rewrite Mk.
        -- destruct O2 as (A & R & F & K & Mk).
           repeat split; auto.
           ++ cbn [map dispatches]. now rewrite K.
           ++ cbn [model_calls List.length]. now rewrite Mk.
    + exists (ev_model (messages st) :: tr1), [].
      split; [exact T1|]. split; [|exact I].
      destruct C1 as [(-> & _)|(name & arg & t & -> & _)];
        cbn; lia.
Qed.

Lemma research_eq (s : store World) :
  research ua llm self topic s
  = match loop (range 1 (max_iterations self + 1))
                (initial_state self topic) s with
    | (Ok (Return res), s') => (Ok res, s')
    | (Ok (Continue st), s') =>
      (Ok {| research_agent.topic := topic;
             answer := FAILURE;
             iterations := max_iterations self;
             actions := actions_log st;
             research_log := self_research_log st;
             success := false |}, s')
    | (Raise e, s') => (Raise e, s')
    end.
Proof.
  unfold research, Eff.bind.
  now destruct (for_loop ua llm self topic _ _ s) as [[[res|st]|e] s'].
Qed.

End Research.

End ResearchRunFacts.

(** X14.  The result of [ResearchAgent.research]: its research log is the
    log of its actions.  The queries, the findings and the sources of the
    research log are, record by record and in order, the queries, the
    results and the texts [tool(query)] of the actions log; no finding is
    longer than 500 characters; and the actions log holds one record for
    each dispatch of the run, in the order of the dispatches. *)
Theorem research_log_is_log_of_actions :
  forall (World : Type) (ua : char -> bool)
         (llm : list message -> World -> result str * World)
         (self : research_agent.ResearchAgent World) (topic : str)
         (s s' : store World) (res : research_agent.RunResult),
    research_agent.research ua llm self topic s = (Ok res, s') ->
    research_agent.research_log res = log_of (research_agent.actions res)
    /\ Forall (fun finding => List.length finding <= 500)
              (research_agent.findings (research_agent.research_log res))
    /\ exists tr,
         trace s' = trace s ++ tr
         /\ map searched_for (research_agent.actions res) = dispatches tr.
Proof.
  intros World ua llm self topic s s' res H.
  rewrite (ResearchRunFacts.research_eq World ua llm self topic s) in H.
  destruct (ResearchRunFacts.research_for_loop_spec World ua llm self topic
              (range 1 (research_agent.max_iterations self + 1))
              (research_agent.initial_state self topic) s eq_refl
              (Forall_nil _))
    as (tr & new & T & _ & O).
  destruct (research_agent.for_loop ua llm self topic _ _ s)
    as [[[res1|st]|e] s1]; [| |discriminate H]; cbn [fst snd] in *.
  - injection H as -> ->.
    destruct O as (_ & A & R & F & K & _).
    cbn [research_agent.initial_state research_agent.actions_log app] in A.
    split; [exact R|]. split.
    + rewrite R. unfold log_of. cbn [research_agent.findings].
      now rewrite Forall_map.
    + exists tr. split; [exact T|]. now rewrite A.
  - injection H as <- <-.
    destruct O as (A & R & F & K & _).
    cbn [research_agent.initial_state research_agent.actions_log app] in A.
    cbn [research_agent.research_log research_agent.actions].
    split; [exact R|]. split.
    + rewrite R. unfold log_of. cbn [research_agent.findings].
      now rewrite Forall_map.
    + exists tr. split; [exact T|]. now rewrite A.
Qed.

Lemma research_log_is_log_of_actions_witness :
  let run :=
    research_agent.research Demo.ascii_only
      (Demo.scripted [Demo.reply_calc; Demo.reply_answer]
         Demo.reply_thinking)
      (Samples.researcher Demo.calc_kit 5) (u "23 * 17 + 156")
      Demo.start in
  research_agent.research_log Samples.research_result
  = log_of (research_agent.actions Samples.research_result)
  /\ exists tr,
       trace (snd run) = trace Demo.start ++ tr
       /\ [(u "calculator", u "23*17+156")] = dispatches tr.
Proof.
  cbv zeta.
  destruct (research_log_is_log_of_actions Demo.World Demo.ascii_only
              (Demo.scripted [Demo.reply_calc; Demo.reply_answer]
                 Demo.reply_thinking)
              (Samples.researcher Demo.calc_kit 5) (u "23 * 17 + 156")
              Demo.start
              (snd (research_agent.research Demo.ascii_only
                      (Demo.scripted [Demo.reply_calc; Demo.reply_answer]
                         Demo.reply_thinking)
                      (Samples.researcher Demo.calc_kit 5)
                      (u "23 * 17 + 156") Demo.start))
              Samples.research_result)
    as (R & _ & tr & T & K).
  - vm_compute. reflexivity.
  - split; [exact R|]. exists tr. split; [exact T | exact K].
Defined.

(** X15.  The budget and the result of [ResearchAgent.research].  The
    model is asked at most [max_iterations] times however the run ends.
    A result carries the topic it was asked for.  With [success] true its
    field [iterations] is the number of requests made to the model, it
    lies between 1 and [max_iterations], and the answer is not empty.
    With [success] false the answer is the text
    [Исследование не завершено], [iterations] is [max_iterations], and
    the number of requests made is [max_iterations], or zero when
    [max_iterations] is negative: only then does [iterations] differ from
    the number of requests. *)
Theorem research_result_counts_iterations :
  forall (World : Type) (ua : char -> bool)
         (llm : list message -> World -> result str * World)
         (self : research_agent.ResearchAgent World) (topic : str)
         (s : store World),
  exists tr,
    trace (snd (research_agent.research ua llm self topic s))
    = trace s ++ tr
    /\ model_calls tr <= Z.to_nat (research_agent.max_iterations self)
    /\ forall res,
         fst (research_agent.research ua llm self topic s) = Ok res ->
         research_agent.topic res = topic
         /\ if research_agent.success res
            then Z.of_nat (model_calls tr) = research_agent.iterations res
                 /\ (1 <= research_agent.iterations res
                     <= research_agent.max_iterations self)%Z
                 /\ research_agent.answer res <> []
            else research_agent.answer res = research_agent.FAILURE
                 /\ research_agent.iterations res
                    = research_agent.max_iterations self
                 /\ Z.of_nat (model_calls tr)
                    = Z.max 0 (research_agent.max_iterations self).
Proof.
  intros World ua llm self topic s.
  rewrite (ResearchRunFacts.research_eq World ua llm self topic s).
  destruct (ResearchRunFacts.research_for_loop_spec World ua llm self topic
              (range 1 (research_agent.max_iterations self + 1))
              (research_agent.initial_state self topic) s eq_refl
              (Forall_nil _))
    as (tr & new & T & B & O).
  rewrite RunFacts.budget_length in B.
  exists tr.
  destruct (research_agent.for_loop ua llm self topic _ _ s)
    as [[[res1|st]|e] s1]; cbn [fst snd] in *;
    (split; [exact T|]); (split; [exact B|]); intros res E;
    [| |discriminate E]; injection E as <-.
  - destruct O as (Tp & _ & _ & _ & _ & Sc & N & k & Nk & Mk).
    pose proof (RunFacts.range_nth _ _ _ _ Nk) as I.
    apply nth_error_In, RunFacts.range_bounds in Nk.
    split; [exact Tp|]. rewrite Sc.
    split; [lia|]. split; [lia | exact N].
  - destruct O as (_ & _ & _ & _ & Mk).
    cbn [research_agent.topic research_agent.iterations
         research_agent.success research_agent.answer].
    rewrite Mk, RunFacts.budget_length. repeat split. lia.
Qed.

Lemma research_result_counts_iterations_witness :
  exists tr,
    trace (snd (research_agent.research Demo.ascii_only
                  (Demo.scripted [Demo.reply_calc; Demo.reply_answer]
                     Demo.reply_thinking)
                  (Samples.researcher Demo.calc_kit 5) (u "23 * 17 + 156")
                  Demo.start))
    = trace Demo.start ++ tr
    /\ Z.of_nat (model_calls tr) = 2%Z.
Proof.
  destruct (research_result_counts_iterations Demo.World Demo.ascii_only
              (Demo.scripted [Demo.reply_calc; Demo.reply_answer]
                 Demo.reply_thinking)
              (Samples.researcher Demo.calc_kit 5) (u "23 * 17 + 156")
              Demo.start)
    as (tr & T & _ & R).
  exists tr. split; [exact T|].
  destruct (R Samples.research_result) as (_ & M & _).
  - vm_compute. reflexivity.
  - exact M.
Defined.

(** ** The evaluators: what is evaluated and what is raised *)

Module WhitelistFacts.

Import TextFacts.

(** Induction on expressions, with the arguments of a call. *)
Lemma expr_induction (V : Type) (P : expr V -> Prop) :
  (forall v, P (Constant v)) ->
  (forall id, P (Name id)) ->
  (forall l o r, P l -> P r -> P (BinOp l o r)) ->
  (forall o e, P e -> P (UnaryOp o e)) ->
  (forall f args, P f -> Forall P args -> P (Call f args)) ->
  (forall tn, P (Other tn)) ->
  forall node, P node.
Proof.
  intros HC HN HB HU HCall HO. fix IH 1.
  intros [v|id|l o r|o e|f args|tn].
  - apply HC.
  - apply HN.
  - apply HB; apply IH.
  - apply HU; apply IH.
  - apply HCall; [apply IH|].
    induction args as [|a args IHargs]; constructor; [apply IH | exact IHargs].
  - apply HO.
Qed.

Lemma strip_idempotent (s : str) : strip (strip s) = strip s.
Proof.
  unfold strip. destruct (strip_if_ends isspace s) as [Hh Hl].
  now apply strip_if_kept.
Qed.

Lemma bind_result_ok {A B} (r : result A) (f : A -> result B) (b : B) :
  bind_result r f = Ok b -> exists a, r = Ok a /\ f a = Ok b.
Proof. destruct r as [a|e]; [now exists a | discriminate]. Qed.

Section WithHost.

Variable h : Host.

Lemma map_result_ok (f : expr (value h) -> result (value h))
    (P : expr (value h) -> bool) (args : list (expr (value h))) :
  Forall (fun a => forall v, f a = Ok v -> P a = true) args ->
  forall vs, map_result f args = Ok vs -> forallb P args = true.
Proof.
  induction 1 as [|a args Ha _ IH]; intros vs H; [reflexivity|].
  cbn [map_result] in H.
  apply bind_result_ok in H as (v & Ea & H).
  apply bind_result_ok in H as (vs' & Eargs & _).
  cbn [forallb]. now rewrite (Ha v Ea), (IH vs' Eargs).
Qed.

Lemma map_result_ext (f g : expr (value h) -> result (value h))
    (P : expr (value h) -> bool) (args : list (expr (value h))) :
  Forall (fun a => P a = true -> f a = g a) args ->
  forallb P args = true ->
  map_result f args = map_result g args.
Proof.
  induction 1 as [|a args Ha _ IH]; intro H; [reflexivity|].
  cbn [forallb] in H. apply andb_true_iff in H as [Pa Pargs].
  cbn [map_result]. now rewrite (Ha Pa), (IH Pargs).
Qed.

Lemma evaluates_only_whitelisted (node : expr (value h)) :
  forall v, calculator._eval_node h node = Ok v -> whitelisted node = true.
Proof.
  induction node as [c|id|l o r IHl IHr|o e IHe|f args _ IHargs|tn]
    using expr_induction; intros v H; cbn [calculator._eval_node] in H.
  - reflexivity.
  - cbn [whitelisted]. unfold dict_mem.
    now destruct (dict_get id calculator.CONSTANTS).
  - apply bind_result_ok in H as (vl & El & H).
    apply bind_result_ok in H as (vr & Er & H).
    cbn [whitelisted]. rewrite (IHl vl El), (IHr vr Er). unfold has_op.
    now destruct (opclass_get (inl o) calculator.OPERATORS).
  - apply bind_result_ok in H as (ve & Ee & H).
    cbn [whitelisted]. rewrite (IHe ve Ee). unfold has_op.
    now destruct (opclass_get (inr o) calculator.OPERATORS).
  - destruct f as [c|id|l o r|o e|f' args'|tn]; try discriminate H.
    cbn [whitelisted]. unfold dict_mem.
    destruct (dict_get id calculator.FUNCTIONS); [|discriminate H].
    apply bind_result_ok in H as (vs & Eargs & _).
    exact (map_result_ok _ _ args IHargs vs Eargs).
  - discriminate H.
Qed.

(** The tables of the inline evaluator are part of the tables of
    tools/calculator.py. *)
Lemma inline_operators_listed (k : opclass) (f : host_fn) :
  opclass_get k examples.OPERATORS = Some f ->
  opclass_get k calculator.OPERATORS = Some f.
Proof. destruct k as [[]|[]]; cbn; congruence. Qed.

Lemma inline_functions_listed (id : str) (f : host_fn) :
  dict_get id examples.FUNCTIONS = Some f ->
  dict_get id calculator.FUNCTIONS = Some f.
Proof.
  unfold examples.FUNCTIONS. cbn [dict_get].
  repeat match goal with
         | |- context [str_eqb id ?k] =>
           let E := fresh "E" in
           destruct (str_eqb id k) eqn:E;
             [apply str_eqb_eq in E; subst id; intro H; rewrite <- H;
              vm_compute; reflexivity|]
         end.
  discriminate.
Qed.

Lemma inline_constants_listed (id : str) (c : host_const) :
  dict_get id examples.CONSTANTS = Some c ->
  dict_get id calculator.CONSTANTS = Some c.
Proof.
  unfold examples.CONSTANTS. cbn [dict_get].
  repeat match goal with
         | |- context [str_eqb id ?k] =>
           let E := fresh "E" in
           destruct (str_eqb id k) eqn:E;
             [apply str_eqb_eq in E; subst id; intro H; rewrite <- H;
              vm_compute; reflexivity|]
         end.
  discriminate.
Qed.

Lemma evaluators_agree (node : expr (value h)) :
  common node = true ->
  examples._eval h node = calculator._eval_node h node.
Proof.
  induction node as [c|id|l o r IHl IHr|o e IHe|f args _ IHargs|tn]
    using expr_induction; intro C;
    cbn [common] in C; cbn [examples._eval calculator._eval_node].
  - reflexivity.
  - unfold dict_mem in C.
    destruct (dict_get id examples.CONSTANTS) as [c|] eqn:E;
      [|discriminate C].
    now rewrite (inline_constants_listed id c E).
  - apply andb_true_iff in C as [C Co]. apply andb_true_iff in C as [Cl Cr].
    unfold has_op in Co.
    destruct (opclass_get (inl o) examples.OPERATORS) as [op|] eqn:E;
      [|discriminate Co].
    rewrite (inline_operators_listed _ _ E), (IHl Cl), (IHr Cr).
    reflexivity.
  - apply andb_true_iff in C as [Ce Co]. unfold has_op in Co.
    destruct (opclass_get (inr o) examples.OPERATORS) as [op|] eqn:E;
      [|discriminate Co].
    rewrite (inline_operators_listed _ _ E), (IHe Ce). reflexivity.
  - destruct f as [c|id|l o r|o e|f' args'|tn]; try discriminate C.
    apply andb_true_iff in C as [Cf Cargs]. unfold dict_mem in Cf.
    destruct (dict_get id examples.FUNCTIONS) as [fn|] eqn:E;
      [|discriminate Cf].
    rewrite (inline_functions_listed id fn E).
    now rewrite (map_result_ext _ _ _ args IHargs Cargs).
  - discriminate C.
Qed.

End WithHost.

End WhitelistFacts.

(** X16.  tools/calculator.py: an expression that is empty or holds only
    white space is refused with [ValueError] and the text
    [Выражение не может быть пустым], whatever the host's parser would
    make of it. *)
Theorem calculator_rejects_blank :
  forall (h : Host) (expression : str),
    forallb isspace expression = true ->
    calculator.safe_calculator h expression
    = Raise (Exc ValueError (u "Выражение не может быть пустым")).
Proof.
  intros h expression B. unfold calculator.safe_calculator.
  destruct expression as [|c t]; [reflexivity|].
  unfold strip. now rewrite (TextFacts.strip_if_all isspace (c :: t) B).
Qed.

Lemma calculator_rejects_blank_witness :
  calculator.safe_calculator ArithParser.py (u "  ")
  = Raise (Exc ValueError (u "Выражение не может быть пустым")).
Proof.
  apply (calculator_rejects_blank ArithParser.py (u "  ")).
  vm_compute. reflexivity.
Defined.

(** X17.  tools/calculator.py: white space around an expression never
    changes the outcome; the value or the error of an expression is that
    of the expression with the white space at its ends removed. *)
Theorem calculator_ignores_surrounding_space :
  forall (h : Host) (expression : str),
    calculator.safe_calculator h expression
    = calculator.safe_calculator h (strip expression).
Proof.
  intros h expression. unfold calculator.safe_calculator.
  rewrite WhitelistFacts.strip_idempotent.
  destruct expression as [|c t]; [reflexivity|].
  now destruct (strip (c :: t)).
Qed.

(** X18.  tools/calculator.py: every failure of [safe_calculator] is a
    [ValueError] with one of four texts: the text for an empty
    expression, the text for a division by zero, the text for a syntax
    error, or the text for any other error, the last two naming the
    expression (without the white space at its ends) and ending with the
    text of the exception that was caught. *)
Theorem calculator_errors_have_known_texts :
  forall (h : Host) (expression : str) (e : exc),
    calculator.safe_calculator h expression = Raise e ->
    exc_type e = ValueError
    /\ (exc_str e = u "Выражение не может быть пустым"
        \/ exc_str e = u "Деление на ноль"
        \/ (exists caught,
               exc_str e
               = u "Синтаксическая ошибка в выражении '"
                   ++ strip expression ++ u "': " ++ caught)
        \/ (exists caught,
               exc_str e
               = u "Ошибка вычисления '" ++ strip expression ++ u "': "
                   ++ caught)).
Proof.
  intros h expression e. unfold calculator.safe_calculator.
  destruct expression as [|c t];
    [intro H; injection H as <-; split; [reflexivity | now left]|].
  destruct (strip (c :: t)) as [|c' t'];
    [intro H; injection H as <-; split; [reflexivity | now left]|].
  cbv zeta.
  destruct (bind_result _ _) as [v|e']; [discriminate|].
  destruct (exc_type e'); intro H; injection H as <-;
    (split; [reflexivity|]); cbn [exc_str];
    try (right; right; right; now exists (exc_str e')).
  - right. now left.
  - right. right. left. now exists (exc_str e').
Qed.

Lemma calculator_errors_have_known_texts_witness :
  exc_type (Exc ValueError (u "Деление на ноль")) = ValueError
  /\ (exc_str (Exc ValueError (u "Деление на ноль"))
      = u "Выражение не может быть пустым"
      \/ exc_str (Exc ValueError (u "Деление на ноль")) = u "Деление на ноль"
      \/ (exists caught,
             exc_str (Exc ValueError (u "Деление на ноль"))
             = u "Синтаксическая ошибка в выражении '"
                 ++ strip (u "10 / 0") ++ u "': " ++ caught)
      \/ (exists caught,
             exc_str (Exc ValueError (u "Деление на ноль"))
             = u "Ошибка вычисления '" ++ strip (u "10 / 0") ++ u "': "
                 ++ caught)).
Proof.
  apply (calculator_errors_have_known_texts ArithParser.py (u "10 / 0")).
  vm_compute. reflexivity.
Defined.

(** X19.  tools/calculator.py evaluates nothing outside its whitelist: when
    [safe_calculator] returns a value, the expression (without the white
    space at its ends) has parsed to a tree that holds only literals,
    names of [CONSTANTS], operators of [OPERATORS] and calls, by name,
    of functions of [FUNCTIONS]; a tree with any other node, name,
    operator or call has no value. *)
Theorem calculator_evaluates_only_whitelisted :
  forall (h : Host) (expression : str) (v : value h),
    calculator.safe_calculator h expression = Ok v ->
    exists tree,
      ast_parse h (strip expression) = Ok tree
      /\ whitelisted tree = true
      /\ exists r, calculator._eval_node h tree = Ok r /\ float_ h r = Ok v.
Proof.
  intros h expression v. unfold calculator.safe_calculator.
  destruct expression as [|c t]; [discriminate|].
  destruct (strip (c :: t)) as [|c' t']; [discriminate|].
  cbv zeta.
  destruct (bind_result _ _) as [v'|e'] eqn:B;
    [|destruct (exc_type e'); discriminate].
  intro H. injection H as ->.
  apply WhitelistFacts.bind_result_ok in B as (tree & P & B).
  apply WhitelistFacts.bind_result_ok in B as (r & E & F).
  exists tree. split; [exact P|]. split.
  - exact (WhitelistFacts.evaluates_only_whitelisted h tree r E).
  - now exists r.
Qed.

Lemma calculator_evaluates_only_whitelisted_witness :
  exists tree,
    ast_parse ArithParser.py (strip (u " sqrt(16) + 2 ")) = Ok tree
    /\ whitelisted tree = true
    /\ exists r,
         calculator._eval_node ArithParser.py tree = Ok r
         /\ float_ ArithParser.py r
            = CPython.py_float (CPython.PyInt 6).
Proof.
  apply (calculator_evaluates_only_whitelisted ArithParser.py
           (u " sqrt(16) + 2 ")).
  vm_compute. reflexivity.
Defined.

(** X20.  The two evaluators agree where both know the expression.  On a
    tree of literals and of the names, operators and functions of the
    tables of the inline evaluator of the examples, [_eval] of the
    examples and [_eval_node] of tools/calculator.py give the same value
    or raise the same exception; and an expression that is not empty, has
    no white space at its ends and parses to such a tree has a value in
    one [safe_calculator] exactly when it has that value in the other. *)
Theorem evaluators_agree_on_common_fragment :
  forall (h : Host) (tree : expr (value h)),
    common tree = true ->
    examples._eval h tree = calculator._eval_node h tree
    /\ forall expression,
         ast_parse h expression = Ok tree ->
         strip expression = expression ->
         expression <> [] ->
         forall v,
           examples.safe_calculator h expression = Ok v
           <-> calculator.safe_calculator h expression = Ok v.
Proof.
  intros h tree C.
  pose proof (WhitelistFacts.evaluators_agree h tree C) as A.
  split; [exact A|].
  intros expression P St NE v.
  unfold examples.safe_calculator, calculator.safe_calculator.
  rewrite St, P. cbn [bind_result]. rewrite A.
  destruct expression as [|c t]; [congruence|].
  destruct (bind_result (calculator._eval_node h tree) _) as [r|e].
  - reflexivity.
  - split; [discriminate|]. destruct (exc_type e); discriminate.
Qed.

Lemma evaluators_agree_on_common_fragment_witness :
  examples._eval ArithParser.py
    (BinOp (Call (Name (u "sqrt")) [Constant (CPython.PyInt 16)]) Mult
           (Name (u "pi")))
  = calculator._eval_node ArithParser.py
      (BinOp (Call (Name (u "sqrt")) [Constant (CPython.PyInt 16)]) Mult
             (Name (u "pi")))
  /\ forall v,
       examples.safe_calculator ArithParser.py (u "sqrt(16) * pi") = Ok v
       <-> calculator.safe_calculator ArithParser.py (u "sqrt(16) * pi")
           = Ok v.
Proof.
  destruct (evaluators_agree_on_common_fragment ArithParser.py
              (BinOp (Call (Name (u "sqrt")) [Constant (CPython.PyInt 16)])
                     Mult (Name (u "pi"))) eq_refl) as [A B].
  split; [exact A|].
  apply (B (u "sqrt(16) * pi")).
  - vm_compute. reflexivity.
  - vm_compute. reflexivity.
  - vm_compute. discriminate.
Defined.

(** ** examples/simple_agent.py *)

Module SimpleFacts.

Import TextFacts simple_agent.

Ltac run_simple :=
  unfold simple_agent.bind, simple_agent.ret, simple_agent.raise,
    simple_agent.record, simple_agent.perform, simple_agent.catch,
    simple_agent.lift.

Lemma api_calls_app (a b : list call) :
  api_calls (a ++ b) = api_calls a + api_calls b.
Proof. induction a as [|[ms ts|n k] a IH]; simpl; auto. Qed.

(** Keywords that name no parameter given by position are bound. *)
Lemma bind_keywords_ok (method : str) (given : list str)
    (kwargs : list (str * json)) :
  (forall k, In k (dict_keys kwargs) -> ~ In k given) ->
  bind_keywords method given kwargs = Ok tt.
Proof.
  intro H. unfold bind_keywords.
  destruct (find _ kwargs) as [[k v]|] eqn:F; [|reflexivity].
  apply find_some in F. destruct F as [I X]. cbn [fst] in X.
  apply existsb_exists in X. destruct X as (g & G & E).
  apply str_eqb_eq in E. subst g.
  exfalso. apply (H k); [|exact G].
  unfold dict_keys. change k with (fst (k, v)). now apply in_map.
Qed.

Lemma reserved_free (kwargs : list (str * json)) :
  (forall k, In k (dict_keys kwargs) -> k <> u "self" /\ k <> u "name") ->
  (forall k, In k (dict_keys kwargs) -> ~ In k [u "self"; u "name"])
  /\ (forall k, In k (dict_keys kwargs) -> ~ In k [u "self"]).
Proof.
  intro H. split; intros k I; destruct (H k I) as [A B]; cbn [In];
    intuition congruence.
Qed.

Lemma clash_text (k : str) :
  u "ToolKit.execute" ++ u "() got multiple values for argument '" ++ k
    ++ u "'"
  = u "ToolKit.execute() got multiple values for argument '" ++ k ++ u "'".
Proof.
  rewrite app_assoc. apply (f_equal (fun x => x ++ k ++ u "'")).
  vm_compute. reflexivity.
Qed.

Lemma one_keyword (k : str) (v : json) :
  k <> u "self" -> k <> u "name" ->
  forall k', In k' (dict_keys [(k, v)]) -> k' <> u "self" /\ k' <> u "name".
Proof. intros A B k' [<-|[]]. now split. Qed.

Section Agent.

Variable World : Type.
Variable api : list Msg -> list json -> World -> result Reply * World.
Variable json_loads : str -> result json.
Variable repr : str -> str.
Variable self : SimpleAgent World.

#[local] Abbreviation answer := (answer_tool_call json_loads repr self).
#[local] Abbreviation answers := (answer_tool_calls json_loads repr self).
#[local] Abbreviation loop := (while_loop api json_loads repr self).

(** The text that [Tool.execute] makes of the outcome of the callable. *)
Lemma simple_execute_eq (tk : ToolKit World) (tool_name : str)
    (kwargs : list (str * json)) (s : state World) :
  (forall k, In k (dict_keys kwargs) -> k <> u "self" /\ k <> u "name") ->
  execute tk tool_name kwargs s
  = match dict_get tool_name tk with
    | None =>
      (Ok (u "Инструмент '" ++ tool_name ++ u "' не найден"),
       State (outside s) (calls s ++ [tool_call tool_name kwargs]))
    | Some tool =>
      (Ok match fst (func tool kwargs (outside s)) with
          | Ok r => r
          | Raise e => u "Ошибка: " ++ exc_str e
          end,
       State (snd (func tool kwargs (outside s)))
             (calls s ++ [tool_call tool_name kwargs]))
    end.
Proof.
  intro H. destruct (reserved_free kwargs H) as [H2 H1].
  unfold execute, Tool_execute.
  rewrite (bind_keywords_ok _ _ kwargs H2), (bind_keywords_ok _ _ kwargs H1).
  run_simple.
  destruct (dict_get tool_name tk) as [tool|]; [|reflexivity].
  cbn [outside calls].
  now destruct (func tool kwargs (outside s)) as [[r|e] w].
Qed.

(** A keyword called [self] or [name] does not reach the registry. *)
Lemma simple_execute_reserved (tk : ToolKit World) (tool_name k : str)
    (v : json) (s : state World) :
  k = u "self" \/ k = u "name" ->
  execute tk tool_name [(k, v)] s
  = (Raise (Exc TypeError
              (u "ToolKit.execute() got multiple values for argument '"
                 ++ k ++ u "'")), s).
Proof.
  intro H. unfold execute. run_simple. unfold bind_keywords.
  cbn [find fst existsb].
  assert (R : str_eqb k (u "self") || (str_eqb k (u "name") || false)
              = true).
  { destruct H as [H|H]; apply str_eqb_eq in H; rewrite H;
      [reflexivity | now destruct (str_eqb k (u "self"))]. }
  rewrite R. cbv iota beta. now rewrite clash_text.
Qed.

(** The value that a tool call passes: the argument under the tool's
    first parameter when the model gave one, else the first argument the
    model gave, else the empty text. *)
Lemma answer_registered (tc : ToolCall) (tool : Tool World) (k : str)
    (ks : list str) (d : list (str * json)) (s : state World) :
  dict_get (tc_name tc) (toolkit self) = Some tool ->
  dict_keys (parameters tool) = k :: ks ->
  k <> u "self" -> k <> u "name" ->
  json_loads (tc_arguments tc) = Ok (JDict d) ->
  let v := match dict_get k d with
           | Some v => v
           | None => first_value d
           end in
  let out := func tool [(k, v)] (outside s) in
  answer tc s
  = (Ok (ToolResult (tc_id tc)
           match fst out with
           | Ok r => r
           | Raise e => u "Ошибка: " ++ exc_str e
           end),
     State (snd out) (calls s ++ [tool_call (tc_name tc) [(k, v)]])).
Proof.
  intros T P A B J. cbv zeta. unfold answer_tool_call.
  unfold simple_agent.bind at 1. unfold simple_agent.lift. rewrite J, T, P.
  unfold simple_agent.bind.
  rewrite simple_execute_eq by (now apply one_keyword).
  rewrite T. reflexivity.
Qed.

(** A tool whose first parameter is called [self] or [name] cannot be
    called. *)
Lemma answer_reserved (tc : ToolCall) (tool : Tool World) (k : str)
    (ks : list str) (d : list (str * json)) (s : state World) :
  dict_get (tc_name tc) (toolkit self) = Some tool ->
  dict_keys (parameters tool) = k :: ks ->
  k = u "self" \/ k = u "name" ->
  json_loads (tc_arguments tc) = Ok (JDict d) ->
  answer tc s
  = (Raise (Exc TypeError
              (u "ToolKit.execute() got multiple values for argument '"
                 ++ k ++ u "'")), s).
Proof.
  intros T P R J. unfold answer_tool_call.
  unfold simple_agent.bind at 1. unfold simple_agent.lift. rewrite J, T, P.
  unfold simple_agent.bind.
  now rewrite simple_execute_reserved by exact R.
Qed.

(** The tool is looked up before the arguments are used. *)
Lemma answer_unregistered (tc : ToolCall) (args : json) (s : state World) :
  json_loads (tc_arguments tc) = Ok args ->
  dict_get (tc_name tc) (toolkit self) = None ->
  answer tc s = (Raise (Exc KeyError (repr (tc_name tc))), s).
Proof.
  intros J T. unfold answer_tool_call. run_simple. now rewrite J, T.
Qed.

(** A tool call by cases: it adds one message for the call, having
    called the tool once, or it raises before any tool is called. *)
Lemma answer_cases (tc : ToolCall) (s : state World) :
  match answer tc s with
  | (Ok m, s') =>
    exists text tool k v,
      m = ToolResult (tc_id tc) text
      /\ dict_get (tc_name tc) (toolkit self) = Some tool
      /\ calls s' = calls s ++ [tool_call (tc_name tc) [(k, v)]]
  | (Raise e, s') =>
    s' = s /\ tool_call_raises json_loads repr self tc e
  end.
Proof.
  unfold tool_call_raises.
  destruct (json_loads (tc_arguments tc)) as [args|e] eqn:J.
  - destruct (dict_get (tc_name tc) (toolkit self)) as [tool|] eqn:T.
    + destruct (dict_keys (parameters tool)) as [|k ks] eqn:P.
      * unfold answer_tool_call. run_simple. rewrite J, T, P.
        split; [reflexivity|]. right. right. left. exists tool.
        repeat split. now destruct (parameters tool).
      * destruct args as [| | | | |items|d];
          try (unfold answer_tool_call; run_simple; rewrite J, T, P;
               split; [reflexivity|]; right; right; right; left;
               eexists; split; [reflexivity|]; split;
               [discriminate | reflexivity]).
        destruct (str_eqb k (u "self")) eqn:A;
          [apply str_eqb_eq in A
          |apply str_eqb_neq in A;
           destruct (str_eqb k (u "name")) eqn:B;
           [apply str_eqb_eq in B | apply str_eqb_neq in B]].
        -- rewrite (answer_reserved tc tool k ks d s T P (or_introl A) J).
           split; [reflexivity|]. do 4 right.
           exists tool, k. rewrite P. cbn [hd_error].
           repeat split; [now left | now exists d].
        -- rewrite (answer_reserved tc tool k ks d s T P (or_intror B) J).
           split; [reflexivity|]. do 4 right.
           exists tool, k. rewrite P. cbn [hd_error].
           repeat split; [now right | now exists d].
        -- rewrite (answer_registered tc tool k ks d s T P A B J).
           eexists _, tool, k, _. repeat split.
    + unfold answer_tool_call. run_simple. rewrite J, T.
      split; [reflexivity|]. right. left. now split.
  - unfold answer_tool_call. run_simple. rewrite J.
    split; [reflexivity|]. now left.
Qed.

Lemma answers_cons (tc : ToolCall) (rest : list ToolCall)
    (messages : list Msg) (s : state World) :
  answers (tc :: rest) messages s
  = match answer tc s with
    | (Ok m, s') => answers rest (messages ++ [m]) s'
    | (Raise e, s') => (Raise e, s')
    end.
Proof. reflexivity. Qed.

(** The tool calls of a reply: one message for each call that was
    answered, in order, and no request to the service. *)
Lemma answers_cases (tcs : list ToolCall) :
  forall (messages : list Msg) (s : state World),
  exists cs,
    calls (snd (answers tcs messages s)) = calls s ++ cs
    /\ api_calls cs = 0
    /\ match fst (answers tcs messages s) with
       | Ok messages' =>
         exists results,
           messages' = messages ++ results
           /\ Forall2 (fun tc m => exists text, m = ToolResult (tc_id tc) text)
                      tcs results
           /\ List.length cs = List.length tcs
       | Raise e => List.length cs < List.length tcs
       end.
Proof.
  induction tcs as [|tc rest IH]; intros messages s.
  - exists []. cbn. rewrite app_nil_r. repeat split.
    exists []. rewrite app_nil_r. repeat split. constructor.
  - rewrite answers_cons. pose proof (answer_cases tc s) as C.
    destruct (answer tc s) as [[m|e] s1].
    + destruct C as (text & tool & k & v & -> & _ & C1).
      destruct (IH (messages ++ [ToolResult (tc_id tc) text]) s1)
        as (cs & C2 & A2 & O2).
      exists (tool_call (tc_name tc) [(k, v)] :: cs).
      split; [rewrite C2, C1; now rewrite <- app_assoc|].
      split; [exact A2|].
      destruct (fst (answers rest _ s1)) as [messages'|e].
      * destruct O2 as (results & -> & F & L).
        exists (ToolResult (tc_id tc) text :: results).
        rewrite <- app_assoc. repeat split.
        -- constructor; [now exists text | exact F].
        -- cbn [List.length]. now rewrite L.
      * cbn [List.length]. lia.
    + destruct C as [-> _]. exists []. cbn. rewrite app_nil_r.
      repeat split. lia.
Qed.


Lemma while_loop_succ (remaining : nat) (messages : list Msg)
    (s : state World) :
  loop (S remaining) messages s
  = match api messages (get_schemas (toolkit self)) (outside s) with
    | (Raise e, w) =>
      (Raise e,
       State w (calls s
                  ++ [api_call messages (get_schemas (toolkit self))]))
    | (Ok message, w) =>
      let s1 :=
        State w (calls s
                   ++ [api_call messages (get_schemas (toolkit self))]) in
      match tool_calls message with
      | [] =>
        (Ok match content message with
            | Some a => a
            | None => JStr []
            end, s1)
      | tc :: rest =>
        match answers (tc :: rest) (messages ++ [FromModel message]) s1 with
        | (Ok messages', s2) => loop remaining messages' s2
        | (Raise e, s2) => (Raise e, s2)
        end
      end
    end.
Proof.
  cbn [while_loop]. unfold _call_api. run_simple. cbn [outside calls].
  destruct (api messages (get_schemas (toolkit self)) (outside s))
    as [[message|e] w]; [|reflexivity].
  now destruct (tool_calls message).
Qed.

Lemma no_api_request (cs : list call) :
  api_calls cs = 0 -> api_requests cs = [].
Proof.
  induction cs as [|[ms ts|n k] cs IH]; simpl; [auto | discriminate | auto].
Qed.

Lemma api_requests_app (a b : list call) :
  api_requests (a ++ b) = api_requests a ++ api_requests b.
Proof.
  induction a as [|[ms ts|n k] a IH]; simpl; auto. now f_equal.
Qed.

(** The loop: at most [remaining] requests, each with the schemas of the
    registry and a transcript that extends the one the loop started
    with. *)
Lemma while_loop_budget (remaining : nat) :
  forall (messages : list Msg) (s : state World),
  exists cs,
    calls (snd (loop remaining messages s)) = calls s ++ cs
    /\ api_calls cs <= remaining
    /\ Forall (fun req =>
                 snd req = get_schemas (toolkit self)
                 /\ exists more, fst req = messages ++ more)
              (api_requests cs).
Proof.
  induction remaining as [|remaining IH]; intros messages s.
  - exists []. cbn. rewrite app_nil_r.
    split; [reflexivity|]. split; [lia | constructor].
  - rewrite while_loop_succ.
    assert (First : Forall (fun req =>
                              snd req = get_schemas (toolkit self)
                              /\ exists more, fst req = messages ++ more)
                      [(messages, get_schemas (toolkit self))]).
    { repeat constructor. exists []. cbn. now rewrite app_nil_r. }
    destruct (api messages (get_schemas (toolkit self)) (outside s))
      as [[message|e] w].
    + cbv zeta. destruct (tool_calls message) as [|tc rest].
      * exists [api_call messages (get_schemas (toolkit self))].
        cbn. repeat split; [lia | exact First].
      * destruct (answers_cases (tc :: rest)
                    (messages ++ [FromModel message])
                    (State w (calls s
                                ++ [api_call messages
                                      (get_schemas (toolkit self))])))
          as (cs1 & C1 & A1 & O1).
        destruct (answers (tc :: rest) _ _) as [[messages'|e] s2];
          cbn [fst snd calls] in *.
        -- destruct O1 as (results & -> & _ & _).
           destruct (IH ((messages ++ [FromModel message]) ++ results) s2)
             as (cs2 & C2 & A2 & F2).
           exists (api_call messages (get_schemas (toolkit self))
                     :: cs1 ++ cs2).
           split; [rewrite C2, C1; now rewrite <- !app_assoc|].
           split.
           { cbn [api_calls]. rewrite api_calls_app. lia. }
           cbn [api_requests]. rewrite api_requests_app.
           rewrite (no_api_request cs1 A1). cbn [app].
           constructor; [inversion First; assumption|].
           apply Forall_forall. intros req I.
           rewrite Forall_forall in F2. destruct (F2 req I) as [S2 [more M2]].
           split; [exact S2|].
           exists (FromModel message :: results ++ more).
           rewrite M2. now rewrite <- !app_assoc.
        -- exists (api_call messages (get_schemas (toolkit self)) :: cs1).
           split; [rewrite C1; now rewrite <- !app_assoc|].
           split; [cbn [api_calls]; lia|].
           cbn [api_requests]. rewrite (no_api_request cs1 A1).
           exact First.
    + exists [api_call messages (get_schemas (toolkit self))].
      cbn. repeat split; [lia | exact First].
Qed.


End Agent.

End SimpleFacts.

(** X21.  [ToolKit.execute(name, **kwargs)] of simple_agent.py with
    keywords other than [self] and [name] never raises: for a name that
    is not registered it returns the text that the tool was not found
    and calls nothing; for a registered tool it returns what the tool's
    callable returns, or the text [Ошибка: ] followed by [str(e)] when
    the callable raises [e], also when the tool declares no parameter. *)
Theorem simple_execute_never_raises :
  forall (World : Type) (tk : simple_agent.ToolKit World) (tool_name : str)
         (kwargs : list (str * json)) (s : simple_agent.state World),
    (forall k, In k (dict_keys kwargs) -> k <> u "self" /\ k <> u "name") ->
    exists text w,
      simple_agent.execute tk tool_name kwargs s
      = (Ok text,
         simple_agent.State w
           (simple_agent.calls s
              ++ [simple_agent.tool_call tool_name kwargs]))
      /\ match dict_get tool_name tk with
         | None =>
           text = u "Инструмент '" ++ tool_name ++ u "' не найден"
           /\ w = simple_agent.outside s
         | Some tool =>
           (text, w)
           = match simple_agent.func tool kwargs (simple_agent.outside s)
             with
             | (Ok r, w') => (r, w')
             | (Raise e, w') => (u "Ошибка: " ++ exc_str e, w')
             end
         end.
Proof.
  intros World tk tool_name kwargs s H.
  rewrite SimpleFacts.simple_execute_eq by exact H.
  destruct (dict_get tool_name tk) as [tool|].
  - eexists _, _. split; [reflexivity|].
    now destruct (simple_agent.func tool kwargs (simple_agent.outside s))
      as [[r|e] w].
  - eexists _, _. split; [reflexivity|]. now split.
Qed.

Lemma simple_execute_never_raises_witness :
  exists text w,
    simple_agent.execute Samples.json_kit (u "calculator")
      [(u "expression", JInt 7)] Samples.simple_start
    = (Ok text,
       simple_agent.State w
         (simple_agent.calls Samples.simple_start
            ++ [simple_agent.tool_call (u "calculator")
                  [(u "expression", JInt 7)]]))
    /\ match dict_get (u "calculator") Samples.json_kit with
       | None =>
         text = u "Инструмент '" ++ u "calculator" ++ u "' не найден"
         /\ w = simple_agent.outside Samples.simple_start
       | Some tool =>
         (text, w)
         = match simple_agent.func tool [(u "expression", JInt 7)]
                   (simple_agent.outside Samples.simple_start)
           with
           | (Ok r, w') => (r, w')
           | (Raise e, w') => (u "Ошибка: " ++ exc_str e, w')
           end
       end.
Proof.
  apply (simple_execute_never_raises Demo.World Samples.json_kit
           (u "calculator") [(u "expression", JInt 7)]
           Samples.simple_start).
  intros k [<-|[]]. split; intro E; vm_compute in E; discriminate E.
Defined.

(** X22.  The budget of [SimpleAgent.run], however the run ends: the
    service is asked at most [max_tool_calls] times, and not at all when
    [max_tool_calls] is zero or negative, the run then returning the text
    that the number of tool calls was exceeded.  Every request carries
    the schemas of the registry and a transcript that starts with the
    system prompt and the user's message. *)
Theorem simple_run_within_budget :
  forall (World : Type)
         (api : list simple_agent.Msg -> list json -> World
                -> result simple_agent.Reply * World)
         (json_loads : str -> result json) (repr : str -> str)
         (self : simple_agent.SimpleAgent World) (user_message : str)
         (max_tool_calls : Z) (s : simple_agent.state World),
  exists cs,
    simple_agent.calls
      (snd (simple_agent.run api json_loads repr self user_message
              max_tool_calls s))
    = simple_agent.calls s ++ cs
    /\ simple_agent.api_calls cs <= Z.to_nat max_tool_calls
    /\ Forall (fun req =>
                 snd req = simple_agent.get_schemas
                             (simple_agent.toolkit self)
                 /\ firstn 2 (fst req)
                    = simple_agent.initial_messages self user_message)
              (api_requests cs)
    /\ ((max_tool_calls <= 0)%Z ->
        simple_agent.run api json_loads repr self user_message
          max_tool_calls s
        = (Ok (JStr simple_agent.LIMIT), s)).
Proof.
  intros World api json_loads repr self user_message max_tool_calls s.
  unfold simple_agent.run.
  destruct (SimpleFacts.while_loop_budget World api json_loads repr self
              (Z.to_nat max_tool_calls)
              (simple_agent.initial_messages self user_message) s)
    as (cs & C & A & F).
  exists cs. split; [exact C|]. split; [exact A|]. split.
  - apply Forall_forall. intros req I. rewrite Forall_forall in F.
    destruct (F req I) as [S [more M]]. split; [exact S|].
    now rewrite M.
  - intro H. now replace (Z.to_nat max_tool_calls) with 0 by lia.
Qed.

(** X23.  A tool name that the registry does not hold stops
    [SimpleAgent.run]: when the first reply of the service asks for a
    tool that is not registered, with arguments that [json.loads] reads,
    the run raises [KeyError] for that name.  The registry is not called,
    so the text of [ToolKit.execute] for an unknown tool does not reach
    the model. *)
Theorem simple_run_unknown_tool_is_KeyError :
  forall (World : Type)
         (api : list simple_agent.Msg -> list json -> World
                -> result simple_agent.Reply * World)
         (json_loads : str -> result json) (repr : str -> str)
         (self : simple_agent.SimpleAgent World) (user_message : str)
         (max_tool_calls : Z) (s : simple_agent.state World)
         (message : simple_agent.Reply) (w : World)
         (tc : simple_agent.ToolCall) (rest : list simple_agent.ToolCall)
         (args : json),
    (0 < max_tool_calls)%Z ->
    api (simple_agent.initial_messages self user_message)
        (simple_agent.get_schemas (simple_agent.toolkit self))
        (simple_agent.outside s)
    = (Ok message, w) ->
    simple_agent.tool_calls message = tc :: rest ->
    json_loads (simple_agent.tc_arguments tc) = Ok args ->
    dict_get (simple_agent.tc_name tc) (simple_agent.toolkit self) = None ->
    simple_agent.run api json_loads repr self user_message max_tool_calls s
    = (Raise (Exc KeyError (repr (simple_agent.tc_name tc))),
       simple_agent.State w
         (simple_agent.calls s
            ++ [ simple_agent.api_call
                   (simple_agent.initial_messages self user_message)
                   (simple_agent.get_schemas
                      (simple_agent.toolkit self)) ])).
Proof.
  intros World api json_loads repr self user_message max_tool_calls s
         message w tc rest args Hmax Hapi Htc Hargs Hname.
  unfold simple_agent.run.
  replace (Z.to_nat max_tool_calls)
    with (S (Z.to_nat (max_tool_calls - 1))) by lia.
  rewrite SimpleFacts.while_loop_succ, Hapi. cbv zeta. rewrite Htc.
  rewrite SimpleFacts.answers_cons.
  now rewrite (SimpleFacts.answer_unregistered World json_loads repr self
                 tc args _ Hargs Hname).
Qed.

Lemma simple_run_unknown_tool_is_KeyError_witness :
  simple_agent.run
    (Samples.scripted_service
       [Samples.calls_tool (u "wikipedia") (u "query")]
       (Samples.says (u "42")))
    Samples.sample_loads Samples.sample_repr Samples.assistant_with_tools
    (u "6 * 7?") 3 Samples.simple_start
  = (Raise (Exc KeyError (u "'wikipedia'")),
     simple_agent.State tt
       [ simple_agent.api_call
           (simple_agent.initial_messages Samples.assistant_with_tools
              (u "6 * 7?"))
           (simple_agent.get_schemas Samples.json_kit) ]).
Proof.
  apply (simple_run_unknown_tool_is_KeyError Demo.World
           (Samples.scripted_service
              [Samples.calls_tool (u "wikipedia") (u "query")]
              (Samples.says (u "42")))
           Samples.sample_loads Samples.sample_repr
           Samples.assistant_with_tools (u "6 * 7?") 3
           Samples.simple_start
           (Samples.calls_tool (u "wikipedia") (u "query")) tt
           {| simple_agent.tc_id := u "call_1";
              simple_agent.tc_name := u "wikipedia";
              simple_agent.tc_arguments :=
                Samples.one_member (u "query") (u "6 * 7") |}
           [] (JDict [(u "query", JStr (u "6 * 7"))]));
    [lia | reflexivity | reflexivity | vm_compute; reflexivity
    | reflexivity].
Defined.

(** X24.  The argument that [SimpleAgent.run] passes to a tool.  For a
    tool call that names a registered tool with at least one parameter,
    the first not called [self] or [name], and whose arguments are a
    JSON object, the tool's callable is called once, with one keyword
    argument named by the tool's first parameter.
    Its value is the member of that name when the object has one,
    otherwise the first member of the object, otherwise the empty text;
    every other member is dropped.  The message appended carries the id
    of the call and what the tool returned, or [Ошибка: ] and [str(e)]
    when the callable raised [e]. *)
Theorem tool_call_passes_first_parameter :
  forall (World : Type) (json_loads : str -> result json)
         (repr : str -> str) (self : simple_agent.SimpleAgent World)
         (tc : simple_agent.ToolCall) (tool : simple_agent.Tool World)
         (k : str) (ks : list str) (d : list (str * json))
         (s : simple_agent.state World),
    dict_get (simple_agent.tc_name tc) (simple_agent.toolkit self)
    = Some tool ->
    dict_keys (simple_agent.parameters tool) = k :: ks ->
    k <> u "self" -> k <> u "name" ->
    json_loads (simple_agent.tc_arguments tc) = Ok (JDict d) ->
    let v := match dict_get k d with
             | Some v => v
             | None => simple_agent.first_value d
             end in
    let out := simple_agent.func tool [(k, v)] (simple_agent.outside s) in
    simple_agent.answer_tool_call json_loads repr self tc s
    = (Ok (simple_agent.ToolResult (simple_agent.tc_id tc)
             match fst out with
             | Ok r => r
             | Raise e => u "Ошибка: " ++ exc_str e
             end),
       simple_agent.State (snd out)
         (simple_agent.calls s
            ++ [simple_agent.tool_call (simple_agent.tc_name tc) [(k, v)]])).
Proof.
  intros World json_loads repr self tc tool k ks d s T P A B J.
  exact (SimpleFacts.answer_registered World json_loads repr self tc tool
           k ks d s T P A B J).
Qed.

Lemma tool_call_passes_first_parameter_witness :
  simple_agent.answer_tool_call Samples.sample_loads Samples.sample_repr
    Samples.assistant_with_tools
    {| simple_agent.tc_id := u "call_1";
       simple_agent.tc_name := u "calculator";
       simple_agent.tc_arguments :=
         Samples.one_member (u "query") (u "6 * 7") |}
    Samples.simple_start
  = (Ok (simple_agent.ToolResult (u "call_1") (u "42.0")),
     simple_agent.State tt
       [ simple_agent.tool_call (u "calculator")
           [(u "expression", JStr (u "6 * 7"))] ]).
Proof.
  apply (tool_call_passes_first_parameter Demo.World Samples.sample_loads
           Samples.sample_repr Samples.assistant_with_tools
           {| simple_agent.tc_id := u "call_1";
              simple_agent.tc_name := u "calculator";
              simple_agent.tc_arguments :=
                Samples.one_member (u "query") (u "6 * 7") |}
           Samples.json_calculator (u "expression") []
           [(u "query", JStr (u "6 * 7"))] Samples.simple_start);
    try reflexivity; intro E; vm_compute in E; discriminate E.
Defined.

(** X25.  The tool calls of one reply, when all of them are answered:
    [SimpleAgent.run] appends one tool message for each tool call of the
    reply, in the order of the calls and each with the id of its call,
    and nothing else; each call has reached the registry once, and the
    service was not asked in between. *)
Theorem tool_calls_are_answered_in_order :
  forall (World : Type) (json_loads : str -> result json)
         (repr : str -> str) (self : simple_agent.SimpleAgent World)
         (tcs : list simple_agent.ToolCall)
         (messages messages' : list simple_agent.Msg)
         (s s' : simple_agent.state World),
    simple_agent.answer_tool_calls json_loads repr self tcs messages s
    = (Ok messages', s') ->
    exists results cs,
      messages' = messages ++ results
      /\ Forall2 (fun tc m =>
                    exists text,
                      m = simple_agent.ToolResult (simple_agent.tc_id tc)
                            text)
                 tcs results
      /\ simple_agent.calls s' = simple_agent.calls s ++ cs
      /\ List.length cs = List.length tcs
      /\ simple_agent.api_calls cs = 0.
Proof.
  intros World json_loads repr self tcs messages messages' s s' H.
  destruct (SimpleFacts.answers_cases World json_loads repr self tcs
              messages s) as (cs & C & A & O).
  rewrite H in C, O. cbn [fst snd] in C, O.
  destruct O as (results & -> & F & L).
  now exists results, cs.
Qed.

Lemma tool_calls_are_answered_in_order_witness :
  exists results cs,
    [ simple_agent.Plain (u "user") (u "6 * 7?");
      simple_agent.ToolResult (u "call_1") (u "42.0") ]
    = [simple_agent.Plain (u "user") (u "6 * 7?")] ++ results
    /\ Forall2 (fun tc m =>
                  exists text,
                    m = simple_agent.ToolResult (simple_agent.tc_id tc) text)
               (simple_agent.tool_calls
                  (Samples.calls_tool (u "calculator") (u "expression")))
               results
    /\ [ simple_agent.tool_call (u "calculator")
           [(u "expression", JStr (u "6 * 7"))] ]
       = simple_agent.calls Samples.simple_start ++ cs
    /\ List.length cs = 1
    /\ simple_agent.api_calls cs = 0.
Proof.
  exact (tool_calls_are_answered_in_order Demo.World Samples.sample_loads
           Samples.sample_repr Samples.assistant_with_tools
           (simple_agent.tool_calls
              (Samples.calls_tool (u "calculator") (u "expression")))
           [simple_agent.Plain (u "user") (u "6 * 7?")]
           [ simple_agent.Plain (u "user") (u "6 * 7?");
             simple_agent.ToolResult (u "call_1") (u "42.0") ]
           Samples.simple_start
           (simple_agent.State tt
              [ simple_agent.tool_call (u "calculator")
                  [(u "expression", JStr (u "6 * 7"))] ])
           eq_refl).
Defined.



(** ** tools/search.py: the text of [wikipedia_search] *)

Module SearchFacts.

Import TextFacts AnswerFacts.

Lemma join_cons (sep x : str) (l : list str) :
  l <> [] -> join sep (x :: l) = x ++ sep ++ join sep l.
Proof. destruct l; [congruence | reflexivity]. Qed.

(** Joining the pieces of a split gives the text back. *)
Lemma join_split_scan (sep : str) :
  sep <> [] ->
  forall (n : nat) (s cur : str),
    List.length s <= n ->
    join sep (split_scan sep 0 cur s) = rev cur ++ s.
Proof.
  intros NE n. induction n as [|n IH]; intros s cur L.
  - destruct s; [|simpl in L; lia]. cbn. now rewrite app_nil_r.
  - destruct s as [|c t]; [cbn; now rewrite app_nil_r|].
    cbn [split_scan].
    destruct (drop_prefix sep (c :: t)) as [r|] eqn:D.
    + apply drop_prefix_inv in D.
      destruct sep as [|x sep']; [congruence|].
      injection D as Ec Et. subst c t.
      replace (List.length (x :: sep') - 1) with (List.length sep')
        by (simpl; lia).
      rewrite split_scan_skip.
      rewrite join_cons by apply split_scan_nonempty.
      rewrite IH.
      * reflexivity.
      * simpl in L. rewrite length_app in L. lia.
    + rewrite IH by (simpl in L; lia).
      cbn [rev]. now rewrite <- app_assoc.
Qed.

Lemma join_split (sep s : str) :
  sep <> [] -> join sep (split sep s) = s.
Proof.
  intro NE. unfold split.
  now rewrite (join_split_scan sep NE (List.length s) s []).
Qed.

(** The first pieces of a list, joined, start the whole list joined. *)
Lemma join_firstn (sep : str) (l : list str) :
  forall n, exists rest, join sep l = join sep (firstn n l) ++ rest.
Proof.
  induction l as [|x l IH]; intro n.
  - exists []. now rewrite firstn_nil.
  - destruct n as [|n]; [now exists (join sep (x :: l))|].
    cbn [firstn]. destruct l as [|y l].
    + exists []. rewrite firstn_nil. cbn. now rewrite app_nil_r.
    + destruct n as [|n].
      * now exists (sep ++ join sep (y :: l)).
      * destruct (IH (S n)) as [rest E]. exists rest.
        change (join sep (x :: y :: l))
          with (x ++ sep ++ join sep (y :: l)).
        change (join sep (x :: firstn (S n) (y :: l)))
          with (x ++ sep ++ join sep (firstn (S n) (y :: l))).
        rewrite E. now rewrite <- !app_assoc.
Qed.

Lemma drop_prefix_more (p s r t : str) :
  drop_prefix p s = Some r -> drop_prefix p (s ++ t) = Some (r ++ t).
Proof.
  intro D. apply drop_prefix_inv in D. subst s.
  rewrite <- app_assoc. apply drop_prefix_app.
Qed.

Lemma endswith_after (suffix a b : str) :
  search.endswith suffix b = true -> search.endswith suffix (a ++ b) = true.
Proof.
  unfold search.endswith. rewrite rev_app_distr.
  destruct (drop_prefix (rev suffix) (rev b)) as [r|] eqn:D; [|discriminate].
  intros _. now rewrite (drop_prefix_more _ _ _ (rev a) D).
Qed.

Lemma endswith_added (suffix s : str) :
  search.endswith suffix (s ++ suffix) = true.
Proof.
  unfold search.endswith. rewrite rev_app_distr.
  now rewrite drop_prefix_app.
Qed.

Lemma u_sentence_end : u ". " <> [].
Proof. vm_compute. discriminate. Qed.

End SearchFacts.

(** X27.  The text that [wikipedia_search] of tools/search.py makes of an
    article.  When the request is answered with status 200 and a JSON
    object whose [extract] is a text that is not empty, the function
    returns the title in square brackets, a space and a body, and the
    body is the start of the extract: its first pieces between the
    separator of a full stop and a space, as many as [sentences] says
    after it has been brought into the range from 1 to 10, joined by the
    separator, with a full stop added when the body does not end with
    one.  An extract of no more pieces than that is returned whole, and
    the text returned always ends with a full stop. *)
Theorem wikipedia_summary_is_start_of_extract :
  forall (World : Type)
         (get : str -> World -> result search.Response * World)
         (Timeout_classes RequestException_classes : str -> bool)
         (str_other : json -> str)
         (fallback : str -> str -> Z -> World -> result str * World)
         (query language : str) (sentences : Z) (w w' : World)
         (response : search.Response) (d : list (str * json))
         (extract : str),
    get (u "https://" ++ language
           ++ u ".wikipedia.org/api/rest_v1/page/summary/"
           ++ search.replace_char 32%N 95%N query) w
    = (Ok response, w') ->
    search.status_code response = 200%Z ->
    search.json_ response = Ok (JDict d) ->
    dict_get (u "extract") d = Some (JStr extract) ->
    extract <> [] ->
    let n := Z.to_nat (Z.max 1 (Z.min 10 sentences)) in
    let title :=
      match dict_get (u "title") d with
      | Some t => t
      | None => JStr query
      end in
    let body := join (u ". ") (firstn n (split (u ". ") extract)) in
    let text :=
      u "[" ++ search.text_of str_other title ++ u "] "
        ++ (if search.endswith (u ".") body then body else body ++ u ".") in
    search.wikipedia_search get Timeout_classes RequestException_classes
      str_other fallback query language sentences w
    = (text, w')
    /\ 1 <= n <= 10
    /\ (exists rest, extract = body ++ rest)
    /\ (List.length (split (u ". ") extract) <= n -> body = extract)
    /\ search.endswith (u ".") text = true.
Proof.
  intros World get Tc Rc str_other fallback query language sentences w w'
         response d extract G S200 J E NE.
  cbv zeta. split; [|split; [lia|split; [|split]]].
  - unfold search.wikipedia_search, search.request. cbv zeta.
    rewrite <- !app_assoc. rewrite G, S200.
    cbn [Z.eqb Pos.eqb negb]. unfold search.summary. rewrite J.
    cbn [bind_result search.get_method]. rewrite E.
    destruct extract as [|c t]; [congruence|].
    cbn [search.truthy negb search.split_method bind_result].
    now destruct (search.endswith (u ".") _).
  - destruct (SearchFacts.join_firstn (u ". ") (split (u ". ") extract)
                (Z.to_nat (Z.max 1 (Z.min 10 sentences)))) as [rest R].
    exists rest. rewrite <- R.
    symmetry. apply SearchFacts.join_split, SearchFacts.u_sentence_end.
  - intro L. rewrite firstn_all2 by exact L.
    apply SearchFacts.join_split, SearchFacts.u_sentence_end.
  - rewrite !app_assoc. apply SearchFacts.endswith_after.
    destruct (search.endswith (u ".")
                (join (u ". ")
                   (firstn (Z.to_nat (Z.max 1 (Z.min 10 sentences)))
                      (split (u ". ") extract)))) eqn:W; [exact W|].
    apply SearchFacts.endswith_added.
Qed.

Lemma wikipedia_summary_is_start_of_extract_witness :
  search.wikipedia_search Samples.article_service
    (fun _ => false) (fun _ => false) (fun _ => [])
    (fun _ _ _ w => (Ok [], w))
    (u "Python") (u "en") 2 tt
  = (u "[Python] Python is a language. It is old.", tt).
Proof.
  destruct (wikipedia_summary_is_start_of_extract Demo.World
              Samples.article_service
              (fun _ => false) (fun _ => false) (fun _ => [])
              (fun _ _ _ w => (Ok [], w))
              (u "Python") (u "en") 2 tt tt
              Samples.article_reply
              [ (u "title", JStr (u "Python"));
                (u "extract",
                 JStr (u "Python is a language. It is old. It is used")) ]
              (u "Python is a language. It is old. It is used"))
    as [H _].
  - reflexivity.
  - reflexivity.
  - reflexivity.
  - vm_compute. reflexivity.
  - intro E. vm_compute in E. discriminate E.
  - vm_compute in H |- *. exact H.
Defined.
